(** * Blockchain.py: the ledger, its proof of work and its consensus rule

    A shallow embedding of [src/Blockchain.py].  The class [Blockchain]
    becomes a record with the three attributes [chain],
    [currentTransactions] and [nodes]; its methods become functions in a
    state-and-exception monad, so that a Python exception raised half way
    through a method leaves the attributes as they were at that point.

    What the program takes from libraries is modelled as follows.
    - [hashlib.sha256]: SHA-256 as in FIPS 180-4, over [Z] words.
    - [json.dumps(_, sort_keys=True)], [str], [repr] and [str.encode]:
      written out below for JSON-shaped values.
    - [urllib.parse.urlparse], [float.__repr__]: parameters of the
      development (the variables of [Section Program]); nothing is
      assumed about them.
    - [requests.get], [time.time], [uuid4]: inputs of the operations. *)

From Stdlib Require Import ZArith Lia Ascii String List Bool DecimalString.
From Stdlib Require Import Floats.SpecFloat.
From stdpp Require Import base gmap strings list.

Import ListNotations.

Local Set Warnings "-register-all,-clear-no-such-hyp".
Local Open Scope Z_scope.

(** ** SHA-256 (hashlib.sha256) *)

Module Sha256.

Definition w32 (x : Z) : Z := Z.land x 4294967295.
Definition add32 (x y : Z) : Z := w32 (x + y).
Definition rotr (n x : Z) : Z :=
  Z.lor (Z.shiftr x n) (w32 (Z.shiftl x (32 - n))).
Definition shr (n x : Z) : Z := Z.shiftr x n.

Definition Ch (x y z : Z) : Z :=
  Z.lxor (Z.land x y) (Z.land (Z.lxor x 4294967295) z).
Definition Maj (x y z : Z) : Z :=
  Z.lxor (Z.lxor (Z.land x y) (Z.land x z)) (Z.land y z).
Definition Sigma0 (x : Z) : Z :=
  Z.lxor (Z.lxor (rotr 2 x) (rotr 13 x)) (rotr 22 x).
Definition Sigma1 (x : Z) : Z :=
  Z.lxor (Z.lxor (rotr 6 x) (rotr 11 x)) (rotr 25 x).
Definition sigma0 (x : Z) : Z :=
  Z.lxor (Z.lxor (rotr 7 x) (rotr 18 x)) (shr 3 x).
Definition sigma1 (x : Z) : Z :=
  Z.lxor (Z.lxor (rotr 17 x) (rotr 19 x)) (shr 10 x).

(** The constants are those of FIPS 180-4: the words of [K] are the
    first 32 bits of the fractional parts of the cube roots of the first
    64 primes, those of [H0] the same for the square roots of the first
    8 primes. *)
Definition is_prime (n : Z) : bool :=
  (1 <? n)
  && List.forallb (fun d => negb (n mod Z.of_nat d =? 0))
                  (List.seq 2 (Z.to_nat n - 2)).

Definition primes : list Z :=
  Eval vm_compute in
    List.firstn 64 (List.filter is_prime (List.map Z.of_nat (List.seq 2 320))).

(** The greatest [r] below [2^k] above the given [r] with [r^3 <= n]. *)
Fixpoint cube_root (k : nat) (n r : Z) : Z :=
  match k with
  | O => r
  | S k' =>
      let r' := r + 2 ^ Z.of_nat k' in
      if r' * r' * r' <=? n then cube_root k' n r' else cube_root k' n r
  end.

Definition K : list Z :=
  Eval vm_compute in
    List.map (fun p => w32 (cube_root 36 (p * 2 ^ 96) 0)) primes.

(** The eight working variables, and the eight words of the hash value. *)
Record regs : Type := Regs {
  ra : Z; rb : Z; rc : Z; rd : Z; re : Z; rf : Z; rg : Z; rh : Z }.

Definition root_word (i : nat) : Z :=
  w32 (Z.sqrt (List.nth i primes 0 * 2 ^ 64)).

Definition H0 : regs :=
  Eval vm_compute in
    Regs (root_word 0) (root_word 1) (root_word 2) (root_word 3)
         (root_word 4) (root_word 5) (root_word 6) (root_word 7).

(** Padding: the byte 0x80, zero bytes up to 56 modulo 64, then the
    length in bits as a 64-bit big-endian integer. *)
Definition be_bytes (n : nat) (x : Z) : list Z :=
  List.map (fun i => Z.land (Z.shiftr x (8 * Z.of_nat i)) 255)
           (List.rev (List.seq 0 n)).

Definition pad (msg : list Z) : list Z :=
  let len := Z.of_nat (List.length msg) in
  let zeros := Z.to_nat ((55 - len) mod 64) in
  msg ++ [128] ++ List.repeat 0 zeros ++ be_bytes 8 (8 * len).

Fixpoint words (n : nat) (bs : list Z) : list Z :=
  match n with
  | O => []
  | S n' =>
      match bs with
      | b0 :: b1 :: b2 :: b3 :: rest =>
          (b0 * 16777216 + b1 * 65536 + b2 * 256 + b3) :: words n' rest
      | _ => []
      end
  end.

(** The message schedule, kept newest first: [w] holds W(t-1) .. W(0). *)
Fixpoint extend (n : nat) (w : list Z) : list Z :=
  match n with
  | O => w
  | S n' =>
      let at_ i := List.nth i w 0 in
      let wt := add32 (add32 (sigma1 (at_ 1%nat)) (at_ 6%nat))
                      (add32 (sigma0 (at_ 14%nat)) (at_ 15%nat)) in
      extend n' (wt :: w)
  end.

Definition schedule (block : list Z) : list Z :=
  List.rev (extend 48 (List.rev (words 16 block))).

Definition round (r : regs) (kw : Z * Z) : regs :=
  let '(k, w) := kw in
  let t1 := add32 (add32 (add32 (add32 (rh r) (Sigma1 (re r)))
                                (Ch (re r) (rf r) (rg r))) k) w in
  let t2 := add32 (Sigma0 (ra r)) (Maj (ra r) (rb r) (rc r)) in
  Regs (add32 t1 t2) (ra r) (rb r) (rc r) (add32 (rd r) t1)
       (re r) (rf r) (rg r).

Definition compress (h : regs) (block : list Z) : regs :=
  let r := List.fold_left round (List.combine K (schedule block)) h in
  Regs (add32 (ra h) (ra r)) (add32 (rb h) (rb r))
       (add32 (rc h) (rc r)) (add32 (rd h) (rd r))
       (add32 (re h) (re r)) (add32 (rf h) (rf r))
       (add32 (rg h) (rg r)) (add32 (rh h) (rh r)).

Fixpoint blocks (n : nat) (h : regs) (bs : list Z) : regs :=
  match n with
  | O => h
  | S n' => blocks n' (compress h (List.firstn 64 bs)) (List.skipn 64 bs)
  end.

Definition digest (msg : list Z) : regs :=
  let p := pad msg in
  blocks (Nat.div (List.length p) 64) H0 p.

(** [hexdigest()]: lower-case hexadecimal, eight digits per word. *)
Definition hex_digit (d : Z) : ascii :=
  if d <? 10 then ascii_of_N (Z.to_N (48 + d))
  else ascii_of_N (Z.to_N (87 + d)).

Definition hex_nibble (x : Z) (i : Z) : ascii :=
  hex_digit (Z.land (Z.shiftr x (4 * i)) 15).

Definition hex8 (x : Z) (tail : string) : string :=
  String (hex_nibble x 7) (String (hex_nibble x 6)
  (String (hex_nibble x 5) (String (hex_nibble x 4)
  (String (hex_nibble x 3) (String (hex_nibble x 2)
  (String (hex_nibble x 1) (String (hex_nibble x 0) tail))))))).

Definition hexdigest (msg : list Z) : string :=
  let r := digest msg in
  hex8 (ra r) (hex8 (rb r) (hex8 (rc r) (hex8 (rd r)
  (hex8 (re r) (hex8 (rf r) (hex8 (rg r) (hex8 (rh r) EmptyString))))))).

End Sha256.

(** ** Python values

    Everything the program handles is JSON-shaped: the blocks it builds
    are dict literals, and what it receives from peers and clients went
    through a JSON decoder.  A [str] is a Rocq string whose characters
    are its code points (code points above 255 are outside the model); a
    dict is the list of its items in insertion order. *)

Inductive value : Type :=
| VNone
| VBool (b : bool)
| VInt (z : Z)
| VFloat (f : spec_float)
| VStr (s : string)
| VList (l : list value)
| VDict (d : list (string * value)).

(** The exceptions that can leave a method of the program. *)
Inductive exn : Type :=
| IndexError
| KeyError
| TypeError
| AttributeError
| ValueError (msg : string)
| RequestException.

(** What running a piece of code gives: a value, an exception, or a
    loop that was still running when the fuel ran out. *)
Inductive outcome (A : Type) : Type :=
| Returns (a : A)
| Raises (e : exn)
| OutOfFuel.

Arguments Returns {A} a.
Arguments Raises {A} e.
Arguments OutOfFuel {A}.

Definition obind {A B : Type} (m : outcome A) (k : A -> outcome B)
  : outcome B :=
  match m with
  | Returns a => k a
  | Raises e => Raises e
  | OutOfFuel => OutOfFuel
  end.

Declare Scope outcome_scope.
Delimit Scope outcome_scope with outcome.
Notation "x <- m ;; k" := (obind m (fun x => k))
  (at level 100, m at next level, right associativity) : outcome_scope.

(** Numbers, for [>]: a bool counts as the int 0 or 1. *)
Inductive number : Type :=
| NInt (z : Z)
| NFloat (f : spec_float).

Definition as_number (v : value) : option number :=
  match v with
  | VBool b => Some (NInt (if b then 1 else 0))
  | VInt z => Some (NInt z)
  | VFloat f => Some (NFloat f)
  | _ => None
  end.

(** Python compares an int with a float exactly. *)
Definition float_cmp_int (f : spec_float) (z : Z) : option comparison :=
  match f with
  | S754_nan => None
  | S754_infinity s => Some (if s then Lt else Gt)
  | S754_zero _ => Some (0 ?= z)
  | S754_finite s m e =>
      let v := if s then Z.neg m else Z.pos m in
      Some (if 0 <=? e then (v * 2 ^ e ?= z) else (v ?= z * 2 ^ (- e)))
  end.

Definition num_gt (a b : number) : bool :=
  match a, b with
  | NInt x, NInt y => y <? x
  | NFloat f, NInt y =>
      match float_cmp_int f y with Some Gt => true | _ => false end
  | NInt x, NFloat g =>
      match float_cmp_int g x with Some Lt => true | _ => false end
  | NFloat f, NFloat g => SFltb g f
  end.

Definition py_len (v : value) : outcome Z :=
  match v with
  | VStr s => Returns (Z.of_nat (String.length s))
  | VList l => Returns (Z.of_nat (List.length l))
  | VDict d => Returns (Z.of_nat (List.length d))
  | _ => Raises TypeError
  end.

(** [v[i]] for an int [i]; a negative index counts from the end. *)
Definition seq_index {A : Type} (l : list A) (i : Z) : option A :=
  let n := Z.of_nat (List.length l) in
  let j := if i <? 0 then i + n else i in
  if (0 <=? j) && (j <? n) then List.nth_error l (Z.to_nat j) else None.

Definition py_index (v : value) (i : Z) : outcome value :=
  match v with
  | VList l =>
      match seq_index l i with
      | Some x => Returns x
      | None => Raises IndexError
      end
  | VStr s =>
      match seq_index (list_ascii_of_string s) i with
      | Some c => Returns (VStr (String c EmptyString))
      | None => Raises IndexError
      end
  | VDict _ => Raises KeyError
  | _ => Raises TypeError
  end.

Fixpoint assoc {A : Type} (k : string) (d : list (string * A)) : option A :=
  match d with
  | [] => None
  | (k', x) :: d' => if String.eqb k' k then Some x else assoc k d'
  end.

(** [v[k]] for a str [k]. *)
Definition py_item (v : value) (k : string) : outcome value :=
  match v with
  | VDict d =>
      match assoc k d with
      | Some x => Returns x
      | None => Raises KeyError
      end
  | _ => Raises TypeError
  end.

Definition float_is_zero (f : spec_float) : bool :=
  match f with S754_zero _ => true | _ => false end.

Definition py_truth (v : value) : bool :=
  match v with
  | VNone => false
  | VBool b => b
  | VInt z => negb (z =? 0)
  | VFloat f => negb (float_is_zero f)
  | VStr s => match s with EmptyString => false | _ => true end
  | VList l => match l with [] => false | _ => true end
  | VDict d => match d with [] => false | _ => true end
  end.

(** [v != s] for a str [s]: a value that is not a str differs from it. *)
Definition py_ne_str (v : value) (s : string) : bool :=
  match v with
  | VStr s' => negb (String.eqb s' s)
  | _ => true
  end.

(** [v + 1] *)
Definition py_add_one (v : value) : outcome value :=
  match v with
  | VBool b => Returns (VInt ((if b then 1 else 0) + 1))
  | VInt z => Returns (VInt (z + 1))
  | VFloat f => Returns (VFloat (SFadd 53 1024 f (SFone 53 1024)))
  | _ => Raises TypeError
  end.

(** [a > b] where [b] is a number. *)
Definition py_gt (a : value) (b : number) : outcome bool :=
  match as_number a with
  | Some x => Returns (num_gt x b)
  | None => Raises TypeError
  end.

(** ** Text: str(), repr(), json.dumps() and str.encode() *)

Definition decimal (z : Z) : string := NilZero.string_of_int (Z.to_int z).

Definition code (c : ascii) : Z := Z.of_N (N_of_ascii c).

Definition hex2 (n : Z) : string :=
  String (Sha256.hex_digit (Z.land (Z.shiftr n 4) 15))
    (String (Sha256.hex_digit (Z.land n 15)) EmptyString).

Definition chr (c : ascii) : string := String c EmptyString.

(** json.encoder.py_encode_basestring_ascii, one character. *)
Definition json_escape_char (c : ascii) : string :=
  let n := code c in
  if n =? 92 then "\\"
  else if n =? 34 then "\" +:+ chr c
  else if (32 <=? n) && (n <=? 126) then chr c
  else if n =? 8 then "\b"
  else if n =? 12 then "\f"
  else if n =? 10 then "\n"
  else if n =? 13 then "\r"
  else if n =? 9 then "\t"
  else "\u00" +:+ hex2 n.

Fixpoint json_escape (s : string) : string :=
  match s with
  | EmptyString => EmptyString
  | String c s' => json_escape_char c +:+ json_escape s'
  end.

Definition quote : string := chr (ascii_of_N 34).

Definition json_string (s : string) : string :=
  quote +:+ json_escape s +:+ quote.

Fixpoint contains (c : ascii) (s : string) : bool :=
  match s with
  | EmptyString => false
  | String c' s' => Ascii.eqb c c' || contains c s'
  end.

(** str.isprintable for one code point below 256. *)
Definition printable (n : Z) : bool :=
  ((32 <=? n) && (n <=? 126)) || ((161 <=? n) && negb (n =? 173)).

(** repr() of a str: single quotes unless the text has a single quote
    and no double quote. *)
Definition repr_char (q : ascii) (c : ascii) : string :=
  let n := code c in
  if Ascii.eqb c q || (n =? 92) then "\" +:+ chr c
  else if n =? 9 then "\t"
  else if n =? 10 then "\n"
  else if n =? 13 then "\r"
  else if printable n then chr c
  else "\x" +:+ hex2 n.

Fixpoint repr_chars (q : ascii) (s : string) : string :=
  match s with
  | EmptyString => EmptyString
  | String c s' => repr_char q c +:+ repr_chars q s'
  end.

Definition str_repr (s : string) : string :=
  let sq := ascii_of_N 39 in
  let dq := ascii_of_N 34 in
  let q := if contains sq s && negb (contains dq s) then dq else sq in
  chr q +:+ repr_chars q s +:+ chr q.

(** str.encode(): UTF-8. *)
Definition encode_char (c : ascii) : list Z :=
  let n := code c in
  if n <? 128 then [n]
  else [Z.lor 192 (Z.shiftr n 6); Z.lor 128 (Z.land n 63)].

Fixpoint encode (s : string) : list Z :=
  match s with
  | EmptyString => []
  | String c s' => encode_char c ++ encode s'
  end.

(** sorted() on the items of a dict, by key. *)
Fixpoint insert_item (kv : string * string) (l : list (string * string))
  : list (string * string) :=
  match l with
  | [] => [kv]
  | x :: r =>
      if String.leb (fst kv) (fst x) then kv :: l else x :: insert_item kv r
  end.

Definition sort_items (l : list (string * string)) : list (string * string) :=
  List.fold_right insert_item [] l.

(** A float whose value is a whole number below 10^16 prints as that
    number followed by ".0"; this is what [float.__repr__] gives there,
    and is used for the concrete runs at the end of the file. *)
Definition repr_whole_float (f : spec_float) : string :=
  match f with
  | S754_zero s => if s then "-0.0" else "0.0"
  | S754_finite s m e =>
      let v := if s then Z.neg m else Z.pos m in
      decimal (if 0 <=? e then v * 2 ^ e else v / 2 ^ (- e)) +:+ ".0"
  | S754_infinity s => if s then "-inf" else "inf"
  | S754_nan => "nan"
  end.

(** The six components of [urlparse]'s result. *)
Record ParseResult : Type := {
  scheme : string;
  netloc : string;
  path : string;
  params : string;
  query : string;
  fragment : string }.

(** What [requests.get] gives for one peer: an exception (connection
    refused, time out, ...) or a response with a status code whose
    [json()] gives a value or raises. *)
Inductive reply : Type :=
| GetRaises (e : exn)
| Response (status_code : Z) (json : outcome value).

(** The attributes of a [Blockchain] object. *)
Record Blockchain : Type := {
  chain : value;
  currentTransactions : list value;
  nodes : gset string }.

(** A method: from the object to a result and the object afterwards. *)
Definition M (A : Type) : Type := Blockchain -> outcome A * Blockchain.

Definition ret {A : Type} (a : A) : M A := fun self => (Returns a, self).

Definition bind {A B : Type} (m : M A) (k : A -> M B) : M B :=
  fun self =>
    match m self with
    | (Returns a, self') => k a self'
    | (Raises e, self') => (Raises e, self')
    | (OutOfFuel, self') => (OutOfFuel, self')
    end.

Definition lift {A : Type} (o : outcome A) : M A := fun self => (o, self).
Definition raise {A : Type} (e : exn) : M A := lift (Raises e).
Definition attr {A : Type} (proj : Blockchain -> A) : M A :=
  fun self => (Returns (proj self), self).
Definition set_chain (c : value) : M unit :=
  fun self =>
    (Returns tt, {| chain := c;
                    currentTransactions := currentTransactions self;
                    nodes := nodes self |}).
Definition set_currentTransactions (t : list value) : M unit :=
  fun self =>
    (Returns tt, {| chain := chain self;
                    currentTransactions := t;
                    nodes := nodes self |}).
Definition set_nodes (n : gset string) : M unit :=
  fun self =>
    (Returns tt, {| chain := chain self;
                    currentTransactions := currentTransactions self;
                    nodes := n |}).

Declare Scope method_scope.
Delimit Scope method_scope with method.
Notation "x <- m ;; k" := (bind m (fun x => k))
  (at level 100, m at next level, right associativity) : method_scope.

Definition nonempty (s : string) : bool :=
  match s with EmptyString => false | _ => true end.

(** ** What the routes do with the request

    [k in v], [v.get(k)] and [for x in v]. *)

(** [k in s] for two strs: [k] occurs in [s]. *)
Fixpoint occurs (k s : string) : bool :=
  String.prefix k s
  || match s with
     | EmptyString => false
     | String _ s' => occurs k s'
     end.

Definition is_str (k : string) (v : value) : bool :=
  match v with
  | VStr s => String.eqb s k
  | _ => false
  end.

(** [k in v] for a str [k]: a key of a dict, an element of a list, a
    part of a str. *)
Definition py_in (k : string) (v : value) : outcome bool :=
  match v with
  | VDict d => Returns (match assoc k d with Some _ => true | None => false end)
  | VList l => Returns (List.existsb (is_str k) l)
  | VStr s => Returns (occurs k s)
  | _ => Raises TypeError
  end.

(** [v.get(k)]: only a dict has the method. *)
Definition py_get (v : value) (k : string) : outcome value :=
  match v with
  | VDict d =>
      Returns (match assoc k d with Some x => x | None => VNone end)
  | _ => Raises AttributeError
  end.

(** What [for x in v] goes through: the elements of a list, the
    characters of a str, the keys of a dict. *)
Definition py_iter (v : value) : outcome (list value) :=
  match v with
  | VList l => Returns l
  | VStr s => Returns (List.map (fun c => VStr (chr c)) (list_ascii_of_string s))
  | VDict d => Returns (List.map (fun kv => VStr (fst kv)) d)
  | _ => Raises TypeError
  end.

(** [all(k in values for k in required)]: stops at the first name that
    is not in [values]. *)
Fixpoint all_in (required : list string) (values : value) : outcome bool :=
  match required with
  | [] => Returns true
  | k :: required' =>
      (present <- py_in k values ;;
       if present then all_in required' values else Returns false)%outcome
  end.

(** A [for] loop over [l] whose body is the method call [f]. *)
Fixpoint for_each {A : Type} (f : A -> M unit) (l : list A) : M unit :=
  match l with
  | [] => ret tt
  | x :: l' => (_ <- f x ;; for_each f l')%method
  end.

(** ** BasicPowMiner.py

    The script: its two constants, [create_hash] and its [while] loop,
    whose result is the final value of [y].  The [print] calls are left
    out. *)

Module BasicPowMiner.

Definition x : string := "Hello World".
Definition difficulty : Z := 4.

(** [s * n] for a str and an int: [n] copies, none when [n <= 0]. *)
Fixpoint copies (s : string) (n : nat) : string :=
  match n with
  | O => EmptyString
  | S n' => s +:+ copies s n'
  end.

Definition str_mul (s : string) (n : Z) : string := copies s (Z.to_nat n).

Definition create_hash (x : string) (y : Z) : string :=
  Sha256.hexdigest (encode (str_mul x y)).

(** [fuel] bounds the number of times the test of the loop is
    evaluated. *)
Fixpoint search (fuel : nat) (y : Z) : outcome Z :=
  match fuel with
  | O => OutOfFuel
  | S fuel' =>
      if negb (String.eqb (substring 0 (Z.to_nat difficulty)
                                     (create_hash x y))
                          (str_mul "0" difficulty))
      then search fuel' (y + 1)
      else Returns y
  end.

Definition y (fuel : nat) : outcome Z := search fuel 0.

(** The test that ends the loop: the first [difficulty] characters of
    the digest are zeros. *)
Definition found (y : Z) : bool :=
  String.eqb (substring 0 (Z.to_nat difficulty) (create_hash x y))
             (str_mul "0" difficulty).

End BasicPowMiner.

(** ** Values that the program builds *)

(** The reward that [mine] adds to the pool. *)
Definition reward (node_identifier : string) : value :=
  VDict [ ("sender", VStr "0");
          ("recipient", VStr node_identifier);
          ("amount", VInt 1) ].

(** The first block of every chain. *)
Definition genesis (now : spec_float) : value :=
  VDict [ ("index", VInt 1);
          ("timestamp", VFloat now);
          ("transactions", VList []);
          ("proof", VInt 100);
          ("previous_hash", VInt 1) ].

(** A transaction as [new_transaction] stores it. *)
Definition transaction (sender recipient amount : value) : value :=
  VDict [ ("sender", sender); ("recipient", recipient);
          ("amount", amount) ].

Definition chain_url (node : string) : string :=
  "http://" +:+ node +:+ "/chain".

(** The address under which a parsed URL is stored, as the registry is
    specified: the network location if there is one, else the path if
    there is one, else nothing. *)
Definition normalized (p : ParseResult) : option string :=
  if nonempty (netloc p) then Some (netloc p)
  else if nonempty (path p) then Some (path p)
  else None.

Definition with_nodes (self : Blockchain) (ns : gset string) : Blockchain :=
  {| chain := chain self;
     currentTransactions := currentTransactions self;
     nodes := ns |}.

(** ** Data for the concrete runs *)

(** The float for [n] seconds, for [2^30 <= n < 2^31]: a mantissa of 53
    bits. *)
Definition seconds (n : Z) : spec_float :=
  S754_finite false (Z.to_pos (n * 2 ^ 22)) (-22).

(** A stand-in for [urlparse] on the two forms of address that the
    program documents, http://host:port and host:port, and on the empty
    address. *)
Definition urlparse_hostport (url : string) : outcome ParseResult :=
  if String.prefix "http://" url then
    Returns {| scheme := "http";
               netloc := substring 7 (String.length url - 7) url;
               path := EmptyString; params := EmptyString;
               query := EmptyString; fragment := EmptyString |}
  else
    Returns {| scheme := EmptyString; netloc := EmptyString;
               path := url; params := EmptyString;
               query := EmptyString; fragment := EmptyString |}.

Definition node0 : string := "node0".
Definition peer_a : string := "192.168.0.10:5005".
Definition peer_b : string := "192.168.0.11:5000".

(** A ledger made at 1700002596.0, and the same ledger after one call of
    [mine] at 1700023670.0; the proofs that the search finds are small
    for these two times. *)
Definition fresh_ledger : Blockchain :=
  {| chain := VList [genesis (seconds 1700002596)];
     currentTransactions := [];
     nodes := ∅ |}.

Definition mined_block : value :=
  VDict [ ("index", VInt 2);
          ("timestamp", VFloat (seconds 1700023670));
          ("transactions", VList [reward node0]);
          ("proof", VInt 3);
          ("previous_hash",
           VStr "abf15b4ff4c832c5506aec078cbeec41261dc1f96bc05d7ce5af06c2832649ca") ].

Definition mined_ledger : Blockchain :=
  {| chain := VList [genesis (seconds 1700002596); mined_block];
     currentTransactions := [];
     nodes := ∅ |}.

Definition chain_body (chain : list value) (length : Z) : value :=
  VDict [ ("chain", VList chain); ("length", VInt length) ].

(** A peer whose ledger is fresh and that reports the length 3. *)
Definition get_short (url : string) : reply :=
  Response 200 (Returns (chain_body [genesis (seconds 1700000000)] 3)).

(** No peer can be reached. *)
Definition get_down (url : string) : reply := GetRaises RequestException.

(** [peer_a] cannot be reached; the others have the mined ledger. *)
Definition get_a_down (url : string) : reply :=
  if String.eqb url (chain_url peer_a) then GetRaises RequestException
  else Response 200
         (Returns (chain_body [genesis (seconds 1700002596); mined_block] 2)).

(** [peer_a] answers 500 with a body that is not JSON; the others have
    the mined ledger. *)
Definition get_a_500 (url : string) : reply :=
  if String.eqb url (chain_url peer_a)
  then Response 500 (Raises (ValueError "Expecting value"))
  else Response 200
         (Returns (chain_body [genesis (seconds 1700002596); mined_block] 2)).

(** A peer that reports the length 7 and no block at all. *)
Definition get_empty (url : string) : reply :=
  Response 200 (Returns (chain_body [] 7)).

(** A stand-in for [urlparse] on an address that is not a str: it
    raises, as it does on a number other than zero. *)
Definition urlparse_number (address : value) : outcome ParseResult :=
  Raises AttributeError.

(** The mined block with another index, other transactions and another
    time, but the same proof and previous_hash. *)
Definition altered_block : value :=
  VDict [ ("index", VInt 7);
          ("timestamp", VFloat (seconds 1700000000));
          ("transactions",
           VList [transaction (VStr "0") (VStr "mallory") (VInt 1000)]);
          ("proof", VInt 3);
          ("previous_hash",
           VStr "abf15b4ff4c832c5506aec078cbeec41261dc1f96bc05d7ce5af06c2832649ca") ].

(** The items of the genesis block of [fresh_ledger], in the order in
    which [new_block] writes them. *)
Definition genesis_items : list (string * value) :=
  [ ("index", VInt 1);
    ("timestamp", VFloat (seconds 1700002596));
    ("transactions", VList []);
    ("proof", VInt 100);
    ("previous_hash", VInt 1) ].

(** Two bodies for the routes /nodes/register and /nodes/deRegister. *)
Definition two_addresses : value :=
  VDict [ ("nodes", VList [VStr "http://192.168.0.10:5005"; VStr peer_b]) ].

Definition mixed_items : value :=
  VDict [ ("nodes", VList [VStr peer_a; VInt 5; VStr EmptyString]) ].

(** The ledger of the node that registered [peer_a], took one
    transaction from alice to bob and then mined at 1700008601.0. *)
Definition paid_block : value :=
  VDict [ ("index", VInt 2);
          ("timestamp", VFloat (seconds 1700008601));
          ("transactions",
           VList [ transaction (VStr "alice") (VStr "bob") (VInt 5);
                   reward node0 ]);
          ("proof", VInt 3);
          ("previous_hash",
           VStr "abf15b4ff4c832c5506aec078cbeec41261dc1f96bc05d7ce5af06c2832649ca") ].

Definition paid_ledger : Blockchain :=
  {| chain := VList [genesis (seconds 1700002596); paid_block];
     currentTransactions := [];
     nodes := {[ peer_a ]} |}.

Section Program.

(** [float.__repr__] and [urllib.parse.urlparse] *)
Variable float_repr : spec_float -> string.
Variable urlparse : string -> outcome ParseResult.

(** *** Text of a value *)

Fixpoint py_repr (v : value) : string :=
  match v with
  | VNone => "None"
  | VBool b => if b then "True" else "False"
  | VInt z => decimal z
  | VFloat f => float_repr f
  | VStr s => str_repr s
  | VList l => "[" +:+ String.concat ", " (List.map py_repr l) +:+ "]"
  | VDict d =>
      "{" +:+ String.concat ", "
                (List.map (fun kv => str_repr (fst kv) +:+ ": "
                                     +:+ py_repr (snd kv)) d)
          +:+ "}"
  end.

(** What an f-string puts for [{v}]. *)
Definition py_str (v : value) : string :=
  match v with
  | VStr s => s
  | _ => py_repr v
  end.

Definition json_float (f : spec_float) : string :=
  match f with
  | S754_nan => "NaN"
  | S754_infinity s => if s then "-Infinity" else "Infinity"
  | _ => float_repr f
  end.

(** [json.dumps(v, sort_keys=True)] *)
Fixpoint json_dumps (v : value) : string :=
  match v with
  | VNone => "null"
  | VBool b => if b then "true" else "false"
  | VInt z => decimal z
  | VFloat f => json_float f
  | VStr s => json_string s
  | VList l => "[" +:+ String.concat ", " (List.map json_dumps l) +:+ "]"
  | VDict d =>
      "{" +:+ String.concat ", "
                (List.map (fun ks => json_string (fst ks) +:+ ": "
                                     +:+ snd ks)
                   (sort_items
                      (List.map (fun kv => (fst kv, json_dumps (snd kv)))
                                d)))
          +:+ "}"
  end.

(** *** class Blockchain *)

(** [Blockchain.hash] (static) *)
Definition hash (block : value) : string :=
  let block_string := encode (json_dumps block) in
  Sha256.hexdigest block_string.

(** [Blockchain.valid_proof] (static); [last_hash] is always a str
    that [hash] returned. *)
Definition valid_proof (last_proof proof : value) (last_hash : string)
  : bool :=
  let guess := encode (py_str last_proof +:+ py_str proof +:+ last_hash) in
  let guess_hash := Sha256.hexdigest guess in
  String.eqb (substring 0 4 guess_hash) "0000".

(** [Blockchain.register_node] *)
Definition register_node (address : string) : M unit :=
  (parsed_url <- lift (urlparse address) ;;
   if nonempty (netloc parsed_url) then
     ns <- attr nodes ;; set_nodes (ns ∪ {[ netloc parsed_url ]})
   else if nonempty (path parsed_url) then
     ns <- attr nodes ;; set_nodes (ns ∪ {[ path parsed_url ]})
   else raise (ValueError "Invalid URL"))%method.

(** [set.remove]: a KeyError when the element is not in the set. *)
Definition set_remove (x : string) : M unit :=
  (ns <- attr nodes ;;
   if bool_decide (x ∈ ns) then set_nodes (ns ∖ {[ x ]})
   else raise KeyError)%method.

(** [Blockchain.deregister_node] *)
Definition deregister_node (address : string) : M unit :=
  (ns <- attr nodes ;;
   if bool_decide (size ns = 0%nat) then ret tt
   else
     parsed_url <- lift (urlparse address) ;;
     if nonempty (netloc parsed_url) then set_remove (netloc parsed_url)
     else if nonempty (path parsed_url) then set_remove (path parsed_url)
     else raise (ValueError "Invalid URL"))%method.

(** The [while] loop of [valid_chain]; [n] bounds the number of
    iterations still to come.  The [print] calls are left out. *)
Fixpoint valid_chain_loop (n : nat) (chain last_block : value)
         (current_index : Z) : outcome bool :=
  (len <- py_len chain ;;
   if current_index <? len then
     match n with
     | O => OutOfFuel
     | S n' =>
         block <- py_index chain current_index ;;
         let last_block_hash := hash last_block in
         previous_hash <- py_item block "previous_hash" ;;
         if py_ne_str previous_hash last_block_hash then Returns false
         else
           last_proof <- py_item last_block "proof" ;;
           proof <- py_item block "proof" ;;
           if negb (valid_proof last_proof proof last_block_hash)
           then Returns false
           else valid_chain_loop n' chain block (current_index + 1)
     end
   else Returns true)%outcome.

Definition size_of (v : value) : nat :=
  match v with
  | VStr s => String.length s
  | VList l => List.length l
  | VDict d => List.length d
  | _ => O
  end.

(** [Blockchain.valid_chain] *)
Definition valid_chain (chain : value) : outcome bool :=
  (last_block <- py_index chain 0 ;;
   valid_chain_loop (size_of chain) chain last_block 1)%outcome.

(** The body of the [for] loop of [resolve_conflicts], for one node. *)
Definition resolve_step (get : string -> reply) (node : string)
           (acc : value * number) : outcome (value * number) :=
  let '(new_chain, max_length) := acc in
  match get (chain_url node) with
  | GetRaises e => Raises e
  | Response status_code json =>
      if status_code =? 200 then
        (body <- json ;;
         length <- py_item body "length" ;;
         body' <- json ;;
         chain <- py_item body' "chain" ;;
         longer <- py_gt length max_length ;;
         if longer then
           valid <- valid_chain chain ;;
           if valid then
             match as_number length with
             | Some n => Returns (chain, n)
             | None => Raises TypeError
             end
           else Returns (new_chain, max_length)
         else Returns (new_chain, max_length))%outcome
      else Returns (new_chain, max_length)
  end.

Fixpoint resolve_loop (get : string -> reply) (neighbors : list string)
         (acc : value * number) : outcome (value * number) :=
  match neighbors with
  | [] => Returns acc
  | node :: rest =>
      (acc' <- resolve_step get node acc ;;
       resolve_loop get rest acc')%outcome
  end.

(** [Blockchain.resolve_conflicts]; the nodes are visited in the order
    [neighbors], an enumeration of the set [nodes]. *)
Definition resolve_conflicts_in (get : string -> reply)
           (neighbors : list string) : M bool :=
  (c <- attr chain ;;
   max_length <- lift (py_len c) ;;
   acc <- lift (resolve_loop get neighbors (VNone, NInt max_length)) ;;
   let new_chain := fst acc in
   if py_truth new_chain then
     _ <- set_chain new_chain ;; ret true
   else ret false)%method.

Definition resolve_conflicts (get : string -> reply) : M bool :=
  fun self => resolve_conflicts_in get (elements (nodes self)) self.

(** [list.append] on the attribute [chain] *)
Definition chain_append (block : value) : M unit :=
  (c <- attr chain ;;
   match c with
   | VList l => set_chain (VList (l ++ [block]))
   | _ => raise AttributeError
   end)%method.

(** [Blockchain.new_block]; [now] is what [time()] returns.  The block
    takes the list that the pool is, and the attribute is then bound to
    a new empty list: no later [append] to the pool reaches a block. *)
Definition new_block (now : spec_float) (proof previous_hash : value)
  : M value :=
  (c <- attr chain ;;
   len <- lift (py_len c) ;;
   transactions <- attr currentTransactions ;;
   previous_hash' <-
     (if py_truth previous_hash then ret previous_hash
      else last <- lift (py_index c (-1)) ;; ret (VStr (hash last))) ;;
   let block := VDict [ ("index", VInt (len + 1));
                        ("timestamp", VFloat now);
                        ("transactions", VList transactions);
                        ("proof", proof);
                        ("previous_hash", previous_hash') ] in
   _ <- set_currentTransactions [] ;;
   _ <- chain_append block ;;
   ret block)%method.

(** [Blockchain.last_block] (property) *)
Definition last_block : M value :=
  (c <- attr chain ;; lift (py_index c (-1)))%method.

(** [Blockchain.new_transaction] *)
Definition new_transaction (sender recipient amount : value) : M value :=
  (transactions <- attr currentTransactions ;;
   _ <- set_currentTransactions
          (transactions ++ [ VDict [ ("sender", sender);
                                     ("recipient", recipient);
                                     ("amount", amount) ] ]) ;;
   last <- last_block ;;
   index <- lift (py_item last "index") ;;
   lift (py_add_one index))%method.

(** The [while] loop of [proof_of_work]: [fuel] bounds the number of
    times the test is evaluated. *)
Fixpoint proof_of_work_loop (fuel : nat) (last_proof : value)
         (last_hash : string) (proof : Z) : outcome Z :=
  match fuel with
  | O => OutOfFuel
  | S fuel' =>
      if valid_proof last_proof (VInt proof) last_hash then Returns proof
      else proof_of_work_loop fuel' last_proof last_hash (proof + 1)
  end.

(** [Blockchain.proof_of_work].  [hash] and [valid_proof] are total
    here.  In Python the text of an int of more than 4300 digits is
    refused (ValueError) and a str with a lone surrogate cannot be
    encoded (UnicodeEncodeError); such values are outside the model,
    and nothing is stated of the exceptions they cause. *)
Definition proof_of_work (fuel : nat) (last_block : value) : outcome Z :=
  (last_proof <- py_item last_block "proof" ;;
   let last_hash := hash last_block in
   proof_of_work_loop fuel last_proof last_hash 0)%outcome.

(** [Blockchain.__init__]; [now] is the time at which the object is
    made. *)
Definition __init__ (now : spec_float) : outcome value * Blockchain :=
  new_block now (VInt 100) (VInt 1)
            {| chain := VList []; currentTransactions := []; nodes := ∅ |}.

(** *** The route /mine

    [node_identifier] is the module-level identity of the node; the
    result is the response dict and the status code. *)
Definition mine (fuel : nat) (node_identifier : string) (now : spec_float)
  : M (value * Z) :=
  (last_block <- last_block ;;
   proof <- lift (proof_of_work fuel last_block) ;;
   _ <- new_transaction (VStr "0") (VStr node_identifier) (VInt 1) ;;
   let previous_hash := hash last_block in
   block <- new_block now (VInt proof) (VStr previous_hash) ;;
   index <- lift (py_item block "index") ;;
   transactions <- lift (py_item block "transactions") ;;
   proof' <- lift (py_item block "proof") ;;
   previous_hash' <- lift (py_item block "previous_hash") ;;
   let response := VDict [ ("message", VStr "New block forged");
                           ("index", index);
                           ("transactions", transactions);
                           ("proof", proof');
                           ("previous_hash", previous_hash') ] in
   ret (response, 200))%method.

(** *** The other routes

    [values] is what [request.get_json()] returns.  A route gives the
    body of its response, the text or the value passed to [jsonify],
    and the status code. *)

(** The route /transactions/new *)
Definition new_transactions (values : value) : M (value * Z) :=
  (present <- lift (all_in ["sender"; "recipient"; "amount"] values) ;;
   if negb present then ret (VStr "Missing values: {k}", 400)
   else
     sender <- lift (py_item values "sender") ;;
     recipient <- lift (py_item values "recipient") ;;
     amount <- lift (py_item values "amount") ;;
     index <- new_transaction sender recipient amount ;;
     let response :=
       VDict [ ("message",
                VStr ("Transaction will be added to Block "
                      +:+ py_str index)) ] in
     ret (response, 200))%method.

(** The route /chain *)
Definition full_chain : M (value * Z) :=
  (c <- attr chain ;;
   len <- lift (py_len c) ;;
   let response := VDict [ ("chain", c); ("length", VInt len) ] in
   ret (response, 200))%method.

(** [list(blockchain.nodes)].  Python fixes no order for a set (it
    changes with the hash seed from one run to the next); [elements]
    is one enumeration of it, and what is stated of a listing with
    more than one entry is stated up to its order. *)
Definition node_list (ns : gset string) : value :=
  VList (List.map VStr (elements ns)).

(** The route /nodes *)
Definition all_nodes : M (value * Z) :=
  (ns <- attr nodes ;;
   let response := VDict [ ("message", VStr "All registered nodes");
                           ("total_nodes", node_list ns) ] in
   ret (response, 201))%method.

(** [register_node] and [deregister_node] on any value, as a JSON body
    can hold: on a str they are the methods above; [urlparse_other] is
    [urlparse] on an address that is not a str. *)
Definition register_node_value
           (urlparse_other : value -> outcome ParseResult) (address : value)
  : M unit :=
  match address with
  | VStr s => register_node s
  | _ =>
      (parsed_url <- lift (urlparse_other address) ;;
       if nonempty (netloc parsed_url) then
         ns <- attr nodes ;; set_nodes (ns ∪ {[ netloc parsed_url ]})
       else if nonempty (path parsed_url) then
         ns <- attr nodes ;; set_nodes (ns ∪ {[ path parsed_url ]})
       else raise (ValueError "Invalid URL"))%method
  end.

Definition deregister_node_value
           (urlparse_other : value -> outcome ParseResult) (address : value)
  : M unit :=
  match address with
  | VStr s => deregister_node s
  | _ =>
      (ns <- attr nodes ;;
       if bool_decide (size ns = 0%nat) then ret tt
       else
         parsed_url <- lift (urlparse_other address) ;;
         if nonempty (netloc parsed_url) then set_remove (netloc parsed_url)
         else if nonempty (path parsed_url)
              then set_remove (path parsed_url)
              else raise (ValueError "Invalid URL"))%method
  end.

(** The route /nodes/register *)
Definition register_nodes
           (urlparse_other : value -> outcome ParseResult) (values : value)
  : M (value * Z) :=
  (given <- lift (py_get values "nodes") ;;
   match given with
   | VNone => ret (VStr "Error, please supply a valid list of nodes", 400)
   | _ =>
       addresses <- lift (py_iter given) ;;
       _ <- for_each (register_node_value urlparse_other) addresses ;;
       ns <- attr nodes ;;
       let response := VDict [ ("message", VStr "New nodes have been added");
                               ("total_nodes", node_list ns) ] in
       ret (response, 201)
   end)%method.

(** The route /nodes/deRegister *)
Definition deregister_nodes
           (urlparse_other : value -> outcome ParseResult) (values : value)
  : M (value * Z) :=
  (given <- lift (py_get values "nodes") ;;
   match given with
   | VNone => ret (VStr "Error, please supply a valid list of nodes", 400)
   | _ =>
       addresses <- lift (py_iter given) ;;
       _ <- for_each (deregister_node_value urlparse_other) addresses ;;
       ns <- attr nodes ;;
       let response := VDict [ ("message", VStr "Nodes de-registered");
                               ("total_nodes", node_list ns) ] in
       ret (response, 201)
   end)%method.

(** The route /nodes/resolve *)
Definition consensus (get : string -> reply) : M (value * Z) :=
  (replaced <- resolve_conflicts get ;;
   c <- attr chain ;;
   let response :=
     if replaced
     then VDict [ ("message", VStr "Our chain got replaced");
                  ("new_chain", c) ]
     else VDict [ ("message", VStr "Our chain is authoritative");
                  ("chain", c) ] in
   ret (response, 200))%method.

(** *** Notions used in the statements *)

(** The block that [mine] builds on the chain [l], whose last block is
    [last], from the pool [pool] and the proof [p]. *)
Definition forged (l : list value) (last : value) (now : spec_float)
           (pool : list value) (p : Z) : value :=
  VDict [ ("index", VInt (Z.of_nat (List.length l) + 1));
          ("timestamp", VFloat now);
          ("transactions", VList pool);
          ("proof", VInt p);
          ("previous_hash", VStr (hash last)) ].

Definition forged_response (block : value) : value :=
  match block with
  | VDict [ (_, index); _; (_, transactions); (_, proof);
            (_, previous_hash) ] =>
      VDict [ ("message", VStr "New block forged");
              ("index", index);
              ("transactions", transactions);
              ("proof", proof);
              ("previous_hash", previous_hash) ]
  | _ => VNone
  end.

(** The objects that exist after [__init__] and any number of calls
    of [mine], however each call ended. *)
Inductive mined : Blockchain -> Prop :=
| mined_fresh (now : spec_float) : mined (snd (__init__ now))
| mined_mine (self : Blockchain) (fuel : nat) (id : string)
             (now : spec_float) (o : outcome (value * Z))
             (self' : Blockchain) :
    mined self -> mine fuel id now self = (o, self') -> mined self'.

(** Each block but the first carries the hash of the block before. *)
Definition linked (l : list value) : Prop :=
  forall (n : nat) (prev cur : value),
    List.nth_error l n = Some prev ->
    List.nth_error l (S n) = Some cur ->
    py_item cur "previous_hash" = Returns (VStr (hash prev)).

(** The validator as it is specified: the check of one adjacent pair,
    and the walk over the pairs in order, stopping at the first that
    fails. *)
Definition pair_ok (previous current : value) : outcome bool :=
  (previous_hash <- py_item current "previous_hash" ;;
   if py_ne_str previous_hash (hash previous) then Returns false
   else
     a <- py_item previous "proof" ;;
     b <- py_item current "proof" ;;
     Returns (valid_proof a b (hash previous)))%outcome.

Fixpoint pairs_valid (previous : value) (rest : list value)
  : outcome bool :=
  match rest with
  | [] => Returns true
  | current :: rest' =>
      (ok <- pair_ok previous current ;;
       if ok then pairs_valid current rest' else Returns false)%outcome
  end.

(** Every adjacent pair of [l] before position [k] passes. *)
Definition pairs_pass_before (l : list value) (k : nat) : Prop :=
  forall (n : nat) (prev cur : value),
    (n < k)%nat ->
    List.nth_error l n = Some prev ->
    List.nth_error l (S n) = Some cur ->
    pair_ok prev cur = Returns true.

(** The peer [node] answers with status 200 and a body that has the
    fields length and chain. *)
Definition answers (get : string -> reply) (node : string)
           (length chain : value) : Prop :=
  exists body : value,
    get (chain_url node) = Response 200 (Returns body)
    /\ py_item body "length" = Returns length
    /\ py_item body "chain" = Returns chain.

(** The peer [node] reports a length above [len0] together with a
    chain that the validator accepts. *)
Definition qualifies (get : string -> reply) (len0 : Z) (node : string)
           (chain : value) : Prop :=
  exists (length : value) (n : number),
    answers get node length chain
    /\ as_number length = Some n
    /\ num_gt n (NInt len0) = true
    /\ valid_chain chain = Returns true.

(** The state of the loop after the nodes [visited]: either nothing
    was taken yet and no visited node qualifies, or a truthy chain was
    taken from a visited node and some visited node qualifies. *)
Definition resolve_inv (get : string -> reply) (len0 : Z)
           (visited : list string) (acc : value * number) : Prop :=
  (fst acc = VNone /\ snd acc = NInt len0
   /\ forall node chain, In node visited ->
                         ~ qualifies get len0 node chain)
  \/ (py_truth (fst acc) = true
      /\ (exists node chain, In node visited
                             /\ qualifies get len0 node chain)
      /\ exists node length, In node visited
                             /\ answers get node length (fst acc)
                             /\ valid_chain (fst acc) = Returns true).

(** Every peer of [neighbors] that answers reports an int for a
    length. *)
Definition int_lengths (get : string -> reply) (neighbors : list string)
  : Prop :=
  forall (node : string) (length chain : value),
    In node neighbors -> answers get node length chain ->
    exists z : Z, length = VInt z.

(** The state of the loop after the nodes [visited], when the lengths
    are ints: the greatest length seen is an int [m], no visited peer
    with a chain that the validator accepts reports more, and the chain
    taken, if any, was reported with [m]. *)
Definition greatest_inv (get : string -> reply) (len0 : Z)
           (visited : list string) (acc : value * number) : Prop :=
  exists m : Z,
    snd acc = NInt m
    /\ len0 <= m
    /\ (forall node z chain,
           In node visited -> answers get node (VInt z) chain ->
           valid_chain chain = Returns true -> z <= m)
    /\ ((fst acc = VNone /\ m = len0)
        \/ (exists node,
               In node visited
               /\ answers get node (VInt m) (fst acc)
               /\ valid_chain (fst acc) = Returns true
               /\ len0 < m)).

(** The entry under which [register_node] stores an address, if it
    stores it. *)
Definition normal_form (address : string) : option string :=
  match urlparse address with
  | Returns p => normalized p
  | _ => None
  end.

(** The normal forms of a list of addresses. *)
Fixpoint normal_forms (addresses : list string) : gset string :=
  match addresses with
  | [] => ∅
  | a :: rest =>
      match normal_form a with
      | Some n => {[ n ]} ∪ normal_forms rest
      | None => normal_forms rest
      end
  end.

(** The proof of [cur] is the least non-negative integer that
    satisfies the predicate after [prev]. *)
Definition least_proof_after (prev cur : value) : Prop :=
  exists a b : Z,
    py_item prev "proof" = Returns (VInt a)
    /\ py_item cur "proof" = Returns (VInt b)
    /\ 0 <= b
    /\ valid_proof (VInt a) (VInt b) (hash prev) = true
    /\ forall q, 0 <= q < b ->
                 valid_proof (VInt a) (VInt q) (hash prev) = false.

(** The objects whose blocks were all made by [mine]: what exists after
    [__init__] and any number of calls, in any order and however each
    call ended, of [new_transaction], [mine], [register_node] and
    [deregister_node] (on any value, as the routes pass it on).  Only
    [resolve_conflicts], which takes a chain from a peer, is left
    out. *)
Inductive operated : Blockchain -> Prop :=
| operated_fresh (now : spec_float) : operated (snd (__init__ now))
| operated_new_transaction
    (self : Blockchain) (sender recipient amount : value)
    (o : outcome value) (self' : Blockchain) :
    operated self ->
    new_transaction sender recipient amount self = (o, self') ->
    operated self'
| operated_mine
    (self : Blockchain) (fuel : nat) (id : string) (now : spec_float)
    (o : outcome (value * Z)) (self' : Blockchain) :
    operated self -> mine fuel id now self = (o, self') -> operated self'
| operated_register_node
    (self : Blockchain) (urlparse_other : value -> outcome ParseResult)
    (address : value) (o : outcome unit) (self' : Blockchain) :
    operated self ->
    register_node_value urlparse_other address self = (o, self') ->
    operated self'
| operated_deregister_node
    (self : Blockchain) (urlparse_other : value -> outcome ParseResult)
    (address : value) (o : outcome unit) (self' : Blockchain) :
    operated self ->
    deregister_node_value urlparse_other address self = (o, self') ->
    operated self'.

(** A Python float is a binary64 number; the type [spec_float] has
    other triples of sign, mantissa and exponent too. *)
Definition binary64_number (n : number) : Prop :=
  match n with
  | NInt _ => True
  | NFloat f => valid_binary 53 1024 f = true
  end.

Definition binary64 (v : value) : Prop :=
  match v with
  | VFloat f => valid_binary 53 1024 f = true
  | _ => True
  end.

(** The lengths that the peers of [neighbors] report are Python
    values: where one is a float, it is a binary64 number. *)
Definition binary64_lengths (get : string -> reply)
           (neighbors : list string) : Prop :=
  forall (node : string) (length chain : value),
    In node neighbors -> answers get node length chain -> binary64 length.

(** The state of the loop over peers of [all]: either nothing was
    taken yet, or the chain taken is the one of a peer of [all] that
    reported for it the length now held, which is above [len0], and
    the validator accepts it. *)
Definition adopted_inv (get : string -> reply) (len0 : Z)
           (all : list string) (acc : value * number) : Prop :=
  (fst acc = VNone /\ snd acc = NInt len0)
  \/ exists (node : string) (length : value),
      In node all
      /\ answers get node length (fst acc)
      /\ as_number length = Some (snd acc)
      /\ num_gt (snd acc) (NInt len0) = true
      /\ valid_chain (fst acc) = Returns true.

(** ** Properties *)

Arguments hash : simpl never.
Arguments valid_proof : simpl never.
Arguments Sha256.hexdigest : simpl never.

(** *** Proof of work *)

(** The first four characters of [s] are "0000" exactly when each of
    them is the character 0. *)
Lemma prefix4_zero (s : string) :
  String.eqb (substring 0 4 s) "0000" = true
  <-> forall i : nat, (i < 4)%nat -> String.get i s = Some "0"%char.
Proof.
  rewrite String.eqb_eq. split.
  - intros E i Hi.
    destruct s as [|c0 [|c1 [|c2 [|c3 s']]]]; simpl in E; try discriminate.
    injection E as -> -> -> ->.
    destruct i as [|[|[|[|i]]]]; simpl; try reflexivity; lia.
  - intros G.
    pose proof (G 0%nat ltac:(lia)) as G0.
    pose proof (G 1%nat ltac:(lia)) as G1.
    pose proof (G 2%nat ltac:(lia)) as G2.
    pose proof (G 3%nat ltac:(lia)) as G3.
    destruct s as [|c0 [|c1 [|c2 [|c3 s']]]]; simpl in *; try discriminate.
    injection G0 as ->. injection G1 as ->.
    injection G2 as ->. injection G3 as ->.
    destruct s'; reflexivity.
Qed.

(** With [n] tests left after the first, the loop started at [start]
    finds the least valid proof not below [start], provided one
    exists no further than [start + n]. *)
Lemma proof_of_work_loop_finds (a : value) (h : string) :
  forall (n : nat) (start : Z),
    valid_proof a (VInt (start + Z.of_nat n)) h = true ->
    exists p0 : Z,
      proof_of_work_loop (S n) a h start = Returns p0
      /\ start <= p0 <= start + Z.of_nat n
      /\ valid_proof a (VInt p0) h = true
      /\ (forall q, start <= q < p0 -> valid_proof a (VInt q) h = false).
Proof.
  induction n as [|n IH]; intros start Hv.
  - replace (start + Z.of_nat 0) with start in Hv by lia.
    exists start. cbn. rewrite Hv.
    repeat split; lia.
  - destruct (valid_proof a (VInt start) h) eqn:E.
    + exists start. cbn. rewrite E.
      repeat split; lia.
    + replace (start + Z.of_nat (S n)) with (start + 1 + Z.of_nat n)
        in Hv by lia.
      destruct (IH (start + 1) Hv) as (p0 & Hrun & Hrange & Hp0 & Hleast).
      exists p0.
      change (proof_of_work_loop (S (S n)) a h start)
        with (if valid_proof a (VInt start) h then Returns start
              else proof_of_work_loop (S n) a h (start + 1)).
      rewrite E. repeat split; try lia; try assumption.
      intros q Hq. destruct (Z.eq_dec q start) as [->|Hne].
      * exact E.
      * apply Hleast. lia.
Qed.

(** More fuel does not change what the loop returns. *)
Lemma proof_of_work_loop_mono (a : value) (h : string) :
  forall (fuel fuel' : nat) (start p : Z),
    (fuel <= fuel')%nat ->
    proof_of_work_loop fuel a h start = Returns p ->
    proof_of_work_loop fuel' a h start = Returns p.
Proof.
  induction fuel as [|fuel IH]; intros fuel' start p Hle Hrun.
  - discriminate.
  - destruct fuel' as [|fuel']; [lia|].
    cbn in *. destruct (valid_proof a (VInt start) h).
    + exact Hrun.
    + apply IH; [lia | exact Hrun].
Qed.

(** The search on [last_block] returns as soon as some non-negative
    proof satisfies the predicate. *)
Lemma proof_of_work_returns (last_block a : value) (p : Z) :
  py_item last_block "proof" = Returns a ->
  0 <= p ->
  valid_proof a (VInt p) (hash last_block) = true ->
  exists (p0 : Z) (fuel : nat), proof_of_work fuel last_block = Returns p0.
Proof.
  intros Ha Hp Hv.
  assert (Hv' : valid_proof a (VInt (0 + Z.of_nat (Z.to_nat p)))
                            (hash last_block) = true).
  { replace (0 + Z.of_nat (Z.to_nat p)) with p by lia. exact Hv. }
  destruct (proof_of_work_loop_finds a (hash last_block) (Z.to_nat p) 0 Hv')
    as (p0 & Hrun & _).
  exists p0, (S (Z.to_nat p)).
  unfold proof_of_work. rewrite Ha. exact Hrun.
Qed.

(** The hash of a block is never the empty str. *)
Lemma hash_truthy (block : value) : py_truth (VStr (hash block)) = true.
Proof. reflexivity. Qed.

(** C5.  When some non-negative proof [p] satisfies the predicate for
    the previous proof [a] and the previous hash [h], the search
    returns (with enough fuel, and then with any larger fuel) the
    smallest non-negative integer that satisfies it; the predicate
    on integers holds exactly when the first four hexadecimal
    characters of the SHA-256 digest of the decimal renderings of the
    two proofs followed by [h] are all the character 0. *)
Theorem proof_of_work_minimal (a : value) (h : string) (p : Z) :
  0 <= p ->
  valid_proof a (VInt p) h = true ->
  exists (p0 : Z) (fuel : nat),
    (forall fuel', (fuel <= fuel')%nat ->
                   proof_of_work_loop fuel' a h 0 = Returns p0)
    /\ (forall last_block fuel',
           (fuel <= fuel')%nat ->
           py_item last_block "proof" = Returns a ->
           hash last_block = h ->
           proof_of_work fuel' last_block = Returns p0)
    /\ 0 <= p0 <= p
    /\ valid_proof a (VInt p0) h = true
    /\ (forall q, 0 <= q < p0 -> valid_proof a (VInt q) h = false)
    /\ (forall x y : Z,
           valid_proof (VInt x) (VInt y) h = true
           <-> forall i : nat,
               (i < 4)%nat ->
               String.get i (Sha256.hexdigest
                               (encode (decimal x +:+ decimal y +:+ h)))
               = Some "0"%char).
Proof.
  intros Hp Hv.
  assert (Hv' : valid_proof a (VInt (0 + Z.of_nat (Z.to_nat p))) h = true).
  { replace (0 + Z.of_nat (Z.to_nat p)) with p by lia. exact Hv. }
  destruct (proof_of_work_loop_finds a h (Z.to_nat p) 0 Hv')
    as (p0 & Hrun & Hrange & Hp0 & Hleast).
  exists p0, (S (Z.to_nat p)).
  split; [|split; [|split; [|split; [|split]]]].
  - intros fuel' Hle.
    eapply proof_of_work_loop_mono; [exact Hle | exact Hrun].
  - intros last_block fuel' Hle Ha Hh.
    unfold proof_of_work. rewrite Ha. cbn. rewrite Hh.
    eapply proof_of_work_loop_mono; [exact Hle | exact Hrun].
  - lia.
  - exact Hp0.
  - exact Hleast.
  - intros x y. unfold valid_proof. cbn [py_str py_repr]. apply prefix4_zero.
Qed.

(** *** Mining *)

Lemma seq_index_nil {A : Type} (i : Z) : seq_index (@nil A) i = None.
Proof.
  unfold seq_index. destruct (_ && _); [|reflexivity].
  destruct (Z.to_nat _); reflexivity.
Qed.

Lemma seq_index_last {A : Type} (l : list A) (x : A) :
  seq_index (l ++ [x]) (-1) = Some x.
Proof.
  unfold seq_index. rewrite List.length_app. cbn [List.length].
  change (-1 <? 0) with true. cbv iota.
  replace (-1 + Z.of_nat (List.length l + 1))
    with (Z.of_nat (List.length l)) by lia.
  destruct (Z.leb_spec 0 (Z.of_nat (List.length l))); [|lia].
  destruct (Z.ltb_spec (Z.of_nat (List.length l))
                       (Z.of_nat (List.length l + 1))); [|lia].
  cbn [andb]. rewrite Nat2Z.id.
  rewrite List.nth_error_app2 by lia.
  replace (List.length l - List.length l)%nat with 0%nat by lia.
  reflexivity.
Qed.

Lemma py_index_last (l : list value) (x : value) :
  py_index (VList (l ++ [x])) (-1) = Returns x.
Proof. unfold py_index. rewrite seq_index_last. reflexivity. Qed.

(** What [mine] does on an object whose chain is a list ending in
    [last]: every way it can end. *)
Lemma mine_run (fuel : nat) (id : string) (now : spec_float)
      (l0 : list value) (last : value) (pool : list value)
      (ns : gset string) :
  let l := l0 ++ [last] in
  let self := {| chain := VList l; currentTransactions := pool;
                 nodes := ns |} in
  let self1 := {| chain := VList l;
                  currentTransactions := pool ++ [reward id];
                  nodes := ns |} in
  mine fuel id now self
  = match proof_of_work fuel last with
    | Returns p =>
        match (index <- py_item last "index" ;; py_add_one index)%outcome
        with
        | Returns _ =>
            let block := forged l last now (pool ++ [reward id]) p in
            (Returns (forged_response block, 200),
             {| chain := VList (l ++ [block]);
                currentTransactions := [];
                nodes := ns |})
        | Raises e => (Raises e, self1)
        | OutOfFuel => (OutOfFuel, self1)
        end
    | Raises e => (Raises e, self)
    | OutOfFuel => (OutOfFuel, self)
    end.
Proof.
  intros l self self1. subst l self self1.
  unfold mine, last_block, new_transaction, new_block, chain_append,
    last_block, bind, attr, lift, ret, set_currentTransactions, set_chain.
  cbn -[hash proof_of_work py_item py_add_one py_index].
  rewrite (py_index_last l0 last).
  destruct (proof_of_work fuel last) as [p|e|]; [|reflexivity..].
  destruct (py_item last "index") as [index|e|]; [|reflexivity..].
  cbn -[hash py_add_one].
  destruct (py_add_one index) as [v|e|]; reflexivity.
Qed.

Lemma init_run (now : spec_float) :
  __init__ now
  = (Returns (genesis now),
     {| chain := VList [genesis now]; currentTransactions := [];
        nodes := ∅ |}).
Proof. reflexivity. Qed.

(** C8.  A freshly initialised ledger has a chain of exactly one
    block, the genesis block, whose index is 1, whose proof is 100 and
    whose previous_hash is the sentinel, the integer 1. *)
Theorem genesis_block (now : spec_float) :
  exists (g : value) (self : Blockchain),
    __init__ now = (Returns g, self)
    /\ chain self = VList [g]
    /\ py_len (chain self) = Returns 1
    /\ py_item g "index" = Returns (VInt 1)
    /\ py_item g "proof" = Returns (VInt 100)
    /\ py_item g "previous_hash" = Returns (VInt 1).
Proof.
  exists (genesis now).
  exists {| chain := VList [genesis now]; currentTransactions := [];
            nodes := ∅ |}.
  rewrite init_run. repeat split.
Qed.

Lemma linked_snoc (l0 : list value) (last b : value) :
  linked (l0 ++ [last]) ->
  py_item b "previous_hash" = Returns (VStr (hash last)) ->
  linked ((l0 ++ [last]) ++ [b]).
Proof.
  intros Hl Hb n prev cur Hprev Hcur.
  assert (Hlen : List.length (l0 ++ [last]) = S (List.length l0)).
  { rewrite List.length_app. cbn. lia. }
  destruct (Nat.lt_ge_cases (S n) (List.length (l0 ++ [last])))
    as [Hlt|Hge].
  - rewrite List.nth_error_app1 in Hprev by lia.
    rewrite List.nth_error_app1 in Hcur by lia.
    exact (Hl n prev cur Hprev Hcur).
  - destruct (Nat.eq_dec (S n) (List.length (l0 ++ [last]))) as [He|Hne].
    + rewrite List.nth_error_app2 in Hcur by lia.
      rewrite He, Nat.sub_diag in Hcur. injection Hcur as <-.
      rewrite List.nth_error_app1 in Hprev by lia.
      assert (n = List.length l0) as -> by lia.
      rewrite List.nth_error_app2 in Hprev by lia.
      rewrite Nat.sub_diag in Hprev. injection Hprev as <-.
      exact Hb.
    + assert (Hnone : List.nth_error ((l0 ++ [last]) ++ [b]) (S n) = None).
      { apply List.nth_error_None. rewrite List.length_app. cbn. lia. }
      congruence.
Qed.

Lemma seq_index_nonneg {A : Type} (l : list A) (i : Z) (x : A) :
  0 <= i -> seq_index l i = Some x ->
  List.nth_error l (Z.to_nat i) = Some x.
Proof.
  intros Hi. unfold seq_index.
  destruct (Z.ltb_spec i 0); [lia|].
  destruct (_ && _); [tauto | discriminate].
Qed.

Lemma py_index_list (l : list value) (i : Z) (x : value) :
  0 <= i -> py_index (VList l) i = Returns x ->
  List.nth_error l (Z.to_nat i) = Some x.
Proof.
  intros Hi. unfold py_index.
  destruct (seq_index l i) as [y|] eqn:E; [|discriminate].
  intros [= ->]. exact (seq_index_nonneg l i x Hi E).
Qed.

(** [new_transaction], [register_node] and [deregister_node] never
    touch the chain, however they end. *)
Lemma new_transaction_keeps_chain (sender recipient amount : value)
      (self : Blockchain) :
  chain (snd (new_transaction sender recipient amount self)) = chain self.
Proof.
  unfold new_transaction, last_block, bind, attr, lift,
    set_currentTransactions.
  cbn -[py_index py_item py_add_one].
  destruct (py_index (chain self) (-1)) as [last|e|]; [|reflexivity..].
  cbn -[py_item py_add_one].
  destruct (py_item last "index") as [index|e|]; [|reflexivity..].
  cbn -[py_add_one]. destruct (py_add_one index); reflexivity.
Qed.

Lemma set_remove_keeps_chain (x : string) (self : Blockchain) :
  chain (snd (set_remove x self)) = chain self.
Proof.
  unfold set_remove, bind, attr, set_nodes, raise, lift.
  destruct (bool_decide (x ∈ nodes self)); reflexivity.
Qed.

Lemma register_node_value_keeps_chain
      (urlparse_other : value -> outcome ParseResult) (address : value)
      (self : Blockchain) :
  chain (snd (register_node_value urlparse_other address self))
  = chain self.
Proof.
  assert (Hparsed : forall o : outcome ParseResult,
             chain (snd (bind (lift o)
                           (fun parsed_url =>
                              if nonempty (netloc parsed_url) then
                                bind (attr nodes)
                                  (fun ns =>
                                     set_nodes (ns ∪ {[ netloc parsed_url ]}))
                              else if nonempty (path parsed_url) then
                                bind (attr nodes)
                                  (fun ns =>
                                     set_nodes (ns ∪ {[ path parsed_url ]}))
                              else raise (ValueError "Invalid URL")) self))
             = chain self).
  { intros [p|e|]; unfold bind, lift, attr, set_nodes, raise;
      [|reflexivity..].
    destruct (nonempty (netloc p)); [reflexivity|].
    destruct (nonempty (path p)); reflexivity. }
  destruct address; apply Hparsed.
Qed.

Lemma deregister_node_value_keeps_chain
      (urlparse_other : value -> outcome ParseResult) (address : value)
      (self : Blockchain) :
  chain (snd (deregister_node_value urlparse_other address self))
  = chain self.
Proof.
  assert (Hparsed : forall o : outcome ParseResult,
             chain (snd (bind (attr nodes)
                           (fun ns =>
                              if bool_decide (size ns = 0%nat) then ret tt
                              else
                                bind (lift o)
                                  (fun parsed_url =>
                                     if nonempty (netloc parsed_url)
                                     then set_remove (netloc parsed_url)
                                     else if nonempty (path parsed_url)
                                          then set_remove (path parsed_url)
                                          else raise (ValueError
                                                        "Invalid URL")))
                           self))
             = chain self).
  { intros o. unfold bind at 1. unfold attr.
    destruct (bool_decide (size (nodes self) = 0%nat)); [reflexivity|].
    destruct o as [p|e|]; unfold bind, lift, raise; [|reflexivity..].
    destruct (nonempty (netloc p)); [apply set_remove_keeps_chain|].
    destruct (nonempty (path p));
      [apply set_remove_keeps_chain | reflexivity]. }
  destruct address; apply Hparsed.
Qed.

(** [mine] keeps a linked chain linked, however it ends. *)
Lemma mine_keeps_linked (fuel : nat) (id : string) (now : spec_float)
      (self self' : Blockchain) (o : outcome (value * Z))
      (l0 : list value) (last : value) :
  chain self = VList (l0 ++ [last]) ->
  linked (l0 ++ [last]) ->
  mine fuel id now self = (o, self') ->
  exists (l1 : list value) (last' : value),
    chain self' = VList (l1 ++ [last']) /\ linked (l1 ++ [last']).
Proof.
  intros Hc Hl Hrun.
  destruct self as [c pool ns]. cbn in Hc. subst c.
  rewrite mine_run in Hrun. cbv zeta in Hrun.
  destruct (proof_of_work fuel last) as [p|e|].
  2,3: injection Hrun as _ <-; exists l0, last; split;
       [reflexivity | exact Hl].
  destruct (index <- py_item last "index" ;; py_add_one index)%outcome
    as [v|e|].
  2,3: injection Hrun as _ <-; exists l0, last; split;
       [reflexivity | exact Hl].
  injection Hrun as _ <-.
  eexists (l0 ++ [last]), _. split; [reflexivity|].
  apply linked_snoc; [exact Hl | reflexivity].
Qed.

(** The chain of such an object is a non-empty list, and it is
    linked. *)
Lemma operated_linked (self : Blockchain) :
  operated self ->
  exists (l0 : list value) (last : value),
    chain self = VList (l0 ++ [last]) /\ linked (l0 ++ [last]).
Proof.
  induction 1 as [ now
                 | self sender recipient amount o self' _ IH Hrun
                 | self fuel id now o self' _ IH Hrun
                 | self urlparse_other address o self' _ IH Hrun
                 | self urlparse_other address o self' _ IH Hrun ].
  - rewrite init_run. exists [], (genesis now). split; [reflexivity|].
    intros [|n] prev cur Hprev Hcur; cbn in Hcur; [discriminate|].
    destruct n; discriminate.
  - destruct IH as (l0 & last & Hc & Hl). exists l0, last.
    split; [|exact Hl].
    rewrite <- Hc,
      <- (new_transaction_keeps_chain sender recipient amount self).
    rewrite Hrun. reflexivity.
  - destruct IH as (l0 & last & Hc & Hl).
    exact (mine_keeps_linked fuel id now self self' o l0 last Hc Hl Hrun).
  - destruct IH as (l0 & last & Hc & Hl). exists l0, last.
    split; [|exact Hl].
    rewrite <- Hc,
      <- (register_node_value_keeps_chain urlparse_other address self).
    rewrite Hrun. reflexivity.
  - destruct IH as (l0 & last & Hc & Hl). exists l0, last.
    split; [|exact Hl].
    rewrite <- Hc,
      <- (deregister_node_value_keeps_chain urlparse_other address self).
    rewrite Hrun. reflexivity.
Qed.

(** What [__init__] and calls of [mine] alone make is among these
    objects. *)
Lemma mined_operated (self : Blockchain) : mined self -> operated self.
Proof.
  induction 1 as [now | self fuel id now o self' _ IH Hrun].
  - apply operated_fresh.
  - exact (operated_mine self fuel id now o self' IH Hrun).
Qed.

(** C1.  Take any object whose blocks were all made by [mine]: made by
    [__init__] and then by calls of [mine], with calls of
    [new_transaction], [register_node] and [deregister_node] between
    them as one likes, each call ending as it may.  Its chain is a
    non-empty list, and for every index [i > 0] block [i] carries in
    its field previous_hash the hash of block [i - 1], which is the
    SHA-256 digest, in hexadecimal, of the encoded JSON text with
    sorted keys of that block. *)
Theorem mined_chain_hash_linked (self : Blockchain) :
  operated self ->
  (exists (l : list value), chain self = VList l /\ l <> [])
  /\ forall (i : Z) (prev cur : value),
      0 < i ->
      py_index (chain self) (i - 1) = Returns prev ->
      py_index (chain self) i = Returns cur ->
      py_item cur "previous_hash" = Returns (VStr (hash prev))
      /\ hash prev = Sha256.hexdigest (encode (json_dumps prev)).
Proof.
  intros Hm. destruct (operated_linked self Hm) as (l0 & last & Hc & Hl).
  split.
  - exists (l0 ++ [last]). split; [exact Hc|].
    destruct l0; discriminate.
  - intros i prev cur Hi Hprev Hcur. rewrite Hc in Hprev, Hcur.
    apply py_index_list in Hprev; [|lia].
    apply py_index_list in Hcur; [|lia].
    replace (Z.to_nat i) with (S (Z.to_nat (i - 1))) in Hcur by lia.
    split; [exact (Hl _ prev cur Hprev Hcur) | reflexivity].
Qed.

Lemma list_snoc_cases {A : Type} (l : list A) :
  l = [] \/ exists (l0 : list A) (x : A), l = l0 ++ [x].
Proof.
  induction l using List.rev_ind; [left; reflexivity | right; eauto].
Qed.

(** [mine] returns only on an object whose chain is a list ending in
    some block [last] for which the search ends; what it then leaves
    is the chain with one block more and an empty pool. *)
Lemma mine_returns_inv (fuel : nat) (id : string) (now : spec_float)
      (self self' : Blockchain) (r : value * Z) :
  mine fuel id now self = (Returns r, self') ->
  exists (l0 : list value) (last : value) (p : Z),
    let l := l0 ++ [last] in
    let block :=
      forged l last now (currentTransactions self ++ [reward id]) p in
    chain self = VList l
    /\ proof_of_work fuel last = Returns p
    /\ r = (forged_response block, 200)
    /\ self' = {| chain := VList (l ++ [block]);
                  currentTransactions := [];
                  nodes := nodes self |}.
Proof.
  destruct self as [c pool ns]. intros Hrun.
  assert (Hc : exists l0 last, c = VList (l0 ++ [last])).
  { destruct c as [ | b | z | f | s | l | d ];
      try (unfold mine, last_block, bind, attr, lift in Hrun;
           cbn in Hrun; discriminate).
    - unfold mine, last_block, bind, attr, lift in Hrun.
      cbn -[seq_index] in Hrun.
      destruct (seq_index (list_ascii_of_string s) (-1));
        cbn in Hrun; discriminate.
    - destruct (list_snoc_cases l) as [-> | (l0 & last & ->)].
      + unfold mine, last_block, bind, attr, lift in Hrun.
        cbn in Hrun. discriminate.
      + exists l0, last. reflexivity. }
  destruct Hc as (l0 & last & ->).
  rewrite mine_run in Hrun. cbv zeta in Hrun.
  destruct (proof_of_work fuel last) as [p|e|] eqn:Hp; try discriminate.
  destruct (index <- py_item last "index" ;; py_add_one index)%outcome
    as [v|e|]; try discriminate.
  injection Hrun as <- <-.
  exists l0, last, p. cbn.
  split; [reflexivity|]. split; [exact Hp|]. split; reflexivity.
Qed.

(** C7.  Whenever [mine] returns, the reward was appended to the pool,
    the block was then made from the object [self1] so obtained, the
    new block is the last of the chain and its transactions are
    exactly the pool of [self1], in order, and the pool is empty
    afterwards.  On a fresh ledger, submitting alice -> bob : 5
    returns the index 2, and a following [mine] (which returns as soon
    as some proof exists for the genesis block) appends block 2, whose
    transactions are alice's followed by the reward. *)
Theorem mine_drains_pool :
  (forall (fuel : nat) (id : string) (now : spec_float)
          (self self' : Blockchain) (r : value * Z),
      mine fuel id now self = (Returns r, self') ->
      exists (self1 : Blockchain) (i block proof previous_hash : value)
             (l : list value),
        new_transaction (VStr "0") (VStr id) (VInt 1) self
        = (Returns i, self1)
        /\ currentTransactions self1
           = currentTransactions self ++ [reward id]
        /\ new_block now proof previous_hash self1 = (Returns block, self')
        /\ py_item block "transactions"
           = Returns (VList (currentTransactions self1))
        /\ currentTransactions self' = []
        /\ chain self = VList l
        /\ chain self' = VList (l ++ [block]))
  /\ (forall (now0 now : spec_float) (id : string) (p : Z),
         0 <= p ->
         valid_proof (VInt 100) (VInt p) (hash (genesis now0)) = true ->
         exists self1 : Blockchain,
           new_transaction (VStr "alice") (VStr "bob") (VInt 5)
                           (snd (__init__ now0))
           = (Returns (VInt 2), self1)
           /\ exists (fuel : nat) (block : value) (r : value * Z)
                     (self2 : Blockchain),
               mine fuel id now self1 = (Returns r, self2)
               /\ chain self2 = VList [genesis now0; block]
               /\ py_item block "index" = Returns (VInt 2)
               /\ py_item block "transactions"
                  = Returns
                      (VList [ transaction (VStr "alice") (VStr "bob")
                                           (VInt 5);
                               reward id ])
               /\ currentTransactions self2 = []).
Proof.
  split.
  - intros fuel id now self self' r Hrun.
    destruct (mine_returns_inv _ _ _ _ _ _ Hrun)
      as (l0 & last & p & Hc & Hp & -> & ->).
    destruct self as [c pool ns]. cbn in Hc. subst c.
    rewrite mine_run in Hrun. cbv zeta in Hrun. rewrite Hp in Hrun.
    destruct (index <- py_item last "index" ;; py_add_one index)%outcome
      as [v|e|] eqn:Hi; try discriminate.
    exists {| chain := VList (l0 ++ [last]);
              currentTransactions := pool ++ [reward id];
              nodes := ns |}.
    exists v.
    exists (forged (l0 ++ [last]) last now (pool ++ [reward id]) p).
    exists (VInt p), (VStr (hash last)), (l0 ++ [last]).
    split.
    { unfold new_transaction, last_block, bind, attr, lift,
        set_currentTransactions.
      cbn -[py_index py_item py_add_one].
      rewrite (py_index_last l0 last).
      unfold obind in Hi.
      destruct (py_item last "index") as [index|e|]; try discriminate.
      rewrite Hi. reflexivity. }
    repeat split.
  - intros now0 now id p Hp Hv. rewrite init_run. cbn [snd].
    eexists. split; [reflexivity|].
    destruct (proof_of_work_returns (genesis now0) (VInt 100) p
                                    eq_refl Hp Hv)
      as (p0 & fuel & Hpow).
    pose proof (mine_run fuel id now [] (genesis now0)
                  [transaction (VStr "alice") (VStr "bob") (VInt 5)] ∅)
      as Hrun.
    cbv zeta in Hrun. rewrite Hpow in Hrun.
    exists fuel. eexists. eexists. eexists.
    split; [exact Hrun|]. repeat split.
Qed.

(** *** The chain validator *)

Lemma seq_index_middle {A : Type} (pre : list A) (x : A) (post : list A) :
  seq_index (pre ++ x :: post) (Z.of_nat (List.length pre)) = Some x.
Proof.
  unfold seq_index. rewrite List.length_app. cbn [List.length].
  destruct (Z.ltb_spec (Z.of_nat (List.length pre)) 0); [lia|].
  destruct (Z.leb_spec 0 (Z.of_nat (List.length pre))); [|lia].
  destruct (Z.ltb_spec (Z.of_nat (List.length pre))
              (Z.of_nat (List.length pre + S (List.length post))));
    [|lia].
  cbn [andb]. rewrite Nat2Z.id.
  rewrite List.nth_error_app2 by lia.
  rewrite Nat.sub_diag. reflexivity.
Qed.

(** The loop from position [|pre| + 1], with [last] the block before,
    is the walk over the remaining pairs. *)
Lemma valid_chain_loop_pairs :
  forall (rest pre : list value) (last : value) (n : nat),
    (List.length rest <= n)%nat ->
    valid_chain_loop n (VList (pre ++ last :: rest)) last
                     (Z.of_nat (List.length pre) + 1)
    = pairs_valid last rest.
Proof.
  induction rest as [|cur rest IH]; intros pre last n Hn.
  - destruct n; cbn -[Z.ltb Z.add Z.of_nat];
      rewrite List.length_app; cbn [List.length];
      destruct (Z.ltb_spec (Z.of_nat (List.length pre) + 1)
                  (Z.of_nat (List.length pre + 1)));
      try reflexivity; lia.
  - destruct n as [|n]; [cbn in Hn; lia|].
    cbn [valid_chain_loop py_len obind].
    rewrite List.length_app. cbn [List.length].
    destruct (Z.ltb_spec (Z.of_nat (List.length pre) + 1)
                (Z.of_nat (List.length pre + S (S (List.length rest)))));
      [|lia].
    replace (pre ++ last :: cur :: rest)
      with ((pre ++ [last]) ++ cur :: rest)
      by (rewrite <- List.app_assoc; reflexivity).
    replace (Z.of_nat (List.length pre) + 1)
      with (Z.of_nat (List.length (pre ++ [last])))
      by (rewrite List.length_app; cbn [List.length]; lia).
    unfold py_index. rewrite seq_index_middle.
    cbn [obind pairs_valid]. unfold pair_ok.
    destruct (py_item cur "previous_hash") as [ph|e|]; try reflexivity.
    cbn [obind].
    destruct (py_ne_str ph (hash last)); try reflexivity.
    destruct (py_item last "proof") as [a|e|]; try reflexivity.
    cbn [obind].
    destruct (py_item cur "proof") as [b|e|]; try reflexivity.
    cbn [obind].
    destruct (valid_proof a b (hash last)); cbn [negb]; try reflexivity.
    apply IH. cbn in Hn. lia.
Qed.

Lemma valid_chain_pairs (first : value) (rest : list value) :
  valid_chain (VList (first :: rest)) = pairs_valid first rest.
Proof.
  unfold valid_chain. cbn [py_index seq_index size_of].
  change (py_index (VList (first :: rest)) 0) with (Returns first).
  cbn [obind].
  exact (valid_chain_loop_pairs rest [] first
           (List.length (first :: rest)) ltac:(cbn; lia)).
Qed.

Lemma pairs_pass_before_cons (x y : value) (l : list value) (k : nat) :
  pairs_pass_before (x :: y :: l) (S k)
  <-> pair_ok x y = Returns true /\ pairs_pass_before (y :: l) k.
Proof.
  split.
  - intros H. split.
    + apply (H 0%nat x y); [lia | reflexivity | reflexivity].
    + intros n prev cur Hn Hprev Hcur.
      apply (H (S n) prev cur); [lia | exact Hprev | exact Hcur].
  - intros [Hxy H] [|n] prev cur Hn Hprev Hcur.
    + cbn in Hprev, Hcur. congruence.
    + apply (H n prev cur); [lia | exact Hprev | exact Hcur].
Qed.

Lemma pairs_valid_true (first : value) (rest : list value) :
  pairs_valid first rest = Returns true
  <-> pairs_pass_before (first :: rest) (List.length rest).
Proof.
  revert first. induction rest as [|cur rest IH]; intros first.
  - split; [|reflexivity]. intros _ n prev c Hn. cbn in Hn. lia.
  - cbn [List.length]. rewrite pairs_pass_before_cons, <- IH.
    cbn [pairs_valid]. destruct (pair_ok first cur) as [[|]|e|]; cbn.
    + tauto.
    + split; [discriminate | intros [? _]; discriminate].
    + split; [discriminate | intros [? _]; discriminate].
    + split; [discriminate | intros [? _]; discriminate].
Qed.



(** *** Consensus *)

Lemma resolve_loop_app (get : string -> reply) (l1 l2 : list string)
      (acc : value * number) :
  resolve_loop get (l1 ++ l2) acc
  = (acc' <- resolve_loop get l1 acc ;; resolve_loop get l2 acc')%outcome.
Proof.
  revert acc. induction l1 as [|node l1 IH]; intros acc; [reflexivity|].
  cbn [resolve_loop List.app].
  destruct (resolve_step get node acc) as [acc'|e|]; cbn [obind];
    [apply IH | reflexivity | reflexivity].
Qed.

(** What the validator accepts is never falsy. *)
Lemma valid_chain_truthy (c : value) (b : bool) :
  valid_chain c = Returns b -> py_truth c = true.
Proof.
  destruct c as [ | ? | ? | ? | s | l | d ]; try discriminate.
  - destruct s; [discriminate | reflexivity].
  - destruct l; [discriminate | reflexivity].
Qed.

Lemma answers_unique (get : string -> reply) (node : string)
      (length chain length' chain' : value) :
  answers get node length chain -> answers get node length' chain' ->
  length = length' /\ chain = chain'.
Proof.
  intros (body & Hg & Hl & Hc) (body' & Hg' & Hl' & Hc').
  rewrite Hg in Hg'. injection Hg' as <-. split; congruence.
Qed.

Lemma resolve_step_inv (get : string -> reply) (len0 : Z)
      (visited : list string) (node : string)
      (acc acc' : value * number) :
  resolve_inv get len0 visited acc ->
  resolve_step get node acc = Returns acc' ->
  resolve_inv get len0 (visited ++ [node]) acc'.
Proof.
  intros Hinv Hstep. destruct acc as [nc ml].
  assert (Hkeep : forall (Hnq : forall chain, fst (nc, ml) = VNone ->
                                 snd (nc, ml) = NInt len0 ->
                                 ~ qualifies get len0 node chain),
             resolve_inv get len0 (visited ++ [node]) (nc, ml)).
  { intros Hnq. destruct Hinv as [(Hnc & Hml & Hnone) | (Ht & Hq & Ha)].
    - left. split; [exact Hnc|]. split; [exact Hml|].
      intros node' chain' Hin. apply List.in_app_iff in Hin.
      destruct Hin as [Hin | [<- | []]].
      + apply Hnone. exact Hin.
      + apply Hnq; assumption.
    - right. split; [exact Ht|]. split.
      + destruct Hq as (n' & c' & Hin & Hq). exists n', c'.
        split; [apply List.in_app_iff; left; exact Hin | exact Hq].
      + destruct Ha as (n' & l' & Hin & Ha). exists n', l'.
        split; [apply List.in_app_iff; left; exact Hin | exact Ha]. }
  unfold resolve_step in Hstep.
  destruct (get (chain_url node)) as [e | status json] eqn:Hget;
    [discriminate|].
  destruct (Z.eqb_spec status 200) as [-> | Hstatus].
  2: { injection Hstep as <-. apply Hkeep.
       intros chain _ _ (length & n & (body & Hg & _) & _).
       congruence. }
  destruct json as [body|e|]; try discriminate. cbn [obind] in Hstep.
  destruct (py_item body "length") as [length|e|] eqn:Hlength;
    try discriminate.
  cbn [obind] in Hstep.
  destruct (py_item body "chain") as [chain|e|] eqn:Hchain;
    try discriminate.
  cbn [obind] in Hstep. unfold py_gt in Hstep.
  destruct (as_number length) as [n|] eqn:Hn; try discriminate.
  cbn [obind] in Hstep.
  assert (Hans : answers get node length chain).
  { exists body. repeat split; assumption. }
  destruct (num_gt n ml) eqn:Hgt.
  - destruct (valid_chain chain) as [[|]|e|] eqn:Hvalid; try discriminate;
      cbn [obind] in Hstep; injection Hstep as <-.
    + right. cbn [fst]. split; [exact (valid_chain_truthy _ _ Hvalid)|].
      split.
      * destruct Hinv as [(Hnc & Hml & Hnone) | (Ht & Hq & Ha)].
        -- cbn in Hml. subst ml. exists node, chain.
           split; [apply List.in_app_iff; right; left; reflexivity|].
           exists length, n. repeat split; assumption.
        -- destruct Hq as (n' & c' & Hin & Hq). exists n', c'.
           split; [apply List.in_app_iff; left; exact Hin | exact Hq].
      * exists node, length.
        split; [apply List.in_app_iff; right; left; reflexivity|].
        split; assumption.
    + apply Hkeep. intros chain' _ _ (length' & n' & Hans' & _ & _ & Hv').
      destruct (answers_unique _ _ _ _ _ _ Hans Hans') as [_ <-].
      congruence.
  - injection Hstep as <-. apply Hkeep.
    intros chain' _ Hml (length' & n' & Hans' & Hn' & Hgt' & _).
    destruct (answers_unique _ _ _ _ _ _ Hans Hans') as [<- _].
    cbn in Hml. subst ml. congruence.
Qed.

Lemma resolve_loop_inv (get : string -> reply) (len0 : Z) :
  forall (neighbors visited : list string) (acc acc' : value * number),
    resolve_inv get len0 visited acc ->
    resolve_loop get neighbors acc = Returns acc' ->
    resolve_inv get len0 (visited ++ neighbors) acc'.
Proof.
  induction neighbors as [|node rest IH]; intros visited acc acc' Hinv Hrun.
  - injection Hrun as <-. rewrite List.app_nil_r. exact Hinv.
  - cbn [resolve_loop] in Hrun.
    destruct (resolve_step get node acc) as [acc1|e|] eqn:Hstep;
      try discriminate.
    cbn [obind] in Hrun.
    replace (visited ++ node :: rest) with ((visited ++ [node]) ++ rest)
      by (rewrite <- List.app_assoc; reflexivity).
    eapply IH; [|exact Hrun].
    eapply resolve_step_inv; eassumption.
Qed.

(** [resolve_conflicts_in], with the length of the local chain and
    the result of the loop named. *)
Lemma resolve_conflicts_in_run (get : string -> reply)
      (neighbors : list string) (self : Blockchain) :
  resolve_conflicts_in get neighbors self
  = match py_len (chain self) with
    | Returns len0 =>
        match resolve_loop get neighbors (VNone, NInt len0) with
        | Returns (new_chain, _) =>
            if py_truth new_chain then
              (Returns true,
               {| chain := new_chain;
                  currentTransactions := currentTransactions self;
                  nodes := nodes self |})
            else (Returns false, self)
        | Raises e => (Raises e, self)
        | OutOfFuel => (OutOfFuel, self)
        end
    | Raises e => (Raises e, self)
    | OutOfFuel => (OutOfFuel, self)
    end.
Proof.
  unfold resolve_conflicts_in, bind, attr, lift, ret, set_chain.
  destruct (py_len (chain self)) as [len0|e|]; [|reflexivity..].
  destruct (resolve_loop get neighbors (VNone, NInt len0))
    as [[new_chain ml]|e|]; [|reflexivity..].
  cbn [fst]. destruct (py_truth new_chain); reflexivity.
Qed.

(** *** The order of the reported lengths *)

(** The number of binary digits of a mantissa. *)
Lemma digits2_pos_bounds (m : positive) :
  2 ^ (Z.pos (digits2_pos m) - 1) <= Z.pos m < 2 ^ Z.pos (digits2_pos m).
Proof.
  induction m as [m IH | m IH |]; cbn [digits2_pos].
  - rewrite Pos2Z.inj_succ.
    replace (Z.succ (Z.pos (digits2_pos m)) - 1)
      with (Z.succ (Z.pos (digits2_pos m) - 1)) by lia.
    rewrite !Z.pow_succ_r by lia. lia.
  - rewrite Pos2Z.inj_succ.
    replace (Z.succ (Z.pos (digits2_pos m)) - 1)
      with (Z.succ (Z.pos (digits2_pos m) - 1)) by lia.
    rewrite !Z.pow_succ_r by lia. lia.
  - cbn. lia.
Qed.

(** A binary64 mantissa has at most 53 digits, and exactly 53 above
    the least exponent. *)
Lemma bounded_mantissa (m : positive) (e : Z) :
  bounded 53 1024 m e = true ->
  -1074 <= e /\ Z.pos m < 2 ^ 53 /\ (-1074 < e -> 2 ^ 52 <= Z.pos m).
Proof.
  unfold bounded, canonical_mantissa, fexp, emin.
  intros H. apply andb_true_iff in H. destruct H as [H _].
  apply Z.eqb_eq in H.
  change (IntDef.Z.max ?a ?b) with (Z.max a b) in H.
  pose proof (digits2_pos_bounds m) as [Hlo Hhi].
  assert (Hd : Z.pos (digits2_pos m) <= 53 /\
               (-1074 < e -> Z.pos (digits2_pos m) = 53)) by lia.
  destruct Hd as [Hd Hn].
  split; [lia|]. split.
  - apply (Z.lt_le_trans _ _ _ Hhi). apply Z.pow_le_mono_r; lia.
  - intros He. rewrite (Hn He) in Hlo. exact Hlo.
Qed.

Lemma finite_gt_int (s : bool) (m : positive) (e c : Z) :
  0 <= c ->
  float_cmp_int (S754_finite s m e) c = Some Gt ->
  s = false
  /\ (0 <= e -> c < Z.pos m * 2 ^ e)
  /\ (e < 0 -> c * 2 ^ (- e) < Z.pos m).
Proof.
  intros Hc H. unfold float_cmp_int in H.
  destruct (Z.leb_spec 0 e) as [He|He]; injection H as H;
    apply Z.compare_gt_iff in H.
  - assert (Hp : 0 < 2 ^ e) by (apply Z.pow_pos_nonneg; lia).
    destruct s; [exfalso; nia|].
    split; [reflexivity|]. split; [intros _; exact H | lia].
  - assert (Hp : 0 < 2 ^ (- e)) by (apply Z.pow_pos_nonneg; lia).
    destruct s; [exfalso; nia|].
    split; [reflexivity|]. split; [lia | intros _; exact H].
Qed.

Lemma int_lt_finite (m : positive) (e c : Z) :
  (0 <= e -> c < Z.pos m * 2 ^ e) ->
  (e < 0 -> c * 2 ^ (- e) < Z.pos m) ->
  float_cmp_int (S754_finite false m e) c = Some Gt.
Proof.
  intros H1 H2. unfold float_cmp_int.
  destruct (Z.leb_spec 0 e) as [He|He]; f_equal; apply Z.compare_gt_iff;
    [exact (H1 He) | exact (H2 He)].
Qed.

(** Between two binary64 floats [>] is the order of their values: what
    is above a float that is above the int [c] is above [c]. *)
Lemma float_gt_int_trans (f g : spec_float) (c : Z) :
  0 <= c ->
  valid_binary 53 1024 f = true ->
  valid_binary 53 1024 g = true ->
  SFltb g f = true ->
  float_cmp_int g c = Some Gt ->
  float_cmp_int f c = Some Gt.
Proof.
  intros Hc Hf Hg Hlt Hgc. unfold SFltb in Hlt.
  destruct g as [sg | sg | | sg mg eg].
  - unfold float_cmp_int in Hgc. destruct c; try discriminate. lia.
  - destruct sg; [discriminate|].
    destruct f as [ | [|] | | ]; discriminate.
  - discriminate.
  - destruct (finite_gt_int sg mg eg c Hc Hgc) as (-> & Hg1 & Hg2).
    destruct f as [sf | sf | | sf mf ef].
    + cbn in Hlt. discriminate.
    + destruct sf; [discriminate | reflexivity].
    + discriminate.
    + destruct sf; [discriminate|].
      cbn [valid_binary] in Hf, Hg.
      destruct (bounded_mantissa mf ef Hf) as (Hfe & Hfhi & Hflo).
      destruct (bounded_mantissa mg eg Hg) as (Hge & Hghi & Hglo).
      cbn [SFcompare] in Hlt.
      change (PosDef.Pos.compare_cont Eq mg mf) with (Pos.compare mg mf)
        in Hlt.
      destruct (Z.compare_spec eg ef) as [-> | He | He]; [| |discriminate].
      * assert (Hm : Z.pos mg < Z.pos mf).
        { destruct (Pos.compare_spec mg mf); try discriminate. lia. }
        apply int_lt_finite.
        -- intros He. specialize (Hg1 He).
           assert (0 < 2 ^ ef) by (apply Z.pow_pos_nonneg; lia). nia.
        -- intros He. specialize (Hg2 He). lia.
      * specialize (Hflo ltac:(lia)).
        apply int_lt_finite.
        -- intros Hef.
           assert (Hpf : 1 <= 2 ^ ef) by (apply Z.pow_le_mono_r with (b := 0); lia).
           destruct (Z.le_gt_cases 0 eg) as [Heg | Heg].
           ++ specialize (Hg1 Heg).
              assert (E : 2 ^ ef = 2 ^ eg * 2 ^ (ef - eg)).
              { rewrite <- Z.pow_add_r by lia. f_equal. lia. }
              assert (Hd : 2 <= 2 ^ (ef - eg)).
              { change 2 with (2 ^ 1) at 1. apply Z.pow_le_mono_r; lia. }
              assert (0 < 2 ^ eg) by (apply Z.pow_pos_nonneg; lia).
              rewrite E. nia.
           ++ specialize (Hg2 Heg).
              assert (Hd : 2 <= 2 ^ (- eg)).
              { change 2 with (2 ^ 1) at 1. apply Z.pow_le_mono_r; lia. }
              nia.
        -- intros Hef. specialize (Hg2 ltac:(lia)).
           assert (E : 2 ^ (- eg) = 2 ^ (- ef) * 2 ^ (ef - eg)).
           { rewrite <- Z.pow_add_r by lia. f_equal. lia. }
           assert (Hd : 2 <= 2 ^ (ef - eg)).
           { change 2 with (2 ^ 1) at 1. apply Z.pow_le_mono_r; lia. }
           assert (0 < 2 ^ (- ef)) by (apply Z.pow_pos_nonneg; lia).
           rewrite E in Hg2. nia.
Qed.

Lemma float_cmp_int_mono (f : spec_float) (x c : Z) :
  float_cmp_int f x = Some Lt ->
  float_cmp_int f c = Some Gt ->
  c < x.
Proof.
  destruct f as [s | s | | s m e]; unfold float_cmp_int.
  - intros H1 H2. destruct x, c; try discriminate; lia.
  - destruct s; discriminate.
  - discriminate.
  - cbv zeta. set (v := if s then Z.neg m else Z.pos m).
    destruct (Z.leb_spec 0 e) as [He|He]; intros [= H1] [= H2];
      rewrite Z.compare_lt_iff in H1; apply Z.compare_gt_iff in H2.
    + lia.
    + assert (0 < 2 ^ (- e)) by (apply Z.pow_pos_nonneg; lia). nia.
Qed.

Lemma float_cmp_int_above (f : spec_float) (y c : Z) :
  c < y ->
  float_cmp_int f y = Some Gt ->
  float_cmp_int f c = Some Gt.
Proof.
  intros Hcy. destruct f as [s | s | | s m e]; unfold float_cmp_int.
  - intros H. destruct y; try discriminate.
    destruct c; try lia. reflexivity.
  - destruct s; [discriminate | reflexivity].
  - discriminate.
  - cbv zeta. set (v := if s then Z.neg m else Z.pos m).
    destruct (Z.leb_spec 0 e) as [He|He]; intros [= H];
      apply Z.compare_gt_iff in H; f_equal; apply Z.compare_gt_iff.
    + lia.
    + assert (0 < 2 ^ (- e)) by (apply Z.pow_pos_nonneg; lia). nia.
Qed.

(** [>] on numbers is transitive above a length. *)
Lemma num_gt_trans (a b : number) (c : Z) :
  0 <= c ->
  binary64_number a -> binary64_number b ->
  num_gt a b = true ->
  num_gt b (NInt c) = true ->
  num_gt a (NInt c) = true.
Proof.
  intros Hc Ha Hb Hab Hbc.
  destruct a as [x|f], b as [y|g]; cbn [num_gt binary64_number] in *.
  - apply Z.ltb_lt in Hab, Hbc. apply Z.ltb_lt. lia.
  - destruct (float_cmp_int g x) as [[]|] eqn:E1; try discriminate.
    destruct (float_cmp_int g c) as [[]|] eqn:E2; try discriminate.
    apply Z.ltb_lt. exact (float_cmp_int_mono g x c E1 E2).
  - destruct (float_cmp_int f y) as [[]|] eqn:E1; try discriminate.
    apply Z.ltb_lt in Hbc.
    rewrite (float_cmp_int_above f y c Hbc E1). reflexivity.
  - destruct (float_cmp_int g c) as [[]|] eqn:E2; try discriminate.
    rewrite (float_gt_int_trans f g c Hc Ha Hb Hab E2). reflexivity.
Qed.

Lemma binary64_as_number (v : value) (n : number) :
  binary64 v -> as_number v = Some n -> binary64_number n.
Proof.
  destruct v as [ | b | z | f | s | l | d ]; try discriminate;
    intros Hv [= <-]; exact Hv.
Qed.

Lemma py_len_nonneg (v : value) (n : Z) : py_len v = Returns n -> 0 <= n.
Proof.
  destruct v; try discriminate; intros [= <-]; apply Nat2Z.is_nonneg.
Qed.

Lemma resolve_step_adopted (get : string -> reply) (len0 : Z)
      (all : list string) (node : string) (acc acc' : value * number) :
  0 <= len0 ->
  binary64_lengths get all ->
  In node all ->
  adopted_inv get len0 all acc ->
  resolve_step get node acc = Returns acc' ->
  adopted_inv get len0 all acc'.
Proof.
  intros Hlen Hwf Hin Hinv Hstep. destruct acc as [nc ml].
  unfold resolve_step in Hstep.
  destruct (get (chain_url node)) as [e | status json] eqn:Hget;
    [discriminate|].
  destruct (Z.eqb_spec status 200) as [-> | Hstatus];
    [|injection Hstep as <-; exact Hinv].
  destruct json as [body|e|]; try discriminate. cbn [obind] in Hstep.
  destruct (py_item body "length") as [length|e|] eqn:Hlength;
    try discriminate.
  cbn [obind] in Hstep.
  destruct (py_item body "chain") as [chain|e|] eqn:Hchain;
    try discriminate.
  cbn [obind] in Hstep. unfold py_gt in Hstep.
  destruct (as_number length) as [n|] eqn:Hn; try discriminate.
  cbn [obind] in Hstep.
  assert (Hans : answers get node length chain).
  { exists body. repeat split; assumption. }
  destruct (num_gt n ml) eqn:Hgt; [|injection Hstep as <-; exact Hinv].
  destruct (valid_chain chain) as [[|]|e|] eqn:Hvalid; try discriminate;
    cbn [obind] in Hstep; injection Hstep as <-; [|exact Hinv].
  right. exists node, length. cbn [fst snd].
  split; [exact Hin|]. split; [exact Hans|]. split; [exact Hn|].
  split; [|exact Hvalid].
  destruct Hinv as [(_ & Hml) | (node0 & length0 & Hin0 & Hans0 & Hn0
                                 & Hgt0 & _)]; cbn [fst snd] in *.
  - subst ml. exact Hgt.
  - apply (num_gt_trans n ml len0 Hlen).
    + exact (binary64_as_number length n
               (Hwf node length chain Hin Hans) Hn).
    + exact (binary64_as_number length0 ml
               (Hwf node0 length0 nc Hin0 Hans0) Hn0).
    + exact Hgt.
    + exact Hgt0.
Qed.

Lemma resolve_loop_adopted (get : string -> reply) (len0 : Z)
      (all : list string) :
  0 <= len0 ->
  binary64_lengths get all ->
  forall (rest : list string) (acc acc' : value * number),
    (forall node, In node rest -> In node all) ->
    adopted_inv get len0 all acc ->
    resolve_loop get rest acc = Returns acc' ->
    adopted_inv get len0 all acc'.
Proof.
  intros Hlen Hwf.
  induction rest as [|node rest IH]; intros acc acc' Hsub Hinv Hrun.
  - injection Hrun as <-. exact Hinv.
  - cbn [resolve_loop] in Hrun.
    destruct (resolve_step get node acc) as [acc1|e|] eqn:Hstep;
      try discriminate.
    cbn [obind] in Hrun.
    apply (IH acc1 acc'); [|  | exact Hrun].
    + intros node' Hin'. apply Hsub. right. exact Hin'.
    + apply (resolve_step_adopted get len0 all node acc acc1 Hlen Hwf);
        [apply Hsub; left; reflexivity | exact Hinv | exact Hstep].
Qed.

(** C2, as the code has it.  However the resolution ends, the object
    is unchanged unless it returns True.  When it returns, it returns
    True exactly when some peer answers with status 200, a reported
    length above the length of the local chain and a chain that the
    validator accepts; the chain is then replaced by the chain of a
    peer that answered with status 200 and that the validator accepts,
    and that chain was reported, by a peer that answered with status
    200, with a length above the length of the local chain (the
    floats among the lengths being binary64 numbers, as those of
    Python are).  Only the reported length is compared: nothing is
    said of the number of blocks of the new chain. *)
Theorem resolve_replaces_iff_qualifying_peer
        (get : string -> reply) (neighbors : list string)
        (self self' : Blockchain) (o : outcome bool) :
  resolve_conflicts_in get neighbors self = (o, self') ->
  (o <> Returns true -> self' = self)
  /\ forall b : bool,
      o = Returns b ->
      exists len0 : Z,
        py_len (chain self) = Returns len0
        /\ (b = true
            <-> exists node chain',
                In node neighbors /\ qualifies get len0 node chain')
        /\ (b = true ->
            exists node length chain',
              In node neighbors
              /\ answers get node length chain'
              /\ valid_chain chain' = Returns true
              /\ self' = {| chain := chain';
                            currentTransactions := currentTransactions self;
                            nodes := nodes self |}
              /\ (binary64_lengths get neighbors ->
                  exists node',
                    In node' neighbors
                    /\ qualifies get len0 node' chain')).
Proof.
  rewrite resolve_conflicts_in_run.
  destruct (py_len (chain self)) as [len0|e|] eqn:Hlen.
  2,3: intros [= <- <-]; split; [reflexivity | discriminate].
  destruct (resolve_loop get neighbors (VNone, NInt len0))
    as [[new_chain ml]|e|] eqn:Hloop.
  2,3: intros [= <- <-]; split; [reflexivity | discriminate].
  assert (Hinv : resolve_inv get len0 ([] ++ neighbors) (new_chain, ml)).
  { eapply resolve_loop_inv; [|exact Hloop].
    left. repeat split. intros node chain' []. }
  cbn [List.app] in Hinv.
  destruct Hinv as [(Hnc & Hml & Hnone) | (Ht & Hq & Ha)];
    cbn [fst snd] in *.
  - subst new_chain. cbn [py_truth]. intros [= <- <-].
    split; [reflexivity|]. intros b [= <-]. exists len0.
    split; [reflexivity|]. split; [|discriminate].
    split; [discriminate|].
    intros (node & chain' & Hin & Hq). exfalso.
    exact (Hnone node chain' Hin Hq).
  - rewrite Ht. intros [= <- <-].
    split; [intros H; contradict H; reflexivity|].
    intros b [= <-]. exists len0. split; [reflexivity|].
    split; [split; [intros _; exact Hq | reflexivity]|].
    intros _. destruct Ha as (node & length & Hin & Hans & Hvalid).
    exists node, length, new_chain.
    split; [exact Hin|]. split; [exact Hans|]. split; [exact Hvalid|].
    split; [reflexivity|].
    intros Hwf.
    assert (Hadopted : adopted_inv get len0 neighbors (new_chain, ml)).
    { apply (resolve_loop_adopted get len0 neighbors
               (py_len_nonneg _ _ Hlen) Hwf neighbors
               (VNone, NInt len0) (new_chain, ml)).
      - intros node' Hin'. exact Hin'.
      - left. split; reflexivity.
      - exact Hloop. }
    destruct Hadopted as [(Hnone & _) | (node' & length' & Hin' & Hans'
                                         & Hn' & Hgt' & Hvalid')];
      cbn [fst snd] in *.
    + subst new_chain. discriminate Ht.
    + exists node'. split; [exact Hin'|].
      exists length', ml. repeat split; assumption.
Qed.

(** C4, as the code has it.  A peer that answers with a status other
    than 200 is skipped: the resolution is the one that the remaining
    peers give.  A fetch that raises is not caught: once the peers
    before it were handled, the exception leaves [resolve_conflicts]
    and the object is unchanged. *)
Theorem resolve_skips_failed_status
        (get : string -> reply) (pre rest : list string) (node : string)
        (self : Blockchain) :
  (forall (status : Z) (json : outcome value),
      get (chain_url node) = Response status json ->
      status <> 200 ->
      resolve_conflicts_in get (pre ++ node :: rest) self
      = resolve_conflicts_in get (pre ++ rest) self)
  /\ (forall (e : exn) (len0 : Z) (acc : value * number),
         get (chain_url node) = GetRaises e ->
         py_len (chain self) = Returns len0 ->
         resolve_loop get pre (VNone, NInt len0) = Returns acc ->
         resolve_conflicts_in get (pre ++ node :: rest) self
         = (Raises e, self)).
Proof.
  split.
  - intros status json Hget Hstatus.
    rewrite !resolve_conflicts_in_run.
    destruct (py_len (chain self)) as [len0|e|]; [|reflexivity..].
    rewrite !resolve_loop_app.
    destruct (resolve_loop get pre (VNone, NInt len0)) as [[nc ml]|e|];
      [|reflexivity..].
    cbn [obind resolve_loop]. unfold resolve_step at 1. rewrite Hget.
    destruct (Z.eqb_spec status 200); [contradiction|]. reflexivity.
  - intros e len0 acc Hget Hlen Hpre.
    rewrite resolve_conflicts_in_run, Hlen, resolve_loop_app, Hpre.
    cbn [obind resolve_loop]. destruct acc as [nc ml].
    unfold resolve_step. rewrite Hget. reflexivity.
Qed.

(** C10.  The validator reads [chain[0]] before it looks at the
    length: on the empty list it raises IndexError.  So does the
    resolution, with the object unchanged, when a peer answers with
    status 200, a reported length above the greatest seen so far and
    an empty list of blocks: the candidate is neither rejected nor
    skipped. *)
Theorem valid_chain_empty_raises :
  valid_chain (VList []) = Raises IndexError
  /\ forall (get : string -> reply) (pre rest : list string)
            (node : string) (self : Blockchain) (len0 : Z)
            (new_chain body length : value) (max_length : number),
      py_len (chain self) = Returns len0 ->
      resolve_loop get pre (VNone, NInt len0)
      = Returns (new_chain, max_length) ->
      get (chain_url node) = Response 200 (Returns body) ->
      py_item body "length" = Returns length ->
      py_item body "chain" = Returns (VList []) ->
      py_gt length max_length = Returns true ->
      resolve_conflicts_in get (pre ++ node :: rest) self
      = (Raises IndexError, self).
Proof.
  split; [reflexivity|].
  intros get pre rest node self len0 new_chain body length max_length
         Hlen Hpre Hget Hlength Hchain Hgt.
  rewrite resolve_conflicts_in_run, Hlen, resolve_loop_app, Hpre.
  cbn [obind resolve_loop]. unfold resolve_step.
  rewrite Hget. cbn [Z.eqb Pos.eqb obind].
  rewrite Hlength. cbn [obind]. rewrite Hchain. cbn [obind].
  rewrite Hgt. reflexivity.
Qed.

(** *** The node registry *)

Lemma with_nodes_same (self : Blockchain) : with_nodes self (nodes self) = self.
Proof. destruct self. reflexivity. Qed.

Lemma register_node_run (address : string) (self : Blockchain)
      (p : ParseResult) :
  urlparse address = Returns p ->
  register_node address self
  = match normalized p with
    | Some n => (Returns tt, with_nodes self (nodes self ∪ {[ n ]}))
    | None => (Raises (ValueError "Invalid URL"), self)
    end.
Proof.
  intros Hp. unfold register_node, normalized, bind, lift, attr, set_nodes,
               raise, lift.
  rewrite Hp. destruct (nonempty (netloc p)); [reflexivity|].
  destruct (nonempty (path p)); reflexivity.
Qed.

Lemma deregister_node_run (address : string) (self : Blockchain)
      (p : ParseResult) :
  size (nodes self) <> 0%nat ->
  urlparse address = Returns p ->
  deregister_node address self
  = match normalized p with
    | Some n =>
        if bool_decide (n ∈ nodes self)
        then (Returns tt, with_nodes self (nodes self ∖ {[ n ]}))
        else (Raises KeyError, self)
    | None => (Raises (ValueError "Invalid URL"), self)
    end.
Proof.
  intros Hsize Hp.
  unfold deregister_node, normalized, bind, lift, attr, raise, lift.
  cbn beta. rewrite bool_decide_false by exact Hsize.
  rewrite Hp.
  destruct (nonempty (netloc p)).
  - unfold set_remove, bind, attr, set_nodes, raise, lift.
    destruct (bool_decide (netloc p ∈ nodes self)); reflexivity.
  - destruct (nonempty (path p)); [|reflexivity].
    unfold set_remove, bind, attr, set_nodes, raise, lift.
    destruct (bool_decide (path p ∈ nodes self)); reflexivity.
Qed.

(** C3, as the code has it.  On an empty node set [deregister_node]
    returns at once, whatever the address, malformed or not, and
    leaves the object as it is.  On a non-empty node set an address
    with neither network location nor path raises ValueError
    ('Invalid URL') and leaves the object as it is. *)
Theorem deregister_node_empty_or_malformed
        (address : string) (self : Blockchain) :
  (size (nodes self) = 0%nat ->
   deregister_node address self = (Returns tt, self))
  /\ (size (nodes self) <> 0%nat ->
      forall p : ParseResult,
        urlparse address = Returns p ->
        normalized p = None ->
        deregister_node address self
        = (Raises (ValueError "Invalid URL"), self)).
Proof.
  split.
  - intros Hsize. unfold deregister_node, bind, attr, ret. cbn beta.
    rewrite bool_decide_true by exact Hsize. reflexivity.
  - intros Hsize p Hp Hn.
    rewrite (deregister_node_run address self p Hsize Hp), Hn.
    reflexivity.
Qed.

(** C9, as the code has it.  For an address that parses to the
    normalized form [n]: when [n] is not yet in the node set,
    registering and then deregistering the address gives back the
    object as it was; registering twice is the same as registering
    once; and after registering, the node set is the old one with [n]
    added, and [n] is listed in it exactly once. *)
Theorem register_deregister_roundtrip
        (address : string) (self : Blockchain) (p : ParseResult)
        (n : string) :
  urlparse address = Returns p ->
  normalized p = Some n ->
  (n ∉ nodes self ->
   (_ <- register_node address ;; deregister_node address)%method self
   = (Returns tt, self))
  /\ (_ <- register_node address ;; register_node address)%method self
     = register_node address self
  /\ exists self1 : Blockchain,
      register_node address self = (Returns tt, self1)
      /\ nodes self1 = nodes self ∪ {[ n ]}
      /\ List.count_occ string_dec (elements (nodes self1)) n = 1%nat.
Proof.
  intros Hp Hn.
  pose proof (register_node_run address self p Hp) as Hreg.
  rewrite Hn in Hreg.
  split; [|split].
  - intros Hfresh. unfold bind at 1. rewrite Hreg.
    rewrite (deregister_node_run address _ p); [|  | exact Hp].
    + rewrite Hn. cbn [nodes with_nodes].
      rewrite bool_decide_true by set_solver.
      unfold with_nodes. cbn [chain currentTransactions nodes].
      assert (E : (nodes self ∪ {[ n ]}) ∖ {[ n ]} = nodes self)
        by set_solver.
      rewrite E. destruct self; reflexivity.
    + cbn [nodes with_nodes]. intros Hsize.
      apply size_empty_inv in Hsize. set_solver.
  - unfold bind at 1. rewrite Hreg.
    rewrite (register_node_run address _ p Hp), Hn.
    unfold with_nodes. cbn [chain currentTransactions nodes].
    assert (E : nodes self ∪ {[ n ]} ∪ {[ n ]} = nodes self ∪ {[ n ]})
      by set_solver.
    rewrite E. reflexivity.
  - exists (with_nodes self (nodes self ∪ {[ n ]})).
    split; [exact Hreg|]. split; [reflexivity|].
    cbn [nodes with_nodes].
    assert (Hin : In n (elements (nodes self ∪ {[ n ]}))).
    { apply list_elem_of_In, elem_of_elements. set_solver. }
    assert (Hnd : List.NoDup (elements (nodes self ∪ {[ n ]}))).
    { apply NoDup_ListNoDup, NoDup_elements. }
    apply (List.count_occ_In string_dec) in Hin.
    rewrite (List.NoDup_count_occ string_dec) in Hnd.
    specialize (Hnd n). lia.
Qed.

(** *** More on the proof of work and on mining *)

Lemma proof_of_work_loop_sound (a : value) (h : string) :
  forall (fuel : nat) (start p : Z),
    proof_of_work_loop fuel a h start = Returns p ->
    start <= p
    /\ valid_proof a (VInt p) h = true
    /\ forall q, start <= q < p -> valid_proof a (VInt q) h = false.
Proof.
  induction fuel as [|fuel IH]; intros start p Hrun; [discriminate|].
  cbn [proof_of_work_loop] in Hrun.
  destruct (valid_proof a (VInt start) h) eqn:E.
  - injection Hrun as <-. repeat split; [lia | exact E | intros q Hq; lia].
  - destruct (IH (start + 1) p Hrun) as (Hle & Hp & Hleast).
    repeat split; [lia | exact Hp |].
    intros q Hq. destruct (Z.eq_dec q start) as [->|Hne]; [exact E|].
    apply Hleast. lia.
Qed.

Lemma proof_of_work_loop_exhausted (a : value) (h : string) :
  forall (fuel : nat) (start : Z),
    proof_of_work_loop fuel a h start = OutOfFuel ->
    forall q, start <= q < start + Z.of_nat fuel ->
              valid_proof a (VInt q) h = false.
Proof.
  induction fuel as [|fuel IH]; intros start Hrun q Hq; [lia|].
  cbn [proof_of_work_loop] in Hrun.
  destruct (valid_proof a (VInt start) h) eqn:E; [discriminate|].
  destruct (Z.eq_dec q start) as [->|Hne]; [exact E|].
  apply (IH (start + 1) Hrun). lia.
Qed.

Lemma proof_of_work_loop_never_raises (a : value) (h : string) :
  forall (fuel : nat) (start : Z) (e : exn),
    proof_of_work_loop fuel a h start <> Raises e.
Proof.
  induction fuel as [|fuel IH]; intros start e; [discriminate|].
  cbn [proof_of_work_loop].
  destruct (valid_proof a (VInt start) h); [discriminate | apply IH].
Qed.

Lemma py_item_terminates (v : value) (k : string) :
  py_item v k <> OutOfFuel.
Proof.
  destruct v; try discriminate. cbn. destruct (assoc k d); discriminate.
Qed.

(** The search of [proof_of_work].  When [last_block['proof']] raises,
    the search raises the same exception.  What the search returns is
    never negative, satisfies the predicate for the proof and the hash
    of [last_block], and is the least such integer.  Fuel [n] runs out
    only when none of 0, ..., n - 1 satisfies the predicate. *)
Theorem proof_of_work_sound (fuel : nat) (last_block : value) :
  (forall e : exn,
      py_item last_block "proof" = Raises e ->
      proof_of_work fuel last_block = Raises e)
  /\ (forall p : Z,
         proof_of_work fuel last_block = Returns p ->
         exists a : value,
           py_item last_block "proof" = Returns a
           /\ 0 <= p
           /\ valid_proof a (VInt p) (hash last_block) = true
           /\ forall q, 0 <= q < p ->
                        valid_proof a (VInt q) (hash last_block) = false)
  /\ (proof_of_work fuel last_block = OutOfFuel ->
      exists a : value,
        py_item last_block "proof" = Returns a
        /\ forall q, 0 <= q < Z.of_nat fuel ->
                     valid_proof a (VInt q) (hash last_block) = false).
Proof.
  unfold proof_of_work.
  destruct (py_item last_block "proof") as [a|e|] eqn:Ha; cbn [obind].
  - split; [discriminate|]. split.
    + intros p Hrun. exists a. split; [reflexivity|].
      exact (proof_of_work_loop_sound a _ fuel 0 p Hrun).
    + intros Hrun. exists a. split; [reflexivity|].
      intros q Hq.
      apply (proof_of_work_loop_exhausted a _ fuel 0 Hrun). lia.
  - split; [intros e' [= <-]; reflexivity|].
    split; [discriminate | discriminate].
  - exfalso. exact (py_item_terminates _ _ Ha).
Qed.

Lemma proof_of_work_returns_valid (fuel : nat) (last : value) (p : Z) :
  proof_of_work fuel last = Returns p ->
  exists a : value,
    py_item last "proof" = Returns a
    /\ valid_proof a (VInt p) (hash last) = true.
Proof.
  unfold proof_of_work.
  destruct (py_item last "proof") as [a|e|]; cbn [obind]; try discriminate.
  intros Hrun. exists a. split; [reflexivity|].
  exact (proj1 (proj2 (proof_of_work_loop_sound a _ fuel 0 p Hrun))).
Qed.

Lemma forged_pair_ok (fuel : nat) (l : list value) (last : value)
      (now : spec_float) (pool : list value) (p : Z) :
  proof_of_work fuel last = Returns p ->
  pair_ok last (forged l last now pool p) = Returns true.
Proof.
  intros Hp. destruct (proof_of_work_returns_valid fuel last p Hp)
    as (a & Ha & Hv).
  unfold pair_ok, forged. cbn [py_item assoc String.eqb Ascii.eqb Bool.eqb obind].
  cbn -[hash valid_proof].
  rewrite String.eqb_refl. cbn [negb]. rewrite Ha. cbn [obind].
  rewrite Hv. reflexivity.
Qed.

Lemma pairs_pass_before_snoc (l0 : list value) (last b : value) :
  pairs_pass_before (l0 ++ [last]) (List.length l0) ->
  pair_ok last b = Returns true ->
  pairs_pass_before ((l0 ++ [last]) ++ [b]) (List.length (l0 ++ [last])).
Proof.
  intros Hl Hb n prev cur Hn Hprev Hcur.
  rewrite List.length_app in Hn. cbn [List.length] in Hn.
  destruct (Nat.eq_dec n (List.length l0)) as [->|Hne].
  - rewrite List.nth_error_app1 in Hprev
      by (rewrite List.length_app; cbn; lia).
    rewrite List.nth_error_app2 in Hprev by lia.
    rewrite Nat.sub_diag in Hprev. injection Hprev as <-.
    rewrite List.nth_error_app2 in Hcur
      by (rewrite List.length_app; cbn; lia).
    rewrite List.length_app in Hcur. cbn [List.length] in Hcur.
    replace (S (List.length l0) - (List.length l0 + 1))%nat with 0%nat
      in Hcur by lia.
    injection Hcur as <-. exact Hb.
  - rewrite List.nth_error_app1 in Hprev
      by (rewrite List.length_app; cbn; lia).
    rewrite List.nth_error_app1 in Hcur
      by (rewrite List.length_app; cbn; lia).
    apply (Hl n prev cur); [lia | exact Hprev | exact Hcur].
Qed.

(** A reachable object has a non-empty list for a chain, whose pairs
    all pass and whose blocks are numbered from 1. *)
Lemma mined_well_mined (self : Blockchain) :
  mined self ->
  exists (l0 : list value) (last : value),
    chain self = VList (l0 ++ [last])
    /\ pairs_pass_before (l0 ++ [last]) (List.length l0)
    /\ forall (n : nat) (b : value),
        List.nth_error (l0 ++ [last]) n = Some b ->
        py_item b "index" = Returns (VInt (Z.of_nat n + 1)).
Proof.
  induction 1 as [now | self fuel id now o self' _ IH Hrun].
  - rewrite init_run. exists [], (genesis now). split; [reflexivity|].
    split.
    + intros n prev cur Hn. cbn in Hn. lia.
    + intros [|[|n]] b Hb; cbn in Hb; try discriminate.
      injection Hb as <-. reflexivity.
  - destruct IH as (l0 & last & Hc & Hpass & Hidx).
    destruct self as [c pool ns]. cbn in Hc. subst c.
    rewrite mine_run in Hrun. cbv zeta in Hrun.
    destruct (proof_of_work fuel last) as [p|e|] eqn:Hp.
    2,3: injection Hrun as _ <-; exists l0, last; repeat split; assumption.
    destruct (index <- py_item last "index" ;; py_add_one index)%outcome
      as [v|e|].
    2,3: injection Hrun as _ <-; exists l0, last; repeat split; assumption.
    injection Hrun as _ <-.
    eexists (l0 ++ [last]), _. split; [reflexivity|]. split.
    + apply pairs_pass_before_snoc; [exact Hpass|].
      exact (forged_pair_ok fuel _ last now _ p Hp).
    + intros n b Hb.
      destruct (Nat.lt_ge_cases n (List.length (l0 ++ [last]))) as [Hlt|Hge].
      * rewrite List.nth_error_app1 in Hb by exact Hlt.
        exact (Hidx n b Hb).
      * rewrite List.nth_error_app2 in Hb by exact Hge.
        destruct (n - List.length (l0 ++ [last]))%nat as [|m] eqn:Hm.
        -- injection Hb as <-. cbn [forged py_item assoc String.eqb Ascii.eqb
                                     Bool.eqb].
           cbn -[hash Z.add Z.of_nat]. do 2 f_equal. lia.
        -- destruct m; discriminate.
Qed.

Lemma passing_chain_valid (l0 : list value) (last : value) :
  pairs_pass_before (l0 ++ [last]) (List.length l0) ->
  valid_chain (VList (l0 ++ [last])) = Returns true.
Proof.
  intros Hpass. destruct l0 as [|first l0].
  - reflexivity.
  - cbn [List.app]. rewrite valid_chain_pairs. apply pairs_valid_true.
    cbn [List.app List.length] in Hpass.
    rewrite List.length_app. cbn [List.length].
    replace (List.length l0 + 1)%nat with (S (List.length l0)) by lia.
    exact Hpass.
Qed.

(** The validator accepts every chain made by [__init__] and calls of
    [mine] only. *)
Theorem valid_chain_accepts_mined (self : Blockchain) :
  mined self -> valid_chain (chain self) = Returns true.
Proof.
  intros Hm.
  destruct (mined_well_mined self Hm) as (l0 & last & -> & Hpass & _).
  exact (passing_chain_valid l0 last Hpass).
Qed.

(** In every chain made by [__init__] and calls of [mine] only, the
    block at position [i] has the index [i + 1]; and on such an object
    [new_transaction] returns the number of blocks plus one. *)
Theorem mined_blocks_numbered (self : Blockchain) :
  mined self ->
  (forall (i : Z) (b : value),
      0 <= i ->
      py_index (chain self) i = Returns b ->
      py_item b "index" = Returns (VInt (i + 1)))
  /\ forall (n : Z) (sender recipient amount : value),
      py_len (chain self) = Returns n ->
      fst (new_transaction sender recipient amount self)
      = Returns (VInt (n + 1)).
Proof.
  intros Hm. destruct (mined_well_mined self Hm) as (l0 & last & Hc & _ & Hidx).
  split.
  - intros i b Hi Hb. rewrite Hc in Hb.
    apply py_index_list in Hb; [|exact Hi].
    rewrite (Hidx _ b Hb). do 2 f_equal. lia.
  - intros n sender recipient amount Hn.
    destruct self as [c pool ns]. cbn [chain] in Hc, Hn. subst c.
    unfold new_transaction, last_block, bind, attr, lift,
      set_currentTransactions.
    cbn -[py_index py_item py_add_one].
    rewrite (py_index_last l0 last).
    assert (Hlast : List.nth_error (l0 ++ [last]) (List.length l0)
                    = Some last).
    { rewrite List.nth_error_app2 by lia. rewrite Nat.sub_diag. reflexivity. }
    rewrite (Hidx _ last Hlast). cbn [fst py_add_one].
    cbn [py_len] in Hn. injection Hn as <-.
    rewrite List.length_app. cbn [List.length]. do 2 f_equal. lia.
Qed.

(** On an object whose chain is not a list with a last block, [mine]
    raises before it changes anything. *)
Lemma mine_without_last_block (self : Blockchain) :
  (exists (l0 : list value) (last : value), chain self = VList (l0 ++ [last]))
  \/ forall (fuel : nat) (id : string) (now : spec_float),
      exists e : exn, mine fuel id now self = (Raises e, self).
Proof.
  destruct self as [c pool ns].
  destruct c as [ | b | z | f | s | l | d ];
    try (right; intros fuel id now; eexists;
         unfold mine, last_block, bind, attr, lift; cbn; reflexivity).
  - right. intros fuel id now.
    unfold mine, last_block, bind, attr, lift. cbn -[seq_index].
    destruct (seq_index (list_ascii_of_string s) (-1)); cbn;
      eexists; reflexivity.
  - destruct (list_snoc_cases l) as [-> | (l0 & last & ->)].
    + right. intros fuel id now. eexists.
      unfold mine, last_block, bind, attr, lift. cbn. reflexivity.
    + left. exists l0, last. reflexivity.
Qed.

(** What [mine] leaves, however it ends.  The node set is never
    touched.  The chain is the old one, with one block more when the
    call returns; no block is ever removed or altered.  When the call
    does not return, the pool is the old one, with the reward added when
    the search had ended; when the fuel runs out, nothing has
    changed. *)
Theorem mine_frame (fuel : nat) (id : string) (now : spec_float)
        (self : Blockchain) :
  let o := fst (mine fuel id now self) in
  let self' := snd (mine fuel id now self) in
  nodes self' = nodes self
  /\ match o with
     | Returns _ =>
         exists (l : list value) (block : value),
           chain self = VList l /\ chain self' = VList (l ++ [block])
           /\ currentTransactions self' = []
     | Raises _ =>
         chain self' = chain self
         /\ (currentTransactions self' = currentTransactions self
             \/ currentTransactions self'
                = currentTransactions self ++ [reward id])
     | OutOfFuel => self' = self
     end.
Proof.
  cbv zeta.
  destruct (mine_without_last_block self) as [(l0 & last & Hc) | Hraise].
  - destruct self as [c pool ns]. cbn [chain] in Hc. subst c.
    rewrite mine_run. cbv zeta.
    destruct (proof_of_work fuel last) as [p|e|] eqn:Hp.
    + destruct (index <- py_item last "index" ;; py_add_one index)%outcome
        as [v|e|] eqn:Hi.
      * cbn [fst snd nodes chain currentTransactions].
        split; [reflexivity|]. eexists _, _. repeat split.
      * cbn [fst snd nodes chain currentTransactions].
        split; [reflexivity|]. split; [reflexivity | right; reflexivity].
      * exfalso. unfold obind in Hi.
        destruct (py_item last "index") as [index|e|] eqn:Hidx;
          try discriminate.
        -- destruct index; discriminate.
        -- exact (py_item_terminates _ _ Hidx).
    + cbn [fst snd]. split; [reflexivity|].
      split; [reflexivity | left; reflexivity].
    + cbn [fst snd]. split; reflexivity.
  - destruct (Hraise fuel id now) as (e & ->). cbn [fst snd].
    split; [reflexivity|]. split; [reflexivity | left; reflexivity].
Qed.

Lemma new_transaction_run (sender recipient amount : value)
      (self : Blockchain) :
  new_transaction sender recipient amount self
  = ((last <- py_index (chain self) (-1) ;;
      index <- py_item last "index" ;;
      py_add_one index)%outcome,
     {| chain := chain self;
        currentTransactions :=
          currentTransactions self ++ [transaction sender recipient amount];
        nodes := nodes self |}).
Proof.
  unfold new_transaction, last_block, bind, attr, lift,
    set_currentTransactions.
  cbn -[py_index py_item py_add_one].
  destruct (py_index (chain self) (-1)) as [last|e|]; [|reflexivity..].
  cbn -[py_item py_add_one].
  destruct (py_item last "index") as [index|e|]; reflexivity.
Qed.


Lemma new_block_run (now : spec_float) (proof previous_hash : value)
      (l0 : list value) (last : value) (pool : list value)
      (ns : gset string) :
  let l := l0 ++ [last] in
  let block :=
    VDict [ ("index", VInt (Z.of_nat (List.length l) + 1));
            ("timestamp", VFloat now);
            ("transactions", VList pool);
            ("proof", proof);
            ("previous_hash",
             if py_truth previous_hash then previous_hash
             else VStr (hash last)) ] in
  new_block now proof previous_hash
            {| chain := VList l; currentTransactions := pool; nodes := ns |}
  = (Returns block,
     {| chain := VList (l ++ [block]); currentTransactions := [];
        nodes := ns |}).
Proof.
  cbv zeta.
  unfold new_block, chain_append, bind, attr, lift, ret,
    set_currentTransactions, set_chain.
  cbn -[hash py_index py_truth].
  destruct (py_truth previous_hash).
  - reflexivity.
  - rewrite (py_index_last l0 last). reflexivity.
Qed.

(** [new_block] with a previous_hash that is falsy (None, 0, the empty
    str, ...) links the block to the last block of the chain by its
    hash, as [mine] does; on an empty chain it then raises IndexError
    and changes nothing.  With any previous_hash a block made on a
    chain of [n] blocks has the index [n + 1], holds the pool, goes to
    the end of the chain, and leaves the pool empty. *)
Theorem new_block_links_to_last (now : spec_float)
        (proof previous_hash : value) (pool : list value)
        (ns : gset string) :
  (forall (l0 : list value) (last : value),
      exists block : value,
        new_block now proof previous_hash
                  {| chain := VList (l0 ++ [last]);
                     currentTransactions := pool; nodes := ns |}
        = (Returns block,
           {| chain := VList ((l0 ++ [last]) ++ [block]);
              currentTransactions := []; nodes := ns |})
        /\ py_item block "index"
           = Returns (VInt (Z.of_nat (List.length (l0 ++ [last])) + 1))
        /\ py_item block "transactions" = Returns (VList pool)
        /\ py_item block "proof" = Returns proof
        /\ (py_truth previous_hash = false ->
            py_item block "previous_hash" = Returns (VStr (hash last)))
        /\ (py_truth previous_hash = true ->
            py_item block "previous_hash" = Returns previous_hash))
  /\ (py_truth previous_hash = false ->
      new_block now proof previous_hash
                {| chain := VList []; currentTransactions := pool;
                   nodes := ns |}
      = (Raises IndexError,
         {| chain := VList []; currentTransactions := pool; nodes := ns |})).
Proof.
  split.
  - intros l0 last. eexists. split; [apply new_block_run|].
    cbn -[hash py_truth Z.add Z.of_nat].
    repeat split.
    + intros ->. reflexivity.
    + intros ->. reflexivity.
  - intros Hf.
    unfold new_block, chain_append, bind, attr, lift, ret,
      set_currentTransactions, set_chain.
    cbn -[hash py_truth]. rewrite Hf. reflexivity.
Qed.

(** *** The canonical encoding *)

Lemma ascii_compare_trans_le (a b c : ascii) :
  Ascii.compare a b <> Gt -> Ascii.compare b c <> Gt ->
  Ascii.compare a c <> Gt.
Proof.
  unfold Ascii.compare. rewrite !N.compare_le_iff. lia.
Qed.

Lemma string_leb_trans (s1 s2 s3 : string) :
  String.leb s1 s2 = true -> String.leb s2 s3 = true ->
  String.leb s1 s3 = true.
Proof.
  unfold String.leb.
  assert (H : forall s1 s2 s3,
             String.compare s1 s2 <> Gt -> String.compare s2 s3 <> Gt ->
             String.compare s1 s3 <> Gt).
  { clear s1 s2 s3. induction s1 as [|c1 s1 IH]; intros [|c2 s2] [|c3 s3];
      cbn; try congruence.
    unfold Ascii.compare.
    destruct (N.compare_spec (N_of_ascii c1) (N_of_ascii c2)) as [E12|L12|G12];
      destruct (N.compare_spec (N_of_ascii c2) (N_of_ascii c3))
        as [E23|L23|G23];
      try congruence.
    - rewrite E12, E23, N.compare_refl. apply IH.
    - rewrite E12. intros _ _.
      rewrite (proj2 (N.compare_lt_iff _ _) L23). discriminate.
    - rewrite <- E23. intros _ _.
      rewrite (proj2 (N.compare_lt_iff _ _) L12). discriminate.
    - intros _ _.
      rewrite (proj2 (N.compare_lt_iff _ _) (N.lt_trans _ _ _ L12 L23)).
      discriminate. }
  intros H12 H23.
  specialize (H s1 s2 s3).
  destruct (String.compare s1 s2); destruct (String.compare s2 s3);
    destruct (String.compare s1 s3); try reflexivity; try discriminate;
    exfalso; apply H; congruence.
Qed.

(** Inserting two items with different keys gives the same list in
    either order. *)
Lemma insert_item_comm (a b : string * string) (l : list (string * string)) :
  fst a <> fst b ->
  insert_item a (insert_item b l) = insert_item b (insert_item a l).
Proof.
  intros Hne.
  assert (Hab : String.leb (fst a) (fst b) = true ->
                String.leb (fst b) (fst a) = true -> False).
  { intros H1 H2. apply Hne. exact (String.leb_antisym _ _ H1 H2). }
  induction l as [|x l IH].
  - cbn [insert_item].
    destruct (String.leb (fst a) (fst b)) eqn:E1;
      destruct (String.leb (fst b) (fst a)) eqn:E2; try reflexivity.
    + exfalso. exact (Hab eq_refl eq_refl).
    + destruct (String.leb_total (fst a) (fst b)); congruence.
  - cbn [insert_item].
    destruct (String.leb (fst b) (fst x)) eqn:Ebx;
      destruct (String.leb (fst a) (fst x)) eqn:Eax;
      cbn [insert_item]; rewrite ?Ebx, ?Eax.
    + destruct (String.leb (fst a) (fst b)) eqn:E1;
        destruct (String.leb (fst b) (fst a)) eqn:E2; try reflexivity.
      * exfalso. exact (Hab eq_refl eq_refl).
      * destruct (String.leb_total (fst a) (fst b)); congruence.
    + destruct (String.leb (fst a) (fst b)) eqn:E1.
      * rewrite (string_leb_trans _ _ _ E1 Ebx) in Eax. discriminate.
      * reflexivity.
    + destruct (String.leb (fst b) (fst a)) eqn:E2.
      * rewrite (string_leb_trans _ _ _ E2 Eax) in Ebx. discriminate.
      * reflexivity.
    + rewrite IH. reflexivity.
Qed.

Lemma sort_items_permutation (l l' : list (string * string)) :
  Permutation l l' ->
  List.NoDup (List.map fst l) ->
  sort_items l = sort_items l'.
Proof.
  induction 1 as [|x l l' Hperm IH|x y l|l l' l'' H1 IH1 H2 IH2];
    intros Hnd.
  - reflexivity.
  - cbn [sort_items List.fold_right]. fold (sort_items l) (sort_items l').
    rewrite IH; [reflexivity|]. cbn in Hnd.
    apply List.NoDup_cons_iff in Hnd. exact (proj2 Hnd).
  - cbn [sort_items List.fold_right]. fold (sort_items l).
    apply insert_item_comm. cbn in Hnd.
    apply List.NoDup_cons_iff in Hnd. destruct Hnd as [Hin _].
    intros E. apply Hin. left. symmetry. exact E.
  - rewrite IH1 by exact Hnd. apply IH2.
    apply (Permutation_NoDup (l := List.map fst l)); [|exact Hnd].
    apply Permutation_map. exact H1.
Qed.

(** The JSON text of a dict, and so the hash of a block, does not depend
    on the order in which its keys were inserted. *)
Theorem hash_ignores_key_order (d d' : list (string * value)) :
  Permutation d d' ->
  List.NoDup (List.map fst d) ->
  json_dumps (VDict d) = json_dumps (VDict d')
  /\ hash (VDict d) = hash (VDict d').
Proof.
  intros Hperm Hnd.
  assert (E : json_dumps (VDict d) = json_dumps (VDict d')).
  { cbn [json_dumps]. do 4 f_equal.
    apply sort_items_permutation.
    - apply Permutation_map. exact Hperm.
    - rewrite List.map_map. cbn [fst]. exact Hnd. }
  split; [exact E|]. unfold hash. rewrite E. reflexivity.
Qed.

(** *** More on the chain validator *)

Lemma pair_ok_same_fields (prev b b' : value) :
  py_item b "previous_hash" = py_item b' "previous_hash" ->
  py_item b "proof" = py_item b' "proof" ->
  pair_ok prev b = pair_ok prev b'.
Proof. intros H1 H2. unfold pair_ok. rewrite H1, H2. reflexivity. Qed.

Lemma pairs_valid_last (b b' : value) :
  py_item b "previous_hash" = py_item b' "previous_hash" ->
  py_item b "proof" = py_item b' "proof" ->
  forall (rest : list value) (first : value),
    pairs_valid first (rest ++ [b]) = pairs_valid first (rest ++ [b']).
Proof.
  intros H1 H2. induction rest as [|cur rest IH]; intros first.
  - cbn [List.app pairs_valid].
    rewrite (pair_ok_same_fields first b b' H1 H2). reflexivity.
  - cbn [List.app pairs_valid].
    destruct (pair_ok first cur) as [[|]|e|]; cbn [obind];
      [apply IH | reflexivity..].
Qed.

(** Of the last block of a chain the validator reads the fields
    previous_hash and proof only: two chains that differ in the other
    fields of their last block (index, timestamp, transactions) get the
    same verdict. *)
Theorem valid_chain_last_block_unchecked (l : list value) (b b' : value) :
  py_item b "previous_hash" = py_item b' "previous_hash" ->
  py_item b "proof" = py_item b' "proof" ->
  valid_chain (VList (l ++ [b])) = valid_chain (VList (l ++ [b'])).
Proof.
  intros H1 H2. destruct l as [|first rest].
  - cbn [List.app]. rewrite !valid_chain_pairs. reflexivity.
  - cbn [List.app]. rewrite !valid_chain_pairs.
    apply pairs_valid_last; assumption.
Qed.

(** What the validator does with a value that is not a list, as a peer
    can send: None, a bool or a number raise TypeError, a dict raises
    KeyError, the empty str raises IndexError, a str of one character
    is accepted, a longer str raises TypeError. *)
Theorem valid_chain_on_non_lists :
  valid_chain VNone = Raises TypeError
  /\ (forall b, valid_chain (VBool b) = Raises TypeError)
  /\ (forall z, valid_chain (VInt z) = Raises TypeError)
  /\ (forall f, valid_chain (VFloat f) = Raises TypeError)
  /\ (forall d, valid_chain (VDict d) = Raises KeyError)
  /\ valid_chain (VStr EmptyString) = Raises IndexError
  /\ (forall c, valid_chain (VStr (String c EmptyString)) = Returns true)
  /\ (forall c c' s,
         valid_chain (VStr (String c (String c' s))) = Raises TypeError).
Proof.
  repeat split; try reflexivity.
  intros c c' s. unfold valid_chain.
  change (py_index (VStr (String c (String c' s))) 0)
    with (Returns (VStr (String c EmptyString))).
  cbn [obind size_of String.length valid_chain_loop py_len].
  destruct (Z.ltb_spec 1 (Z.of_nat (S (S (String.length s))))); [|lia].
  change (py_index (VStr (String c (String c' s))) 1)
    with (match seq_index (list_ascii_of_string (String c (String c' s))) 1
          with
          | Some c0 => Returns (VStr (String c0 EmptyString))
          | None => Raises IndexError
          end).
  assert (E : seq_index (list_ascii_of_string (String c (String c' s))) 1
              = Some c').
  { exact (seq_index_middle [c] c' (list_ascii_of_string s)). }
  rewrite E. reflexivity.
Qed.

Lemma pairs_valid_raises (e : exn) :
  forall (rest : list value) (first : value) (k : nat) (prev cur : value),
    pairs_pass_before (first :: rest) k ->
    List.nth_error (first :: rest) k = Some prev ->
    List.nth_error (first :: rest) (S k) = Some cur ->
    pair_ok prev cur = Raises e ->
    pairs_valid first rest = Raises e.
Proof.
  induction rest as [|x rest IH]; intros first k prev cur Hpass Hprev Hcur He.
  - destruct k; discriminate.
  - destruct k as [|k].
    + cbn in Hprev, Hcur. injection Hprev as <-. injection Hcur as <-.
      cbn [pairs_valid]. rewrite He. reflexivity.
    + apply pairs_pass_before_cons in Hpass. destruct Hpass as [Hxy Hpass].
      cbn [pairs_valid]. rewrite Hxy. cbn [obind].
      exact (IH x k prev cur Hpass Hprev Hcur He).
Qed.

(** A block without the fields that the validator reads makes it raise,
    once the pairs before that block have passed: a block that is not a
    dict (TypeError) or has no previous_hash (KeyError), and, when the
    previous_hash is the right one, a block or a predecessor without a
    proof. *)
Theorem valid_chain_raises_at_malformed_block
        (first : value) (rest : list value) (k : nat) (prev cur : value)
        (e : exn) :
  pairs_pass_before (first :: rest) k ->
  List.nth_error (first :: rest) k = Some prev ->
  List.nth_error (first :: rest) (S k) = Some cur ->
  py_item cur "previous_hash" = Raises e
  \/ (py_item cur "previous_hash" = Returns (VStr (hash prev))
      /\ (py_item prev "proof" = Raises e
          \/ ((exists a, py_item prev "proof" = Returns a)
              /\ py_item cur "proof" = Raises e))) ->
  valid_chain (VList (first :: rest)) = Raises e.
Proof.
  intros Hpass Hprev Hcur Hbad. rewrite valid_chain_pairs.
  apply (pairs_valid_raises e rest first k prev cur Hpass Hprev Hcur).
  unfold pair_ok.
  destruct Hbad as [-> | [-> [-> | [[a ->] ->]]]]; cbn [obind py_ne_str];
    rewrite ?String.eqb_refl; reflexivity.
Qed.

(** *** More on consensus *)

Lemma resolve_flag_iff (get : string -> reply) (neighbors : list string)
      (self self' : Blockchain) (b : bool) (len0 : Z) :
  py_len (chain self) = Returns len0 ->
  resolve_conflicts_in get neighbors self = (Returns b, self') ->
  b = true
  <-> exists node chain', In node neighbors /\ qualifies get len0 node chain'.
Proof.
  intros Hlen. rewrite resolve_conflicts_in_run, Hlen.
  destruct (resolve_loop get neighbors (VNone, NInt len0))
    as [[new_chain ml]|e|] eqn:Hloop; try discriminate.
  assert (Hinv : resolve_inv get len0 ([] ++ neighbors) (new_chain, ml)).
  { eapply resolve_loop_inv; [|exact Hloop].
    left. repeat split. intros node chain' []. }
  cbn [List.app] in Hinv.
  destruct Hinv as [(Hnc & _ & Hnone) | (Ht & Hq & _)]; cbn [fst snd] in *.
  - subst new_chain. cbn [py_truth]. intros [= <- _].
    split; [discriminate|].
    intros (node & chain' & Hin & Hq). exfalso.
    exact (Hnone node chain' Hin Hq).
  - rewrite Ht. intros [= <- _]. split; [intros _; exact Hq | reflexivity].
Qed.

(** Whether the chain is replaced does not depend on the order in which
    the peers are visited, as long as the resolution returns in both
    orders. *)
Theorem resolve_flag_order_independent
        (get : string -> reply) (neighbors neighbors' : list string)
        (self self1 self2 : Blockchain) (b b' : bool) :
  Permutation neighbors neighbors' ->
  resolve_conflicts_in get neighbors self = (Returns b, self1) ->
  resolve_conflicts_in get neighbors' self = (Returns b', self2) ->
  b = b'.
Proof.
  intros Hperm H1 H2.
  destruct (py_len (chain self)) as [len0|e|] eqn:Hlen.
  2,3: rewrite resolve_conflicts_in_run, Hlen in H1; discriminate.
  pose proof (resolve_flag_iff get neighbors self self1 b len0 Hlen H1) as I1.
  pose proof (resolve_flag_iff get neighbors' self self2 b' len0 Hlen H2)
    as I2.
  assert (Hsame : (exists node chain', In node neighbors
                                       /\ qualifies get len0 node chain')
                  <-> (exists node chain', In node neighbors'
                                           /\ qualifies get len0 node chain')).
  { split; intros (node & chain' & Hin & Hq); exists node, chain';
      (split; [|exact Hq]).
    - exact (Permutation_in node Hperm Hin).
    - exact (Permutation_in node (Permutation_sym Hperm) Hin). }
  destruct b, b'; try reflexivity.
  - assert (false = true) by (apply I2, Hsame, I1; reflexivity).
    discriminate.
  - assert (false = true) by (apply I1, Hsame, I2; reflexivity).
    discriminate.
Qed.

Lemma greatest_step (get : string -> reply) (len0 : Z)
      (visited : list string) (node : string) (acc acc' : value * number) :
  int_lengths get (visited ++ [node]) ->
  greatest_inv get len0 visited acc ->
  resolve_step get node acc = Returns acc' ->
  greatest_inv get len0 (visited ++ [node]) acc'.
Proof.
  intros Hint (m & Hm & Hle & Hmax & Htaken) Hstep.
  destruct acc as [nc ml]. cbn [fst snd] in *. subst ml.
  assert (Hkeep : (forall z chain, answers get node (VInt z) chain ->
                                   valid_chain chain = Returns true ->
                                   z <= m) ->
                  greatest_inv get len0 (visited ++ [node]) (nc, NInt m)).
  { intros Hnode. exists m. cbn [fst snd].
    split; [reflexivity|]. split; [exact Hle|]. split.
    - intros node' z chain Hin Hans Hv. apply List.in_app_iff in Hin.
      destruct Hin as [Hin | [<- | []]].
      + exact (Hmax node' z chain Hin Hans Hv).
      + exact (Hnode z chain Hans Hv).
    - destruct Htaken as [Hnone | (n' & Hin & Hrest)]; [left; exact Hnone|].
      right. exists n'. split; [|exact Hrest].
      apply List.in_app_iff. left. exact Hin. }
  unfold resolve_step in Hstep.
  destruct (get (chain_url node)) as [e | status json] eqn:Hget;
    [discriminate|].
  destruct (Z.eqb_spec status 200) as [-> | Hstatus].
  2: { injection Hstep as <-. apply Hkeep.
       intros z chain (body & Hg & _). congruence. }
  destruct json as [body|e|]; try discriminate. cbn [obind] in Hstep.
  destruct (py_item body "length") as [length|e|] eqn:Hlength;
    try discriminate.
  cbn [obind] in Hstep.
  destruct (py_item body "chain") as [chain|e|] eqn:Hchain;
    try discriminate.
  cbn [obind] in Hstep.
  assert (Hans : answers get node length chain).
  { exists body. repeat split; assumption. }
  destruct (Hint node length chain) as (z & ->);
    [apply List.in_app_iff; right; left; reflexivity | exact Hans |].
  cbn [py_gt as_number obind num_gt] in Hstep.
  destruct (Z.ltb_spec m z) as [Hlt | Hge].
  - destruct (valid_chain chain) as [[|]|e|] eqn:Hvalid; try discriminate;
      cbn [obind] in Hstep; injection Hstep as <-.
    + exists z. cbn [fst snd]. split; [reflexivity|]. split; [lia|]. split.
      * intros node' z' chain' Hin Hans' Hv'. apply List.in_app_iff in Hin.
        destruct Hin as [Hin | [<- | []]].
        -- pose proof (Hmax node' z' chain' Hin Hans' Hv'). lia.
        -- destruct (answers_unique _ _ _ _ _ _ Hans Hans') as [E _].
           injection E as <-. lia.
      * right. exists node.
        split; [apply List.in_app_iff; right; left; reflexivity|].
        split; [exact Hans|]. split; [exact Hvalid | lia].
    + apply Hkeep. intros z' chain' Hans' Hv'.
      destruct (answers_unique _ _ _ _ _ _ Hans Hans') as [_ <-].
      congruence.
  - injection Hstep as <-. apply Hkeep. intros z' chain' Hans' _.
    destruct (answers_unique _ _ _ _ _ _ Hans Hans') as [E _].
    injection E as <-. exact Hge.
Qed.

Lemma greatest_loop (get : string -> reply) (len0 : Z) :
  forall (neighbors visited : list string) (acc acc' : value * number),
    int_lengths get (visited ++ neighbors) ->
    greatest_inv get len0 visited acc ->
    resolve_loop get neighbors acc = Returns acc' ->
    greatest_inv get len0 (visited ++ neighbors) acc'.
Proof.
  induction neighbors as [|node rest IH];
    intros visited acc acc' Hint Hinv Hrun.
  - injection Hrun as <-. rewrite List.app_nil_r. exact Hinv.
  - cbn [resolve_loop] in Hrun.
    destruct (resolve_step get node acc) as [acc1|e|] eqn:Hstep;
      try discriminate.
    cbn [obind] in Hrun.
    assert (E : visited ++ node :: rest = (visited ++ [node]) ++ rest)
      by (rewrite <- List.app_assoc; reflexivity).
    rewrite E in Hint |- *.
    eapply IH; [exact Hint | | exact Hrun].
    eapply greatest_step; [| exact Hinv | exact Hstep].
    intros n l c Hin. apply Hint.
    apply List.in_app_iff. left. exact Hin.
Qed.

(** When the peers report ints for lengths and the chain is replaced,
    the new chain is one that a peer sent with status 200, that the
    validator accepts, and whose reported length is above the length of
    the old chain and at least the reported length of every peer whose
    chain the validator accepts. *)
Theorem resolve_adopts_greatest_length
        (get : string -> reply) (neighbors : list string)
        (self self' : Blockchain) (len0 : Z) :
  int_lengths get neighbors ->
  py_len (chain self) = Returns len0 ->
  resolve_conflicts_in get neighbors self = (Returns true, self') ->
  exists (node : string) (m : Z),
    In node neighbors
    /\ answers get node (VInt m) (chain self')
    /\ valid_chain (chain self') = Returns true
    /\ len0 < m
    /\ forall node' z chain',
        In node' neighbors ->
        answers get node' (VInt z) chain' ->
        valid_chain chain' = Returns true ->
        z <= m.
Proof.
  intros Hint Hlen. rewrite resolve_conflicts_in_run, Hlen.
  destruct (resolve_loop get neighbors (VNone, NInt len0))
    as [[new_chain ml]|e|] eqn:Hloop; try discriminate.
  assert (Hinv : greatest_inv get len0 ([] ++ neighbors) (new_chain, ml)).
  { eapply greatest_loop; [exact Hint | | exact Hloop].
    exists len0. cbn [fst snd]. split; [reflexivity|]. split; [lia|].
    split; [intros node z chain [] | left; split; reflexivity]. }
  cbn [List.app] in Hinv.
  destruct Hinv as (m & Hm & Hle & Hmax & Htaken). cbn [fst snd] in *.
  destruct (py_truth new_chain) eqn:Ht; [|discriminate].
  intros [= <-]. cbn [chain].
  destruct Htaken as [[-> _] | (node & Hin & Hans & Hv & Hlt)];
    [discriminate|].
  exists node, m. repeat split; assumption.
Qed.

Lemma full_chain_run (self : Blockchain) :
  full_chain self
  = match py_len (chain self) with
    | Returns len =>
        (Returns (VDict [ ("chain", chain self); ("length", VInt len) ], 200),
         self)
    | Raises e => (Raises e, self)
    | OutOfFuel => (OutOfFuel, self)
    end.
Proof.
  unfold full_chain, bind, attr, lift, ret.
  destruct (py_len (chain self)); reflexivity.
Qed.

(** A node whose only peer serves, through the route /chain, the chain
    of a ledger made by [__init__] and calls of [mine]: the route
    /nodes/resolve adopts that chain exactly when it has more blocks
    than the local one, and says so; otherwise it keeps the local chain
    and the object is unchanged. *)
Theorem consensus_adopts_longer_mined_peer
        (get : string -> reply) (node : string) (self peer : Blockchain)
        (body : value) (len0 n : Z) :
  mined peer ->
  fst (full_chain peer) = Returns (body, 200) ->
  get (chain_url node) = Response 200 (Returns body) ->
  nodes self = {[ node ]} ->
  py_len (chain self) = Returns len0 ->
  py_len (chain peer) = Returns n ->
  consensus get self
  = if len0 <? n
    then (Returns (VDict [ ("message", VStr "Our chain got replaced");
                           ("new_chain", chain peer) ], 200),
          {| chain := chain peer;
             currentTransactions := currentTransactions self;
             nodes := nodes self |})
    else (Returns (VDict [ ("message", VStr "Our chain is authoritative");
                           ("chain", chain self) ], 200),
          self).
Proof.
  intros Hm Hfull Hget Hnodes Hlen0 Hn.
  rewrite full_chain_run, Hn in Hfull. cbn [fst] in Hfull.
  injection Hfull as <-.
  destruct (mined_well_mined peer Hm) as (l0 & last & Hc & Hpass & _).
  pose proof (passing_chain_valid l0 last Hpass) as Hvalid.
  rewrite <- Hc in Hvalid.
  assert (Htruth : py_truth (chain peer) = true).
  { rewrite Hc. destruct l0; reflexivity. }
  unfold consensus, bind at 1, resolve_conflicts.
  rewrite Hnodes, elements_singleton.
  rewrite resolve_conflicts_in_run, Hlen0.
  cbn [resolve_loop]. unfold resolve_step. rewrite Hget.
  cbn [Z.eqb Pos.eqb obind py_item assoc String.eqb Ascii.eqb Bool.eqb
       py_gt as_number num_gt].
  destruct (len0 <? n).
  - rewrite Hvalid. cbn [obind fst]. rewrite Htruth.
    unfold bind, attr, ret. cbn [chain]. rewrite Hnodes. reflexivity.
  - cbn [obind fst py_truth]. unfold bind, attr, ret. reflexivity.
Qed.

(** *** The routes *)

Lemma all_in_dict (d : list (string * value)) :
  all_in ["sender"; "recipient"; "amount"] (VDict d)
  = Returns (match assoc "sender" d, assoc "recipient" d, assoc "amount" d
             with
             | Some _, Some _, Some _ => true
             | _, _, _ => false
             end).
Proof.
  cbn [all_in py_in obind].
  destruct (assoc "sender" d); [|reflexivity].
  destruct (assoc "recipient" d); [|reflexivity].
  destruct (assoc "amount" d); reflexivity.
Qed.

(** The route /transactions/new on a JSON object.  When one of the
    three fields is missing, the answer is 400 with the text
    'Missing values: {k}' as it stands, and nothing is stored.  When
    the three fields are there, the transaction goes through
    [new_transaction]: the answer is 200 and names the index that
    [new_transaction] returns, and an exception of [new_transaction]
    leaves the route with the transaction stored.  A body that is
    None, a bool or a number raises TypeError and stores nothing. *)
Theorem new_transactions_checks_fields (values : value) (self : Blockchain) :
  (forall (d : list (string * value)) (k : string),
      values = VDict d ->
      In k ["sender"; "recipient"; "amount"] ->
      assoc k d = None ->
      new_transactions values self
      = (Returns (VStr "Missing values: {k}", 400), self))
  /\ (forall (d : list (string * value)) (sender recipient amount : value),
         values = VDict d ->
         assoc "sender" d = Some sender ->
         assoc "recipient" d = Some recipient ->
         assoc "amount" d = Some amount ->
         new_transactions values self
         = (match fst (new_transaction sender recipient amount self) with
            | Returns index =>
                Returns (VDict [ ("message",
                                  VStr ("Transaction will be added to Block "
                                        +:+ py_str index)) ], 200)
            | Raises e => Raises e
            | OutOfFuel => OutOfFuel
            end,
            {| chain := chain self;
               currentTransactions :=
                 currentTransactions self
                 ++ [transaction sender recipient amount];
               nodes := nodes self |}))
  /\ (as_number values <> None \/ values = VNone ->
      new_transactions values self = (Raises TypeError, self)).
Proof.
  split; [|split].
  - intros d k -> Hk Hmiss.
    unfold new_transactions, bind at 1, lift. rewrite all_in_dict.
    assert (E : match assoc "sender" d, assoc "recipient" d,
                      assoc "amount" d with
                | Some _, Some _, Some _ => true
                | _, _, _ => false
                end = false).
    { destruct Hk as [<- | [<- | [<- | []]]]; rewrite Hmiss;
        repeat (match goal with
                | |- context [match assoc ?k ?d with _ => _ end] =>
                    destruct (assoc k d)
                end); reflexivity. }
    rewrite E. reflexivity.
  - intros d sender recipient amount -> Hs Hr Ha.
    unfold new_transactions, bind at 1, lift. rewrite all_in_dict.
    rewrite Hs, Hr, Ha. cbn [negb].
    unfold bind, lift. cbn [py_item]. rewrite Hs, Hr, Ha.
    rewrite new_transaction_run. cbn [fst].
    destruct (last <- py_index (chain self) (-1) ;;
              index <- py_item last "index" ;; py_add_one index)%outcome;
      reflexivity.
  - intros Hv. destruct values; cbn in Hv;
      try reflexivity; destruct Hv; congruence.
Qed.

Lemma with_nodes_twice (self : Blockchain) (ns ns' : gset string) :
  with_nodes (with_nodes self ns) ns' = with_nodes self ns'.
Proof. reflexivity. Qed.

Lemma for_each_app {A : Type} (f : A -> M unit) (l1 l2 : list A)
      (self : Blockchain) :
  for_each f (l1 ++ l2) self
  = (_ <- for_each f l1 ;; for_each f l2)%method self.
Proof.
  revert self. induction l1 as [|x l1 IH]; intros self.
  - reflexivity.
  - cbn [List.app for_each]. unfold bind.
    destruct (f x self) as [[[]|e|] self1]; [|reflexivity..].
    rewrite IH. reflexivity.
Qed.

Lemma register_node_normal_form (address n : string) (self : Blockchain) :
  normal_form address = Some n ->
  register_node address self
  = (Returns tt, with_nodes self (nodes self ∪ {[ n ]})).
Proof.
  unfold normal_form. intros Hn.
  destruct (urlparse address) as [p|e|] eqn:Hp; try discriminate.
  rewrite (register_node_run address self p Hp), Hn. reflexivity.
Qed.

(** Registering addresses that all have a normal form, one after the
    other. *)
Lemma for_each_register (urlparse_other : value -> outcome ParseResult) :
  forall (addresses : list string) (self : Blockchain),
    (forall a, In a addresses -> normal_form a <> None) ->
    for_each (register_node_value urlparse_other)
             (List.map VStr addresses) self
    = (Returns tt,
       with_nodes self (nodes self ∪ normal_forms addresses)).
Proof.
  induction addresses as [|a rest IH]; intros self Hall.
  - cbn [List.map for_each normal_forms]. unfold ret.
    assert (E : nodes self ∪ ∅ = nodes self) by set_solver.
    rewrite E, with_nodes_same. reflexivity.
  - destruct (normal_form a) as [n|] eqn:Hn;
      [|exfalso; apply (Hall a); [left; reflexivity | exact Hn]].
    cbn [List.map for_each normal_forms register_node_value].
    unfold bind. rewrite (register_node_normal_form a n self Hn).
    rewrite IH by (intros a' Hin; apply Hall; right; exact Hin).
    rewrite Hn, with_nodes_twice. cbn [nodes with_nodes].
    assert (E : nodes self ∪ {[ n ]} ∪ normal_forms rest
                = nodes self ∪ ({[ n ]} ∪ normal_forms rest)) by set_solver.
    rewrite E. reflexivity.
Qed.

(** The route /nodes/register, when the field nodes holds strs that all
    have a normal form (a list of them, or also the characters of a str
    or the keys of a dict): every address is registered, the answer is
    201 and lists the entries of the node set, each one once.  Nothing
    is said of the order of the listing, which in Python is the order
    of the set and not a fixed one. *)
Theorem register_nodes_registers_all
        (urlparse_other : value -> outcome ParseResult)
        (values given : value) (addresses : list string)
        (self : Blockchain) :
  py_get values "nodes" = Returns given ->
  given <> VNone ->
  py_iter given = Returns (List.map VStr addresses) ->
  (forall a, In a addresses -> normal_form a <> None) ->
  let ns := nodes self ∪ normal_forms addresses in
  exists listed : list string,
    List.NoDup listed
    /\ (forall a : string, In a listed <-> a ∈ ns)
    /\ register_nodes urlparse_other values self
       = (Returns (VDict [ ("message", VStr "New nodes have been added");
                           ("total_nodes", VList (List.map VStr listed)) ],
                   201),
          with_nodes self ns).
Proof.
  intros Hget Hgiven Hiter Hall ns. exists (elements ns).
  split; [apply NoDup_ListNoDup, NoDup_elements|].
  split.
  { intros a. rewrite <- list_elem_of_In. apply elem_of_elements. }
  unfold register_nodes, bind at 1, lift. rewrite Hget.
  assert (E : forall (A : Type) (x y : A),
             match given with VNone => x | _ => y end = y).
  { intros A x y. destruct given; try reflexivity. contradiction. }
  rewrite E. unfold bind at 1, lift. rewrite Hiter.
  unfold bind at 1. rewrite (for_each_register _ addresses self Hall).
  reflexivity.
Qed.

(** The route /nodes/register when it fails.  Without a field nodes, or
    with null for it, the answer is 400; a body that is not a JSON
    object raises AttributeError; in both cases nothing is registered.
    At the first address without network location and path the route
    raises ValueError, and the addresses before it stay registered. *)
Theorem register_nodes_failures
        (urlparse_other : value -> outcome ParseResult)
        (values : value) (self : Blockchain) :
  (py_get values "nodes" = Returns VNone ->
   register_nodes urlparse_other values self
   = (Returns (VStr "Error, please supply a valid list of nodes", 400),
      self))
  /\ ((forall d, values <> VDict d) ->
      register_nodes urlparse_other values self
      = (Raises AttributeError, self))
  /\ (forall (given : value) (before after : list string) (bad : string)
             (p : ParseResult),
         py_get values "nodes" = Returns given ->
         py_iter given = Returns (List.map VStr (before ++ bad :: after)) ->
         (forall a, In a before -> normal_form a <> None) ->
         urlparse bad = Returns p ->
         normalized p = None ->
         register_nodes urlparse_other values self
         = (Raises (ValueError "Invalid URL"),
            with_nodes self (nodes self ∪ normal_forms before))).
Proof.
  split; [|split].
  - intros Hget. unfold register_nodes, bind at 1, lift. rewrite Hget.
    reflexivity.
  - intros Hnd. unfold register_nodes, bind at 1, lift.
    destruct values; try reflexivity. exfalso. exact (Hnd d eq_refl).
  - intros given before after bad p Hget Hiter Hall Hp Hbad.
    unfold register_nodes, bind at 1, lift. rewrite Hget.
    assert (Hgiven : given <> VNone) by (intros ->; discriminate).
    assert (E : forall (A : Type) (x y : A),
               match given with VNone => x | _ => y end = y).
    { intros A x y. destruct given; try reflexivity. contradiction. }
    rewrite E. unfold bind at 1, lift. rewrite Hiter.
    unfold bind at 1. rewrite List.map_app, for_each_app.
    unfold bind at 1. rewrite (for_each_register _ before self Hall).
    cbn [List.map for_each register_node_value]. unfold bind at 1.
    rewrite (register_node_run bad _ p Hp), Hbad. reflexivity.
Qed.

Lemma deregister_node_value_on_empty
      (urlparse_other : value -> outcome ParseResult) (address : value)
      (self : Blockchain) :
  size (nodes self) = 0%nat ->
  deregister_node_value urlparse_other address self = (Returns tt, self).
Proof.
  intros Hsize.
  destruct address; cbn [deregister_node_value];
    unfold deregister_node, bind, attr, ret; cbn beta;
    rewrite bool_decide_true by exact Hsize; reflexivity.
Qed.

Lemma for_each_deregister_on_empty
      (urlparse_other : value -> outcome ParseResult) :
  forall (items : list value) (self : Blockchain),
    size (nodes self) = 0%nat ->
    for_each (deregister_node_value urlparse_other) items self
    = (Returns tt, self).
Proof.
  induction items as [|x items IH]; intros self Hsize; [reflexivity|].
  cbn [for_each]. unfold bind.
  rewrite (deregister_node_value_on_empty _ x self Hsize).
  exact (IH self Hsize).
Qed.

(** The route /nodes/deRegister stops looking at the addresses once the
    node set is empty.  On an empty node set it answers 201 whatever
    the items of the field nodes are, strs or not, well formed or not.
    When the node set holds one entry and the first address has it for
    normal form, the entry is removed and the remaining items are
    ignored in the same way. *)
Theorem deregister_nodes_stops_at_empty_set
        (urlparse_other : value -> outcome ParseResult)
        (values given : value) (self : Blockchain) :
  py_get values "nodes" = Returns given ->
  given <> VNone ->
  (forall items : list value,
      py_iter given = Returns items ->
      nodes self = ∅ ->
      deregister_nodes urlparse_other values self
      = (Returns (VDict [ ("message", VStr "Nodes de-registered");
                          ("total_nodes", VList []) ], 201),
         self))
  /\ (forall (first n : string) (items : list value),
         py_iter given = Returns (VStr first :: items) ->
         normal_form first = Some n ->
         nodes self = {[ n ]} ->
         deregister_nodes urlparse_other values self
         = (Returns (VDict [ ("message", VStr "Nodes de-registered");
                             ("total_nodes", VList []) ], 201),
            with_nodes self ∅)).
Proof.
  intros Hget Hgiven.
  assert (E : forall (A : Type) (x y : A),
             match given with VNone => x | _ => y end = y).
  { intros A x y. destruct given; try reflexivity. contradiction. }
  split.
  - intros items Hiter Hempty.
    unfold deregister_nodes, bind at 1, lift. rewrite Hget, E.
    unfold bind at 1, lift. rewrite Hiter. unfold bind at 1.
    rewrite for_each_deregister_on_empty
      by (rewrite Hempty; apply size_empty).
    unfold bind, attr, ret, node_list. rewrite Hempty, elements_empty.
    reflexivity.
  - intros first n items Hiter Hn Hnodes.
    unfold deregister_nodes, bind at 1, lift. rewrite Hget, E.
    unfold bind at 1, lift. rewrite Hiter. unfold bind at 1.
    cbn [for_each deregister_node_value]. unfold bind at 1.
    unfold normal_form in Hn.
    destruct (urlparse first) as [p|e|] eqn:Hp; try discriminate.
    rewrite (deregister_node_run first self p); [| | exact Hp].
    2: { rewrite Hnodes, size_singleton. discriminate. }
    rewrite Hn, bool_decide_true by (rewrite Hnodes; set_solver).
    assert (Hnone : nodes self ∖ {[ n ]} = ∅) by (rewrite Hnodes; set_solver).
    rewrite Hnone.
    rewrite for_each_deregister_on_empty by apply size_empty.
    unfold bind, attr, ret, node_list. cbn [nodes with_nodes].
    rewrite elements_empty. reflexivity.
Qed.

(** *** More on the node registry *)

(** Two addresses with the same normal form, such as host:port and
    http://host:port: registering one and deregistering the other
    gives back the object as it was, when the normal form was not in
    the node set; and on an empty node set the route /nodes lists,
    after the registration, exactly that normal form. *)
Theorem register_then_deregister_other_form
        (a1 a2 n : string) (self : Blockchain) :
  normal_form a1 = Some n ->
  normal_form a2 = Some n ->
  (n ∉ nodes self ->
   (_ <- register_node a1 ;; deregister_node a2)%method self
   = (Returns tt, self))
  /\ (nodes self = ∅ ->
      (_ <- register_node a1 ;; all_nodes)%method self
      = (Returns (VDict [ ("message", VStr "All registered nodes");
                          ("total_nodes", VList [VStr n]) ], 201),
         with_nodes self {[ n ]})).
Proof.
  intros H1 H2. split.
  - intros Hfresh. unfold bind at 1.
    rewrite (register_node_normal_form a1 n self H1).
    unfold normal_form in H2.
    destruct (urlparse a2) as [p|e|] eqn:Hp; try discriminate.
    rewrite (deregister_node_run a2 _ p); [| | exact Hp].
    2: { cbn [nodes with_nodes]. intros Hsize.
         apply size_empty_inv in Hsize. set_solver. }
    rewrite H2. cbn [nodes with_nodes].
    rewrite bool_decide_true by set_solver.
    rewrite with_nodes_twice.
    assert (E : (nodes self ∪ {[ n ]}) ∖ {[ n ]} = nodes self) by set_solver.
    rewrite E. apply (f_equal (fun s => (Returns tt, s))).
    apply with_nodes_same.
  - intros Hempty. unfold bind at 1.
    rewrite (register_node_normal_form a1 n self H1).
    unfold all_nodes, bind, attr, ret, node_list. cbn [nodes with_nodes].
    assert (E : nodes self ∪ {[ n ]} = ({[ n ]} : gset string))
      by (rewrite Hempty; set_solver).
    rewrite E, elements_singleton. reflexivity.
Qed.

(** [deregister_node] on a non-empty node set, for an address with the
    normal form [n].  A member is removed: the node set loses [n] and
    nothing else, and has one entry less.  For a non-member
    [set.remove] raises KeyError and the object is unchanged. *)
Theorem deregister_node_member_or_not
        (address n : string) (self : Blockchain) :
  normal_form address = Some n ->
  (n ∈ nodes self ->
   deregister_node address self
   = (Returns tt, with_nodes self (nodes self ∖ {[ n ]}))
   /\ S (size (nodes self ∖ {[ n ]})) = size (nodes self)
   /\ forall m, m ∈ nodes self ∖ {[ n ]} <-> m ∈ nodes self /\ m <> n)
  /\ (n ∉ nodes self ->
      nodes self <> ∅ ->
      deregister_node address self = (Raises KeyError, self)).
Proof.
  unfold normal_form. intros Hn.
  destruct (urlparse address) as [p|e|] eqn:Hp; try discriminate.
  split.
  - intros Hin.
    assert (Hsize : size (nodes self) <> 0%nat).
    { intros Hs. apply size_empty_inv in Hs. set_solver. }
    rewrite (deregister_node_run address self p Hsize Hp), Hn.
    rewrite bool_decide_true by exact Hin.
    split; [reflexivity|]. split.
    + pose proof (size_union_alt {[ n ]} (nodes self)) as Hu.
      assert (E : {[ n ]} ∪ nodes self = nodes self) by set_solver.
      rewrite E, size_singleton in Hu. lia.
    + intros m. set_solver.
  - intros Hout Hne.
    assert (Hsize : size (nodes self) <> 0%nat).
    { intros Hs. apply size_empty_inv in Hs. apply Hne.
      apply leibniz_equiv. exact Hs. }
    rewrite (deregister_node_run address self p Hsize Hp), Hn.
    rewrite bool_decide_false by exact Hout. reflexivity.
Qed.

(** [register_node], however it ends.  An exception of [urlparse]
    leaves the method and an address with neither network location nor
    path raises ValueError, both with the object unchanged.  Otherwise
    the node set gains the network location if there is one, even when
    there is a path too, and else the path; no entry is lost, and the
    set grows by one entry exactly when the normal form is new. *)
Theorem register_node_effect (address : string) (self : Blockchain) :
  (forall e, urlparse address = Raises e ->
             register_node address self = (Raises e, self))
  /\ (forall p, urlparse address = Returns p ->
                normalized p = None ->
                register_node address self
                = (Raises (ValueError "Invalid URL"), self))
  /\ (forall p n,
         urlparse address = Returns p ->
         normalized p = Some n ->
         register_node address self
         = (Returns tt, with_nodes self (nodes self ∪ {[ n ]}))
         /\ (nonempty (netloc p) = true -> n = netloc p)
         /\ (nonempty (netloc p) = false -> n = path p)
         /\ nodes self ⊆ nodes self ∪ {[ n ]}
         /\ size (nodes self ∪ {[ n ]})
            = if bool_decide (n ∈ nodes self) then size (nodes self)
              else S (size (nodes self))).
Proof.
  split; [|split].
  - intros e He. unfold register_node, bind, lift. rewrite He. reflexivity.
  - intros p Hp Hn. rewrite (register_node_run address self p Hp), Hn.
    reflexivity.
  - intros p n Hp Hn. rewrite (register_node_run address self p Hp), Hn.
    split; [reflexivity|]. unfold normalized in Hn.
    split; [|split; [|split]].
    + intros Hnet. rewrite Hnet in Hn. congruence.
    + intros Hnet. rewrite Hnet in Hn.
      destruct (nonempty (path p)); congruence.
    + set_solver.
    + case_bool_decide as Hin.
      * assert (E : nodes self ∪ {[ n ]} = nodes self) by set_solver.
        rewrite E. reflexivity.
      * rewrite size_union by set_solver. rewrite size_singleton. lia.
Qed.

(** *** The proofs of a mined chain *)

Lemma adjacent_snoc (P : value -> value -> Prop) (l0 : list value)
      (last b : value) :
  (forall n prev cur,
      List.nth_error (l0 ++ [last]) n = Some prev ->
      List.nth_error (l0 ++ [last]) (S n) = Some cur -> P prev cur) ->
  P last b ->
  forall n prev cur,
    List.nth_error ((l0 ++ [last]) ++ [b]) n = Some prev ->
    List.nth_error ((l0 ++ [last]) ++ [b]) (S n) = Some cur -> P prev cur.
Proof.
  intros Hl Hb n prev cur Hprev Hcur.
  assert (Hlen : List.length (l0 ++ [last]) = S (List.length l0)).
  { rewrite List.length_app. cbn. lia. }
  destruct (Nat.lt_ge_cases (S n) (List.length (l0 ++ [last])))
    as [Hlt|Hge].
  - rewrite List.nth_error_app1 in Hprev by lia.
    rewrite List.nth_error_app1 in Hcur by lia.
    exact (Hl n prev cur Hprev Hcur).
  - destruct (Nat.eq_dec (S n) (List.length (l0 ++ [last]))) as [He|Hne].
    + rewrite List.nth_error_app2 in Hcur by lia.
      rewrite He, Nat.sub_diag in Hcur. injection Hcur as <-.
      rewrite List.nth_error_app1 in Hprev by lia.
      assert (n = List.length l0) as -> by lia.
      rewrite List.nth_error_app2 in Hprev by lia.
      rewrite Nat.sub_diag in Hprev. injection Hprev as <-.
      exact Hb.
    + assert (Hnone : List.nth_error ((l0 ++ [last]) ++ [b]) (S n) = None).
      { apply List.nth_error_None. rewrite List.length_app. cbn. lia. }
      congruence.
Qed.

Lemma mined_least_proofs (self : Blockchain) :
  mined self ->
  exists (l0 : list value) (last : value),
    chain self = VList (l0 ++ [last])
    /\ (exists a : Z, py_item last "proof" = Returns (VInt a))
    /\ forall n prev cur,
        List.nth_error (l0 ++ [last]) n = Some prev ->
        List.nth_error (l0 ++ [last]) (S n) = Some cur ->
        least_proof_after prev cur.
Proof.
  induction 1 as [now | self fuel id now o self' _ IH Hrun].
  - rewrite init_run. exists [], (genesis now). split; [reflexivity|].
    split; [exists 100; reflexivity|].
    intros [|n] prev cur Hprev Hcur; cbn in Hcur; [discriminate|].
    destruct n; discriminate.
  - destruct IH as (l0 & last & Hc & (a & Ha) & Hl).
    destruct self as [c pool ns]. cbn in Hc. subst c.
    rewrite mine_run in Hrun. cbv zeta in Hrun.
    destruct (proof_of_work fuel last) as [p|e|] eqn:Hp.
    2,3: injection Hrun as _ <-; exists l0, last;
         split; [reflexivity | split; [exists a; exact Ha | exact Hl]].
    destruct (index <- py_item last "index" ;; py_add_one index)%outcome
      as [v|e|].
    2,3: injection Hrun as _ <-; exists l0, last;
         split; [reflexivity | split; [exists a; exact Ha | exact Hl]].
    injection Hrun as _ <-.
    eexists (l0 ++ [last]), _. split; [reflexivity|].
    split; [exists p; reflexivity|].
    apply adjacent_snoc; [exact Hl|].
    unfold proof_of_work in Hp. rewrite Ha in Hp. cbn [obind] in Hp.
    destruct (proof_of_work_loop_sound _ _ fuel 0 p Hp)
      as (Hle & Hv & Hleast).
    exists a, p. repeat split; try assumption.
Qed.

(** In every chain made by [__init__] and calls of [mine] only, for
    every index [i > 0], the proofs of the blocks [i - 1] and [i] are
    ints, and the proof of block [i] is the least non-negative integer
    that satisfies the predicate for the proof and the hash of block
    [i - 1]. *)
Theorem mined_chain_proofs_least (self : Blockchain) :
  mined self ->
  forall (i : Z) (prev cur : value),
    0 < i ->
    py_index (chain self) (i - 1) = Returns prev ->
    py_index (chain self) i = Returns cur ->
    exists a b : Z,
      py_item prev "proof" = Returns (VInt a)
      /\ py_item cur "proof" = Returns (VInt b)
      /\ 0 <= b
      /\ valid_proof (VInt a) (VInt b) (hash prev) = true
      /\ forall q, 0 <= q < b ->
                   valid_proof (VInt a) (VInt q) (hash prev) = false.
Proof.
  intros Hm i prev cur Hi Hprev Hcur.
  destruct (mined_least_proofs self Hm) as (l0 & last & Hc & _ & Hl).
  rewrite Hc in Hprev, Hcur.
  apply py_index_list in Hprev; [|lia].
  apply py_index_list in Hcur; [|lia].
  replace (Z.to_nat i) with (S (Z.to_nat (i - 1))) in Hcur by lia.
  exact (Hl _ prev cur Hprev Hcur).
Qed.

End Program.


(** ** The script BasicPowMiner.py *)

Lemma miner_search_sound :
  forall (fuel : nat) (start r : Z),
    BasicPowMiner.search fuel start = Returns r ->
    start <= r
    /\ BasicPowMiner.found r = true
    /\ forall q, start <= q < r -> BasicPowMiner.found q = false.
Proof.
  induction fuel as [|fuel IH]; intros start r Hrun; [discriminate|].
  cbn [BasicPowMiner.search] in Hrun. fold (BasicPowMiner.found start) in Hrun.
  destruct (BasicPowMiner.found start) eqn:E; cbn [negb] in Hrun.
  - injection Hrun as <-. repeat split; [lia | exact E | intros q Hq; lia].
  - destruct (IH (start + 1) r Hrun) as (Hle & Hr & Hleast).
    repeat split; [lia | exact Hr |].
    intros q Hq. destruct (Z.eq_dec q start) as [->|Hne]; [exact E|].
    apply Hleast. lia.
Qed.

Lemma miner_search_finds :
  forall (n : nat) (start : Z),
    BasicPowMiner.found (start + Z.of_nat n) = true ->
    exists r : Z,
      BasicPowMiner.search (S n) start = Returns r
      /\ r <= start + Z.of_nat n.
Proof.
  induction n as [|n IH]; intros start Hf.
  - replace (start + Z.of_nat 0) with start in Hf by lia.
    exists start. cbn [BasicPowMiner.search].
    fold (BasicPowMiner.found start). rewrite Hf. split; [reflexivity | lia].
  - destruct (BasicPowMiner.found start) eqn:E.
    + exists start. cbn [BasicPowMiner.search].
      fold (BasicPowMiner.found start). rewrite E.
      split; [reflexivity | lia].
    + replace (start + Z.of_nat (S n)) with (start + 1 + Z.of_nat n)
        in Hf by lia.
      destruct (IH (start + 1) Hf) as (r & Hrun & Hle).
      exists r. split; [|lia].
      change (BasicPowMiner.search (S (S n)) start)
        with (if negb (BasicPowMiner.found start)
              then BasicPowMiner.search (S n) (start + 1)
              else Returns start).
      rewrite E. exact Hrun.
Qed.

(** [create_hash] with a count that is zero or negative hashes the
    empty text, whatever the str is: [x * y] is then empty. *)
Lemma create_hash_no_copies (s : string) (n : Z) :
  n <= 0 -> BasicPowMiner.create_hash s n = Sha256.hexdigest [].
Proof.
  intros Hn. unfold BasicPowMiner.create_hash, BasicPowMiner.str_mul.
  replace (Z.to_nat n) with 0%nat by lia. reflexivity.
Qed.

(** The loop of the script.  Whatever it ends with is the least
    [y >= 0] for which the digest of [y] copies of 'Hello World' starts
    with four zeros, and is at least 1, because for [y = 0] the text is
    empty and its digest starts with e3b0.  The loop ends as soon as
    such a [y] exists. *)
Theorem miner_finds_least :
  BasicPowMiner.found 0 = false
  /\ (forall (fuel : nat) (r : Z),
         BasicPowMiner.y fuel = Returns r ->
         1 <= r
         /\ (forall i : nat,
                (i < 4)%nat ->
                String.get i (BasicPowMiner.create_hash BasicPowMiner.x r)
                = Some "0"%char)
         /\ forall q, 0 <= q < r -> BasicPowMiner.found q = false)
  /\ (forall q : Z,
         0 <= q ->
         BasicPowMiner.found q = true ->
         exists (fuel : nat) (r : Z),
           BasicPowMiner.y fuel = Returns r /\ r <= q).
Proof.
  assert (H0 : BasicPowMiner.found 0 = false).
  { unfold BasicPowMiner.found.
    rewrite (create_hash_no_copies BasicPowMiner.x 0) by lia.
    vm_compute. reflexivity. }
  split; [exact H0|]. split.
  - intros fuel r Hrun. unfold BasicPowMiner.y in Hrun.
    destruct (miner_search_sound fuel 0 r Hrun) as (Hle & Hr & Hleast).
    split; [|split; [|exact Hleast]].
    + destruct (Z.eq_dec r 0) as [->|Hne]; [congruence | lia].
    + apply prefix4_zero. exact Hr.
  - intros q Hq Hf.
    destruct (miner_search_finds (Z.to_nat q) 0) as (r & Hrun & Hle).
    { replace (0 + Z.of_nat (Z.to_nat q)) with q by lia. exact Hf. }
    exists (S (Z.to_nat q)), r. split; [exact Hrun | lia].
Qed.

(** ** Concrete runs

    The functions run on the data above, with [repr_whole_float] for
    [float.__repr__] and [urlparse_hostport] for [urlparse]. *)

Abbreviation rwf := repr_whole_float.
Abbreviation uhp := urlparse_hostport.

Example sha256_abc :
  Sha256.hexdigest (encode "abc")
  = "ba7816bf8f01cfea414140de5dae2223b00361a396177a9cb410ff61f20015ad".
Proof. vm_compute. reflexivity. Qed.

Example sha256_empty :
  Sha256.hexdigest []
  = "e3b0c44298fc1c149afbf4c8996fb92427ae41e4649b934ca495991b7852b855".
Proof. vm_compute. reflexivity. Qed.

Example sha256_two_blocks :
  Sha256.hexdigest
    (encode "abcdbcdecdefdefgefghfghighijhijkijkljklmklmnlmnomnopnopq")
  = "248d6a61d20638b8e5c026930c3e6039a33ce45964ff2167f6ecedd419db06c1".
Proof. vm_compute. reflexivity. Qed.

Example genesis_json :
  json_dumps rwf (genesis (seconds 1700002596))
  = "{" +:+ quote +:+ "index" +:+ quote +:+ ": 1, "
        +:+ quote +:+ "previous_hash" +:+ quote +:+ ": 1, "
        +:+ quote +:+ "proof" +:+ quote +:+ ": 100, "
        +:+ quote +:+ "timestamp" +:+ quote +:+ ": 1700002596.0, "
        +:+ quote +:+ "transactions" +:+ quote +:+ ": []}".
Proof. vm_compute. reflexivity. Qed.

Example genesis_hash :
  hash rwf (genesis (seconds 1700002596))
  = "abf15b4ff4c832c5506aec078cbeec41261dc1f96bc05d7ce5af06c2832649ca".
Proof. vm_compute. reflexivity. Qed.

Example init_fresh_ledger :
  __init__ rwf (seconds 1700002596)
  = (Returns (genesis (seconds 1700002596)), fresh_ledger).
Proof. reflexivity. Qed.

Example proof_of_work_genesis :
  proof_of_work rwf 4 (genesis (seconds 1700002596)) = Returns 3.
Proof. vm_compute. reflexivity. Qed.

Example mine_fresh_ledger :
  mine rwf 4 node0 (seconds 1700023670) fresh_ledger
  = (Returns (forged_response mined_block, 200), mined_ledger).
Proof. vm_compute. reflexivity. Qed.

Example valid_chain_mined :
  valid_chain rwf (chain mined_ledger) = Returns true.
Proof. vm_compute. reflexivity. Qed.

Example valid_chain_wrong_proof :
  valid_chain rwf
    (VList [ genesis (seconds 1700002596);
             VDict [ ("index", VInt 2);
                     ("timestamp", VFloat (seconds 1700023670));
                     ("transactions", VList [reward node0]);
                     ("proof", VInt 4);
                     ("previous_hash",
                      VStr (hash rwf (genesis (seconds 1700002596)))) ] ])
  = Returns false.
Proof. vm_compute. reflexivity. Qed.

Example valid_chain_wrong_hash :
  valid_chain rwf
    (VList [ genesis (seconds 1700002596);
             VDict [ ("index", VInt 2);
                     ("timestamp", VFloat (seconds 1700023670));
                     ("transactions", VList [reward node0]);
                     ("proof", VInt 3);
                     ("previous_hash", VInt 1) ] ])
  = Returns false.
Proof. vm_compute. reflexivity. Qed.

Example register_both_forms :
  nodes (snd (register_node uhp "http://192.168.0.10:5005" fresh_ledger))
  = nodes (snd (register_node uhp "192.168.0.10:5005" fresh_ledger)).
Proof. vm_compute. reflexivity. Qed.

(** A non-member of a non-empty node set: [set.remove] raises. *)
Example deregister_non_member :
  deregister_node uhp peer_b (with_nodes fresh_ledger {[ peer_a ]})
  = (Raises KeyError, with_nodes fresh_ledger {[ peer_a ]}).
Proof. vm_compute. reflexivity. Qed.

(** *** The theorems at concrete inputs *)

Lemma mined_ledger_is_mined : mined rwf mined_ledger.
Proof.
  apply (mined_mine rwf fresh_ledger 4 node0 (seconds 1700023670)
                    (Returns (forged_response mined_block, 200))).
  - exact (mined_fresh rwf (seconds 1700002596)).
  - vm_compute. reflexivity.
Defined.

(** The ledger of a node that registered a peer, took a transaction
    and then mined. *)
Lemma paid_ledger_is_operated : operated rwf uhp paid_ledger.
Proof.
  apply (operated_mine rwf uhp
           (snd (new_transaction (VStr "alice") (VStr "bob") (VInt 5)
                   (with_nodes fresh_ledger {[ peer_a ]})))
           4 node0 (seconds 1700008601)
           (Returns (forged_response paid_block, 200))).
  - apply (operated_new_transaction rwf uhp
             (with_nodes fresh_ledger {[ peer_a ]})
             (VStr "alice") (VStr "bob") (VInt 5) (Returns (VInt 2))).
    + apply (operated_register_node rwf uhp
               (snd (__init__ rwf (seconds 1700002596)))
               urlparse_number (VStr "http://192.168.0.10:5005")
               (Returns tt)).
      * exact (operated_fresh rwf uhp (seconds 1700002596)).
      * vm_compute. reflexivity.
    + reflexivity.
  - vm_compute. reflexivity.
Defined.

(** C1 on that ledger: block 2, which holds the submitted transaction
    and the reward, carries the hash of the genesis block. *)
Lemma mined_chain_hash_linked_witness :
  operated rwf uhp paid_ledger
  /\ py_item paid_block "previous_hash"
     = Returns (VStr (hash rwf (genesis (seconds 1700002596))))
  /\ hash rwf (genesis (seconds 1700002596))
     = Sha256.hexdigest
         (encode (json_dumps rwf (genesis (seconds 1700002596)))).
Proof.
  split; [exact paid_ledger_is_operated|].
  destruct (mined_chain_hash_linked rwf uhp paid_ledger
              paid_ledger_is_operated) as [_ Hlinked].
  apply (Hlinked 1 (genesis (seconds 1700002596)) paid_block).
  - lia.
  - reflexivity.
  - reflexivity.
Defined.

(** C5 on the genesis block: 3 satisfies the predicate, so the search
    returns. *)
Lemma proof_of_work_minimal_witness :
  0 <= 3
  /\ valid_proof rwf (VInt 100) (VInt 3)
                 (hash rwf (genesis (seconds 1700002596))) = true
  /\ exists (p0 : Z) (fuel : nat),
      proof_of_work rwf fuel (genesis (seconds 1700002596)) = Returns p0
      /\ 0 <= p0 <= 3
      /\ forall q, 0 <= q < p0 ->
                   valid_proof rwf (VInt 100) (VInt q)
                     (hash rwf (genesis (seconds 1700002596))) = false.
Proof.
  assert (Hp : 0 <= 3) by lia.
  assert (Hv : valid_proof rwf (VInt 100) (VInt 3)
                 (hash rwf (genesis (seconds 1700002596))) = true).
  { vm_compute. reflexivity. }
  split; [exact Hp|]. split; [exact Hv|].
  destruct (proof_of_work_minimal rwf (VInt 100)
              (hash rwf (genesis (seconds 1700002596))) 3 Hp Hv)
    as (p0 & fuel & _ & Hpow & Hrange & _ & Hleast & _).
  exists p0, fuel. split.
  - apply (Hpow (genesis (seconds 1700002596)) fuel (Nat.le_refl fuel)
                eq_refl eq_refl).
  - split; [exact Hrange | exact Hleast].
Defined.


(** C7 on the fresh ledger, for both parts of the theorem. *)
Lemma mine_drains_pool_witness :
  (mine rwf 4 node0 (seconds 1700023670) fresh_ledger
   = (Returns (forged_response mined_block, 200), mined_ledger)
   /\ exists (self1 : Blockchain) (i block proof previous_hash : value)
             (l : list value),
       new_block rwf (seconds 1700023670) proof previous_hash self1
       = (Returns block, mined_ledger)
       /\ py_item block "transactions"
          = Returns (VList (currentTransactions self1))
       /\ chain mined_ledger = VList (l ++ [block]))
  /\ (0 <= 3
      /\ valid_proof rwf (VInt 100) (VInt 3)
                     (hash rwf (genesis (seconds 1700002596))) = true
      /\ exists (self1 : Blockchain) (fuel : nat) (block : value)
                (r : value * Z) (self2 : Blockchain),
          new_transaction (VStr "alice") (VStr "bob") (VInt 5)
                          (snd (__init__ rwf (seconds 1700002596)))
          = (Returns (VInt 2), self1)
          /\ mine rwf fuel node0 (seconds 1700008601) self1
             = (Returns r, self2)
          /\ py_item block "index" = Returns (VInt 2)
          /\ py_item block "transactions"
             = Returns (VList [ transaction (VStr "alice") (VStr "bob")
                                            (VInt 5);
                                reward node0 ])
          /\ chain self2 = VList [genesis (seconds 1700002596); block]).
Proof.
  assert (Hrun : mine rwf 4 node0 (seconds 1700023670) fresh_ledger
                 = (Returns (forged_response mined_block, 200),
                    mined_ledger)).
  { vm_compute. reflexivity. }
  assert (Hp : 0 <= 3) by lia.
  assert (Hv : valid_proof rwf (VInt 100) (VInt 3)
                 (hash rwf (genesis (seconds 1700002596))) = true).
  { vm_compute. reflexivity. }
  split.
  - split; [exact Hrun|].
    destruct (proj1 (mine_drains_pool rwf) 4%nat node0 (seconds 1700023670)
                    fresh_ledger mined_ledger _ Hrun)
      as (self1 & i & block & proof & previous_hash & l
          & _ & _ & Hblock & Htx & _ & _ & Hchain).
    exists self1, i, block, proof, previous_hash, l.
    split; [exact Hblock|]. split; [exact Htx | exact Hchain].
  - split; [exact Hp|]. split; [exact Hv|].
    destruct (proj2 (mine_drains_pool rwf) (seconds 1700002596)
                    (seconds 1700008601) node0 3 Hp Hv)
      as (self1 & Hsubmit & fuel & block & r & self2
          & Hmine & Hchain & Hindex & Htx & _).
    exists self1, fuel, block, r, self2.
    split; [exact Hsubmit|]. split; [exact Hmine|].
    split; [exact Hindex|]. split; [exact Htx | exact Hchain].
Defined.

(** The scenario of C7 run: block 2 holds alice's transaction, then the
    reward. *)
Example submit_then_mine :
  exists (self1 self2 : Blockchain) (r : value * Z) (ts proof ph : value),
    new_transaction (VStr "alice") (VStr "bob") (VInt 5) fresh_ledger
    = (Returns (VInt 2), self1)
    /\ mine rwf 4 node0 (seconds 1700008601) self1 = (Returns r, self2)
    /\ currentTransactions self2 = []
    /\ chain self2
       = VList [ genesis (seconds 1700002596);
                 VDict [ ("index", VInt 2);
                         ("timestamp", ts);
                         ("transactions",
                          VList [ transaction (VStr "alice") (VStr "bob")
                                              (VInt 5);
                                  reward node0 ]);
                         ("proof", proof);
                         ("previous_hash", ph) ] ].
Proof.
  do 6 eexists. split; [reflexivity|].
  split; [vm_compute; reflexivity|].
  split; reflexivity.
Qed.

(** C10 on the fresh ledger: a peer reports 7 blocks and sends none. *)
Lemma valid_chain_empty_raises_witness :
  py_gt (VInt 7) (NInt 1) = Returns true
  /\ resolve_conflicts_in rwf get_empty [peer_a; peer_b] fresh_ledger
     = (Raises IndexError, fresh_ledger)
  /\ resolve_conflicts rwf get_empty (with_nodes fresh_ledger {[ peer_a ]})
     = (Raises IndexError, with_nodes fresh_ledger {[ peer_a ]}).
Proof.
  assert (Hgt : py_gt (VInt 7) (NInt 1) = Returns true) by reflexivity.
  split; [exact Hgt|]. split.
  - apply (proj2 (valid_chain_empty_raises rwf) get_empty [] [peer_b]
                 peer_a fresh_ledger 1 VNone (chain_body [] 7) (VInt 7)
                 (NInt 1)); reflexivity.
  - apply (proj2 (valid_chain_empty_raises rwf) get_empty [] []
                 peer_a (with_nodes fresh_ledger {[ peer_a ]}) 1 VNone
                 (chain_body [] 7) (VInt 7) (NInt 1)); reflexivity.
Defined.

(** Against C2 as stated.  A ledger of two blocks is replaced by the
    chain of one block of a peer that reports the length 3: the chain
    gets shorter.  And with [peer_a] out of reach the resolution raises
    and replaces nothing, in either order of the peers, although
    [peer_b] reports a longer chain that the validator accepts. *)
Lemma resolve_shortens_or_aborts :
  (resolve_conflicts rwf get_short (with_nodes mined_ledger {[ peer_a ]})
   = (Returns true,
      {| chain := VList [genesis (seconds 1700000000)];
         currentTransactions := [];
         nodes := {[ peer_a ]} |})
   /\ py_len (chain mined_ledger) = Returns 2
   /\ py_len (VList [genesis (seconds 1700000000)]) = Returns 1)
  /\ (qualifies rwf get_a_down 1 peer_b (chain mined_ledger)
      /\ resolve_conflicts_in rwf get_a_down [peer_a; peer_b] fresh_ledger
         = (Raises RequestException, fresh_ledger)
      /\ resolve_conflicts_in rwf get_a_down [peer_b; peer_a] fresh_ledger
         = (Raises RequestException, fresh_ledger)).
Proof.
  split; [split; [|split]|split; [|split]].
  - vm_compute. reflexivity.
  - reflexivity.
  - reflexivity.
  - exists (VInt 2), (NInt 2). split.
    + exists (chain_body [genesis (seconds 1700002596); mined_block] 2).
      repeat split.
    + split; [reflexivity|]. split; [reflexivity|].
      vm_compute. reflexivity.
  - vm_compute. reflexivity.
  - vm_compute. reflexivity.
Qed.

(** C2 as amended, on the fresh ledger with [peer_a] answering 500 and
    [peer_b] holding the mined ledger: the chain is replaced, by a
    chain that a peer reported with a length above 1. *)
Lemma resolve_replaces_iff_qualifying_peer_witness :
  resolve_conflicts_in rwf get_a_500 [peer_a; peer_b] fresh_ledger
  = (Returns true, mined_ledger)
  /\ (exists node chain',
         In node [peer_a; peer_b] /\ qualifies rwf get_a_500 1 node chain')
  /\ binary64_lengths get_a_500 [peer_a; peer_b]
  /\ exists node,
      In node [peer_a; peer_b]
      /\ qualifies rwf get_a_500 1 node (chain mined_ledger).
Proof.
  assert (Hrun : resolve_conflicts_in rwf get_a_500 [peer_a; peer_b]
                   fresh_ledger
                 = (Returns true, mined_ledger)).
  { vm_compute. reflexivity. }
  assert (Hwf : binary64_lengths get_a_500 [peer_a; peer_b]).
  { intros node length chain Hin (body & Hget & Hlength & _).
    destruct Hin as [<- | [<- | []]].
    - discriminate Hget.
    - injection Hget as <-. injection Hlength as <-. exact I. }
  split; [exact Hrun|].
  destruct (proj2 (resolve_replaces_iff_qualifying_peer
                     rwf get_a_500 [peer_a; peer_b] fresh_ledger
                     mined_ledger (Returns true) Hrun)
                  true eq_refl)
    as (len0 & Hlen & Hiff & Hnew).
  injection Hlen as <-.
  split; [exact (proj1 Hiff eq_refl)|]. split; [exact Hwf|].
  destruct (Hnew eq_refl) as (node & length & chain' & _ & _ & _ & Hself
                              & Hlonger).
  injection Hself as <-. exact (Hlonger Hwf).
Defined.

(** Against C4 as stated: the only peer cannot be reached, and the
    exception leaves [resolve_conflicts]. *)
Lemma resolve_raises_when_peer_is_down :
  resolve_conflicts rwf get_down (with_nodes fresh_ledger {[ peer_a ]})
  = (Raises RequestException, with_nodes fresh_ledger {[ peer_a ]}).
Proof. vm_compute. reflexivity. Qed.

(** C4 as amended: [peer_a] answers 500 and is skipped; [peer_a] is out
    of reach and the resolution raises. *)
Lemma resolve_skips_failed_status_witness :
  (get_a_500 (chain_url peer_a)
   = Response 500 (Raises (ValueError "Expecting value"))
   /\ 500 <> 200
   /\ resolve_conflicts_in rwf get_a_500 ([] ++ peer_a :: [peer_b])
                           fresh_ledger
      = resolve_conflicts_in rwf get_a_500 ([] ++ [peer_b]) fresh_ledger)
  /\ (get_a_down (chain_url peer_a) = GetRaises RequestException
      /\ resolve_conflicts_in rwf get_a_down ([peer_b] ++ peer_a :: [])
                              fresh_ledger
         = (Raises RequestException, fresh_ledger)).
Proof.
  assert (H500 : get_a_500 (chain_url peer_a)
                 = Response 500 (Raises (ValueError "Expecting value")))
    by reflexivity.
  assert (Hne : 500 <> 200) by lia.
  assert (Hdown : get_a_down (chain_url peer_a) = GetRaises RequestException)
    by reflexivity.
  split; [split; [exact H500 | split; [exact Hne|]] | split; [exact Hdown|]].
  - exact (proj1 (resolve_skips_failed_status rwf get_a_500 [] [peer_b]
                    peer_a fresh_ledger)
                 500 (Raises (ValueError "Expecting value")) H500 Hne).
  - apply (proj2 (resolve_skips_failed_status rwf get_a_down [peer_b] []
                    peer_a fresh_ledger)
                 RequestException 1
                 (chain mined_ledger, NInt 2) Hdown eq_refl).
    vm_compute. reflexivity.
Defined.

(** Against C3 as stated: on the empty node set the empty address, which
    has neither network location nor path, raises nothing; and on a
    non-empty node set an address that is not a member raises
    KeyError. *)
Lemma deregister_malformed_on_empty_returns :
  (urlparse_hostport EmptyString
   = Returns {| scheme := EmptyString; netloc := EmptyString;
                path := EmptyString; params := EmptyString;
                query := EmptyString; fragment := EmptyString |}
   /\ deregister_node uhp EmptyString fresh_ledger
      = (Returns tt, fresh_ledger))
  /\ ((peer_b ∉ nodes (with_nodes fresh_ledger {[ peer_a ]}))
      /\ deregister_node uhp peer_b (with_nodes fresh_ledger {[ peer_a ]})
         = (Raises KeyError, with_nodes fresh_ledger {[ peer_a ]})).
Proof.
  split; [split; reflexivity | split].
  - cbn [nodes with_nodes]. intros H%elem_of_singleton. discriminate H.
  - vm_compute. reflexivity.
Qed.

(** C3 as amended: the empty node set, and a malformed address on a
    non-empty one. *)
Lemma deregister_node_empty_or_malformed_witness :
  (size (nodes fresh_ledger) = 0%nat
   /\ deregister_node uhp peer_a fresh_ledger = (Returns tt, fresh_ledger))
  /\ (size (nodes (with_nodes fresh_ledger {[ peer_a ]})) <> 0%nat
      /\ deregister_node uhp EmptyString
                         (with_nodes fresh_ledger {[ peer_a ]})
         = (Raises (ValueError "Invalid URL"),
            with_nodes fresh_ledger {[ peer_a ]})).
Proof.
  assert (H0 : size (nodes fresh_ledger) = 0%nat) by reflexivity.
  assert (H1 : size (nodes (with_nodes fresh_ledger {[ peer_a ]})) <> 0%nat).
  { vm_compute. discriminate. }
  split; [split; [exact H0|] | split; [exact H1|]].
  - exact (proj1 (deregister_node_empty_or_malformed uhp peer_a
                    fresh_ledger) H0).
  - exact (proj2 (deregister_node_empty_or_malformed uhp EmptyString
                    (with_nodes fresh_ledger {[ peer_a ]}))
                 H1 _ eq_refl eq_refl).
Defined.

(** Against C9 as stated: [peer_a] is registered already; registering
    it again and deregistering it leaves the node set empty, not as it
    was. *)
Lemma register_deregister_of_member_removes :
  exists self' : Blockchain,
    bind (register_node uhp peer_a) (fun _ => deregister_node uhp peer_a)
         (with_nodes fresh_ledger {[ peer_a ]})
    = (Returns tt, self')
    /\ nodes self' = ∅
    /\ peer_a ∈ nodes (with_nodes fresh_ledger {[ peer_a ]})
    /\ self' <> with_nodes fresh_ledger {[ peer_a ]}.
Proof.
  exists fresh_ledger.
  split; [vm_compute; reflexivity|]. split; [reflexivity|].
  split; [vm_compute; reflexivity|].
  intros H. apply (f_equal (fun s => size (nodes s))) in H.
  vm_compute in H. discriminate H.
Qed.

(** C9 as amended, for the address http://192.168.0.10:5005 on the
    fresh ledger. *)
Lemma register_deregister_roundtrip_witness :
  (peer_a ∉ nodes fresh_ledger)
  /\ bind (register_node uhp "http://192.168.0.10:5005")
          (fun _ => deregister_node uhp "http://192.168.0.10:5005")
          fresh_ledger
     = (Returns tt, fresh_ledger)
  /\ exists self1 : Blockchain,
      register_node uhp "http://192.168.0.10:5005" fresh_ledger
      = (Returns tt, self1)
      /\ List.count_occ string_dec (elements (nodes self1)) peer_a = 1%nat.
Proof.
  assert (Hfresh : peer_a ∉ nodes fresh_ledger).
  { apply not_elem_of_empty. }
  destruct (register_deregister_roundtrip uhp "http://192.168.0.10:5005"
              fresh_ledger _ peer_a eq_refl eq_refl)
    as (Hround & _ & self1 & Hreg & _ & Hcount).
  split; [exact Hfresh|]. split; [exact (Hround Hfresh)|].
  exists self1. split; [exact Hreg | exact Hcount].
Defined.

(** *** Further theorems at concrete inputs *)

(** The validator on the mined ledger. *)
Lemma valid_chain_accepts_mined_witness :
  mined rwf mined_ledger
  /\ valid_chain rwf (chain mined_ledger) = Returns true.
Proof.
  split; [exact mined_ledger_is_mined|].
  exact (valid_chain_accepts_mined rwf mined_ledger mined_ledger_is_mined).
Defined.

(** The numbering on the mined ledger: block 2, and the index that a
    new transaction is promised. *)
Lemma mined_blocks_numbered_witness :
  mined rwf mined_ledger
  /\ py_item mined_block "index" = Returns (VInt (1 + 1))
  /\ fst (new_transaction (VStr "alice") (VStr "bob") (VInt 5) mined_ledger)
     = Returns (VInt (2 + 1)).
Proof.
  split; [exact mined_ledger_is_mined|].
  destruct (mined_blocks_numbered rwf mined_ledger mined_ledger_is_mined)
    as [Hindex Hnext].
  split.
  - apply (Hindex 1 mined_block); [lia | reflexivity].
  - apply (Hnext 2 (VStr "alice") (VStr "bob") (VInt 5)). reflexivity.
Defined.

(** The proofs of the mined ledger: 3 is the least proof after the
    genesis block. *)
Lemma mined_chain_proofs_least_witness :
  mined rwf mined_ledger
  /\ exists a b : Z,
      py_item (genesis (seconds 1700002596)) "proof" = Returns (VInt a)
      /\ py_item mined_block "proof" = Returns (VInt b)
      /\ 0 <= b
      /\ valid_proof rwf (VInt a) (VInt b)
                     (hash rwf (genesis (seconds 1700002596))) = true
      /\ forall q, 0 <= q < b ->
                   valid_proof rwf (VInt a) (VInt q)
                     (hash rwf (genesis (seconds 1700002596))) = false.
Proof.
  split; [exact mined_ledger_is_mined|].
  apply (mined_chain_proofs_least rwf mined_ledger mined_ledger_is_mined
           1 (genesis (seconds 1700002596)) mined_block).
  - lia.
  - reflexivity.
  - reflexivity.
Defined.

Lemma genesis_items_distinct : List.NoDup (List.map fst genesis_items).
Proof.
  repeat constructor; cbn; intuition discriminate.
Defined.

(** The genesis block with its items in the reverse order has the same
    hash. *)
Lemma hash_ignores_key_order_witness :
  Permutation genesis_items (List.rev genesis_items)
  /\ List.NoDup (List.map fst genesis_items)
  /\ hash rwf (VDict genesis_items)
     = hash rwf (VDict (List.rev genesis_items)).
Proof.
  split; [apply Permutation_rev|]. split; [exact genesis_items_distinct|].
  exact (proj2 (hash_ignores_key_order rwf genesis_items
                  (List.rev genesis_items)
                  (Permutation_rev genesis_items) genesis_items_distinct)).
Defined.

(** The mined chain with its last block altered gets the same verdict,
    which is True. *)
Lemma valid_chain_last_block_unchecked_witness :
  py_item mined_block "previous_hash" = py_item altered_block "previous_hash"
  /\ py_item mined_block "proof" = py_item altered_block "proof"
  /\ valid_chain rwf (VList ([genesis (seconds 1700002596)] ++ [mined_block]))
     = valid_chain rwf
         (VList ([genesis (seconds 1700002596)] ++ [altered_block])).
Proof.
  split; [reflexivity|]. split; [reflexivity|].
  exact (valid_chain_last_block_unchecked rwf
           [genesis (seconds 1700002596)] mined_block altered_block
           eq_refl eq_refl).
Defined.

Example valid_chain_altered_last_block :
  valid_chain rwf (VList [genesis (seconds 1700002596); altered_block])
  = Returns true.
Proof. vm_compute. reflexivity. Qed.

(** A second block without the field previous_hash. *)
Lemma valid_chain_raises_at_malformed_block_witness :
  valid_chain rwf (VList [ genesis (seconds 1700002596);
                           VDict [("proof", VInt 3)] ])
  = Raises KeyError.
Proof.
  apply (valid_chain_raises_at_malformed_block rwf
           (genesis (seconds 1700002596)) [VDict [("proof", VInt 3)]]
           0 (genesis (seconds 1700002596)) (VDict [("proof", VInt 3)])
           KeyError).
  - intros n prev cur Hn. lia.
  - reflexivity.
  - reflexivity.
  - left. reflexivity.
Defined.

Lemma swap_peers : Permutation [peer_a; peer_b] [peer_b; peer_a].
Proof. apply perm_swap. Defined.

(** The two orders of the two peers, [peer_a] answering 500. *)
Lemma resolve_flag_order_independent_witness :
  resolve_conflicts_in rwf get_a_500 [peer_a; peer_b] fresh_ledger
  = (Returns true, mined_ledger)
  /\ resolve_conflicts_in rwf get_a_500 [peer_b; peer_a] fresh_ledger
     = (Returns true, mined_ledger)
  /\ true = true.
Proof.
  assert (H1 : resolve_conflicts_in rwf get_a_500 [peer_a; peer_b]
                 fresh_ledger = (Returns true, mined_ledger)).
  { vm_compute. reflexivity. }
  assert (H2 : resolve_conflicts_in rwf get_a_500 [peer_b; peer_a]
                 fresh_ledger = (Returns true, mined_ledger)).
  { vm_compute. reflexivity. }
  split; [exact H1|]. split; [exact H2|].
  exact (resolve_flag_order_independent rwf get_a_500
           [peer_a; peer_b] [peer_b; peer_a] fresh_ledger
           mined_ledger mined_ledger true true swap_peers H1 H2).
Defined.

Lemma get_a_500_int_lengths : int_lengths get_a_500 [peer_a; peer_b].
Proof.
  intros node length chain Hin (body & Hget & Hlength & _).
  destruct Hin as [<- | [<- | []]].
  - discriminate Hget.
  - injection Hget as <-. injection Hlength as <-. exists 2. reflexivity.
Defined.

(** The chain adopted from the two peers was reported with the length
    2, the greatest. *)
Lemma resolve_adopts_greatest_length_witness :
  int_lengths get_a_500 [peer_a; peer_b]
  /\ resolve_conflicts_in rwf get_a_500 [peer_a; peer_b] fresh_ledger
     = (Returns true, mined_ledger)
  /\ exists (node : string) (m : Z),
      In node [peer_a; peer_b]
      /\ answers get_a_500 node (VInt m) (chain mined_ledger)
      /\ 1 < m.
Proof.
  assert (Hrun : resolve_conflicts_in rwf get_a_500 [peer_a; peer_b]
                   fresh_ledger = (Returns true, mined_ledger)).
  { vm_compute. reflexivity. }
  split; [exact get_a_500_int_lengths|]. split; [exact Hrun|].
  destruct (resolve_adopts_greatest_length rwf get_a_500 [peer_a; peer_b]
              fresh_ledger mined_ledger 1 get_a_500_int_lengths
              eq_refl Hrun)
    as (node & m & Hin & Hans & _ & Hlt & _).
  exists node, m. split; [exact Hin|]. split; [exact Hans | exact Hlt].
Defined.

(** A fresh node whose only peer serves the mined ledger. *)
Lemma consensus_adopts_longer_mined_peer_witness :
  mined rwf mined_ledger
  /\ fst (full_chain mined_ledger)
     = Returns (chain_body [genesis (seconds 1700002596); mined_block] 2,
                200)
  /\ consensus rwf get_a_500 (with_nodes fresh_ledger {[ peer_b ]})
     = (Returns (VDict [ ("message", VStr "Our chain got replaced");
                         ("new_chain", chain mined_ledger) ], 200),
        with_nodes mined_ledger {[ peer_b ]}).
Proof.
  split; [exact mined_ledger_is_mined|]. split; [reflexivity|].
  exact (consensus_adopts_longer_mined_peer rwf get_a_500 peer_b
           (with_nodes fresh_ledger {[ peer_b ]}) mined_ledger
           (chain_body [genesis (seconds 1700002596); mined_block] 2)
           1 2 mined_ledger_is_mined eq_refl eq_refl eq_refl eq_refl
           eq_refl).
Defined.

Lemma two_addresses_well_formed :
  forall a, In a ["http://192.168.0.10:5005"; peer_b] ->
            normal_form uhp a <> None.
Proof.
  intros a [<- | [<- | []]]; discriminate.
Defined.

(** Two addresses, one in each form, registered on the fresh ledger. *)
Lemma register_nodes_registers_all_witness :
  py_get two_addresses "nodes"
  = Returns (VList [VStr "http://192.168.0.10:5005"; VStr peer_b])
  /\ exists listed : list string,
      List.NoDup listed
      /\ (forall a : string,
             In a listed
             <-> a ∈ nodes fresh_ledger
                     ∪ normal_forms uhp
                         ["http://192.168.0.10:5005"; peer_b])
      /\ register_nodes uhp urlparse_number two_addresses fresh_ledger
         = (Returns (VDict [ ("message", VStr "New nodes have been added");
                             ("total_nodes",
                              VList (List.map VStr listed)) ], 201),
            with_nodes fresh_ledger
              (nodes fresh_ledger
               ∪ normal_forms uhp ["http://192.168.0.10:5005"; peer_b])).
Proof.
  split; [reflexivity|].
  assert (Hv : VList [VStr "http://192.168.0.10:5005"; VStr peer_b] <> VNone)
    by discriminate.
  exact (register_nodes_registers_all uhp urlparse_number two_addresses
           (VList [VStr "http://192.168.0.10:5005"; VStr peer_b])
           ["http://192.168.0.10:5005"; peer_b] fresh_ledger
           eq_refl Hv eq_refl two_addresses_well_formed).
Defined.

(** One member to remove, then a number and the empty address: both
    are ignored. *)
Lemma deregister_nodes_stops_at_empty_set_witness :
  py_get mixed_items "nodes"
  = Returns (VList [VStr peer_a; VInt 5; VStr EmptyString])
  /\ deregister_nodes uhp urlparse_number mixed_items fresh_ledger
     = (Returns (VDict [ ("message", VStr "Nodes de-registered");
                         ("total_nodes", VList []) ], 201),
        fresh_ledger)
  /\ deregister_nodes uhp urlparse_number mixed_items
                      (with_nodes fresh_ledger {[ peer_a ]})
     = (Returns (VDict [ ("message", VStr "Nodes de-registered");
                         ("total_nodes", VList []) ], 201),
        with_nodes (with_nodes fresh_ledger {[ peer_a ]}) ∅).
Proof.
  assert (Hv : VList [VStr peer_a; VInt 5; VStr EmptyString] <> VNone)
    by discriminate.
  split; [reflexivity|]. split.
  - exact (proj1 (deregister_nodes_stops_at_empty_set uhp urlparse_number
                    mixed_items
                    (VList [VStr peer_a; VInt 5; VStr EmptyString])
                    fresh_ledger eq_refl Hv)
                 [VStr peer_a; VInt 5; VStr EmptyString] eq_refl eq_refl).
  - exact (proj2 (deregister_nodes_stops_at_empty_set uhp urlparse_number
                    mixed_items
                    (VList [VStr peer_a; VInt 5; VStr EmptyString])
                    (with_nodes fresh_ledger {[ peer_a ]}) eq_refl Hv)
                 peer_a peer_a [VInt 5; VStr EmptyString]
                 eq_refl eq_refl eq_refl).
Defined.

(** host:port registered, http://host:port deregistered. *)
Lemma register_then_deregister_other_form_witness :
  normal_form uhp peer_a = Some peer_a
  /\ normal_form uhp "http://192.168.0.10:5005" = Some peer_a
  /\ bind (register_node uhp peer_a)
          (fun _ => deregister_node uhp "http://192.168.0.10:5005")
          fresh_ledger
     = (Returns tt, fresh_ledger)
  /\ bind (register_node uhp peer_a) (fun _ => all_nodes) fresh_ledger
     = (Returns (VDict [ ("message", VStr "All registered nodes");
                         ("total_nodes", VList [VStr peer_a]) ], 201),
        with_nodes fresh_ledger {[ peer_a ]}).
Proof.
  split; [reflexivity|]. split; [reflexivity|].
  destruct (register_then_deregister_other_form uhp peer_a
              "http://192.168.0.10:5005" peer_a fresh_ledger
              eq_refl eq_refl) as [Hround Hlist].
  split.
  - apply Hround. apply not_elem_of_empty.
  - apply Hlist. reflexivity.
Defined.

(** A member and a non-member of a node set of one entry. *)
Lemma deregister_node_member_or_not_witness :
  normal_form uhp peer_a = Some peer_a
  /\ normal_form uhp peer_b = Some peer_b
  /\ deregister_node uhp peer_a (with_nodes fresh_ledger {[ peer_a ]})
     = (Returns tt,
        with_nodes (with_nodes fresh_ledger {[ peer_a ]})
                   ({[ peer_a ]} ∖ {[ peer_a ]}))
  /\ deregister_node uhp peer_b (with_nodes fresh_ledger {[ peer_a ]})
     = (Raises KeyError, with_nodes fresh_ledger {[ peer_a ]}).
Proof.
  split; [reflexivity|]. split; [reflexivity|].
  destruct (deregister_node_member_or_not uhp peer_a peer_a
              (with_nodes fresh_ledger {[ peer_a ]}) eq_refl)
    as [Hmember _].
  destruct (deregister_node_member_or_not uhp peer_b peer_b
              (with_nodes fresh_ledger {[ peer_a ]}) eq_refl)
    as [_ Hother].
  split.
  - destruct Hmember as [Hrun _].
    + cbn [nodes with_nodes]. apply elem_of_singleton. reflexivity.
    + exact Hrun.
  - apply Hother.
    + cbn [nodes with_nodes]. intros H. apply elem_of_singleton in H.
      discriminate H.
    + cbn [nodes with_nodes]. intros H.
      apply (f_equal size) in H. rewrite size_singleton, size_empty in H.
      discriminate H.
Defined.

(** The search after the genesis block ends with 3 within four steps. *)
Lemma proof_of_work_sound_witness :
  proof_of_work rwf 4 (genesis (seconds 1700002596)) = Returns 3
  /\ (exists a : value,
         py_item (genesis (seconds 1700002596)) "proof" = Returns a
         /\ 0 <= 3
         /\ valid_proof rwf a (VInt 3)
                        (hash rwf (genesis (seconds 1700002596))) = true
         /\ forall q, 0 <= q < 3 ->
                      valid_proof rwf a (VInt q)
                        (hash rwf (genesis (seconds 1700002596))) = false)
  /\ proof_of_work rwf 4 (VDict [("index", VInt 1)]) = Raises KeyError.
Proof.
  assert (Hrun : proof_of_work rwf 4%nat (genesis (seconds 1700002596))
                 = Returns 3) by (vm_compute; reflexivity).
  destruct (proof_of_work_sound rwf 4%nat (genesis (seconds 1700002596)))
    as (_ & Hsound & _).
  destruct (proof_of_work_sound rwf 4%nat (VDict [("index", VInt 1)]))
    as (Hraises & _).
  split; [exact Hrun|]. split; [exact (Hsound 3 Hrun)|].
  apply Hraises. reflexivity.
Defined.

(** [mine] on the fresh ledger, with enough fuel and with too little. *)
Lemma mine_frame_witness :
  nodes (snd (mine rwf 4%nat node0 (seconds 1700023670) fresh_ledger))
  = nodes fresh_ledger
  /\ snd (mine rwf 2%nat node0 (seconds 1700023670) fresh_ledger)
     = fresh_ledger.
Proof.
  pose proof (mine_frame rwf 4%nat node0 (seconds 1700023670) fresh_ledger)
    as Hfull.
  pose proof (mine_frame rwf 2%nat node0 (seconds 1700023670) fresh_ledger)
    as Hshort.
  cbv zeta in Hfull, Hshort.
  destruct Hfull as [Hnodes _]. destruct Hshort as [_ Hshort].
  assert (Hrun : fst (mine rwf 2%nat node0 (seconds 1700023670) fresh_ledger)
                 = OutOfFuel) by (vm_compute; reflexivity).
  rewrite Hrun in Hshort.
  split; [exact Hnodes | exact Hshort].
Defined.


(** A block made with None for previous_hash after the genesis block. *)
Lemma new_block_links_to_last_witness :
  exists block : value,
    fst (new_block rwf (seconds 1700023670) (VInt 3) VNone fresh_ledger)
    = Returns block
    /\ py_item block "index" = Returns (VInt 2)
    /\ py_item block "previous_hash"
       = Returns (VStr (hash rwf (genesis (seconds 1700002596)))).
Proof.
  destruct (new_block_links_to_last rwf (seconds 1700023670) (VInt 3) VNone
              [] ∅) as [Hlast _].
  destruct (Hlast [] (genesis (seconds 1700002596)))
    as (block & Hrun & Hindex & _ & _ & Hlink & _).
  exists block. split; [|split].
  - change fresh_ledger
      with {| chain := VList ([] ++ [genesis (seconds 1700002596)]);
              currentTransactions := []; nodes := ∅ |}.
    rewrite Hrun. reflexivity.
  - exact Hindex.
  - apply Hlink. reflexivity.
Defined.

(** A body without recipient, and a body with the three fields. *)
Lemma new_transactions_checks_fields_witness :
  new_transactions rwf
    (VDict [("sender", VStr "alice"); ("amount", VInt 5)]) fresh_ledger
  = (Returns (VStr "Missing values: {k}", 400), fresh_ledger)
  /\ fst (new_transactions rwf
            (VDict [ ("sender", VStr "alice"); ("recipient", VStr "bob");
                     ("amount", VInt 5) ]) fresh_ledger)
     = Returns (VDict [ ("message",
                         VStr "Transaction will be added to Block 2") ],
                200).
Proof.
  destruct (new_transactions_checks_fields rwf
              (VDict [("sender", VStr "alice"); ("amount", VInt 5)])
              fresh_ledger) as (Hmissing & _).
  destruct (new_transactions_checks_fields rwf
              (VDict [ ("sender", VStr "alice"); ("recipient", VStr "bob");
                       ("amount", VInt 5) ])
              fresh_ledger) as (_ & Hfull & _).
  split.
  - apply (Hmissing [("sender", VStr "alice"); ("amount", VInt 5)]
                    "recipient" eq_refl).
    + right. left. reflexivity.
    + reflexivity.
  - rewrite (Hfull [ ("sender", VStr "alice"); ("recipient", VStr "bob");
                     ("amount", VInt 5) ]
                   (VStr "alice") (VStr "bob") (VInt 5)
                   eq_refl eq_refl eq_refl eq_refl).
    vm_compute. reflexivity.
Defined.

(** Three addresses, the second one empty. *)
Lemma register_nodes_failures_witness :
  register_nodes uhp urlparse_number
    (VDict [ ("nodes", VList [VStr peer_a; VStr EmptyString; VStr peer_b]) ])
    fresh_ledger
  = (Raises (ValueError "Invalid URL"),
     with_nodes fresh_ledger (∅ ∪ normal_forms uhp [peer_a])).
Proof.
  destruct (register_nodes_failures uhp urlparse_number
              (VDict [ ("nodes",
                        VList [VStr peer_a; VStr EmptyString;
                               VStr peer_b]) ])
              fresh_ledger) as (_ & _ & Hbad).
  apply (Hbad (VList [VStr peer_a; VStr EmptyString; VStr peer_b])
              [peer_a] [peer_b] EmptyString
              {| scheme := EmptyString; netloc := EmptyString;
                 path := EmptyString; params := EmptyString;
                 query := EmptyString; fragment := EmptyString |}).
  - reflexivity.
  - reflexivity.
  - intros a [<- | []]. discriminate.
  - reflexivity.
  - reflexivity.
Defined.

(** An address with a scheme, registered on the fresh ledger. *)
Lemma register_node_effect_witness :
  register_node uhp "http://192.168.0.10:5005" fresh_ledger
  = (Returns tt, with_nodes fresh_ledger (∅ ∪ {[ peer_a ]}))
  /\ size ((∅ : gset string) ∪ {[ peer_a ]}) = 1%nat.
Proof.
  destruct (register_node_effect uhp "http://192.168.0.10:5005" fresh_ledger)
    as (_ & _ & Hok).
  destruct (Hok {| scheme := "http"; netloc := peer_a;
                   path := EmptyString; params := EmptyString;
                   query := EmptyString; fragment := EmptyString |}
                peer_a eq_refl eq_refl)
    as (Hrun & _ & _ & _ & Hsize).
  split; [exact Hrun|].
  cbn [nodes fresh_ledger] in Hsize. rewrite Hsize.
  rewrite bool_decide_false by apply not_elem_of_empty.
  rewrite size_empty. reflexivity.
Defined.
